(** * Graph-answer decoding of the STIX ORM: export_utilities.py

    A shallow embedding of [stix/module/orm/export_utilities.py] and the
    properties of its relation-category dispatch.  The TypeDB transaction
    and the authorisation table are external to the module and appear here
    as records of the operations the module calls on them. *)

From Stdlib Require Import List String Ascii ZArith Lia Bool.
Import ListNotations.
Local Open Scope string_scope.
Local Open Scope Z_scope.

(** ** Python strings *)

Module PyStr.

(** The one-character string holding a backslash (Python source ["\\"]). *)
Definition backslash : ascii := Ascii.ascii_of_nat 92.
Definition bs1 : string := String backslash EmptyString.
(** The two-character string of Python source ["\\\\"]. *)
Definition bs2 : string := String backslash bs1.

(** [str.replace(old, new)]: a left-to-right scan that substitutes every
    non-overlapping occurrence of a non-empty [old].  [skip] counts the
    characters of a matched occurrence that are still to be passed over.
    Strings are kept as UTF-8 bytes; a backslash is a single byte that no
    multi-byte sequence contains, so the scan agrees with Python's scan
    over code points for the patterns used here. *)
Fixpoint replace_from (old new : string) (skip : nat) (s : string) : string :=
  match s with
  | EmptyString => EmptyString
  | String c t =>
      match skip with
      | S k => replace_from old new k t
      | O =>
          if String.prefix old s
          then new ++ replace_from old new (Nat.pred (String.length old)) t
          else String c (replace_from old new O t)
      end
  end.

Definition replace (old new s : string) : string := replace_from old new O s.

(** [sub in s] for strings. *)
Fixpoint contains (sub s : string) : bool :=
  String.prefix sub s ||
  match s with
  | EmptyString => false
  | String _ t => contains sub t
  end.

Definition digit (d : Z) : ascii := Ascii.ascii_of_nat (48 + Z.to_nat d).

Definition is_digit (c : ascii) : bool :=
  let n := Ascii.nat_of_ascii c in (48 <=? n)%nat && (n <=? 57)%nat.

(** Decimal digits of a non-negative integer, least significant first;
    [fuel] bounds the number of digits. *)
Fixpoint digits_rev (fuel : nat) (n : Z) : list ascii :=
  match fuel with
  | O => []
  | S f => digit (n mod 10) :: (if n / 10 =? 0 then [] else digits_rev f (n / 10))
  end.

(** ['%d' % n] for [0 <= n]. *)
Definition decimal (n : Z) : string :=
  string_of_list_ascii (rev (digits_rev (S (Z.to_nat (Z.log2 n))) n)).

(** [s.zfill(width)] on a digit string. *)
Definition zfill (width : nat) (s : string) : string :=
  string_of_list_ascii (repeat (digit 0) (width - String.length s)) ++ s.

(** ['%0<width>d' % n] for [0 <= n]. *)
Definition fmt_0d (width : nat) (n : Z) : string := zfill width (decimal n).

(** The value a digit string denotes. *)
Definition digits_value (s : string) : Z :=
  fold_left (fun acc c => 10 * acc + (Z.of_nat (Ascii.nat_of_ascii c) - 48))
            (list_ascii_of_string s) 0.

Definition digit_value (c : ascii) : Z := Z.of_nat (Ascii.nat_of_ascii c) - 48.

(** The value of a digit list given least significant digit first. *)
Definition value_rev (ds : list ascii) : Z :=
  fold_right (fun c acc => digit_value c + 10 * acc) 0 ds.

(** [temp_string.replace("\\\\", "\\")], the decoding of a string value. *)
Definition decode (s : string) : string := replace bs2 bs1 s.

(** Three backslashes in a row. *)
Definition bs3 : string := String backslash bs2.

(** The shapes a string can take with respect to a leading backslash. *)
Inductive shape : string -> Type :=
| shape_nil : shape EmptyString
| shape_other c t : Ascii.eqb c backslash = false -> shape (String c t)
| shape_last : shape bs1
| shape_pair t : shape (String backslash (String backslash t))
| shape_single c t : Ascii.eqb c backslash = false ->
    shape (String backslash (String c t)).

End PyStr.

(** ** Exceptions *)

Inductive Exn :=
| UnboundLocalError (name : string)
| KeyError (key : string)
| OverflowError
| ValueError
| RecursionError.

Inductive result (A : Type) :=
| Ok (a : A)
| Raise (e : Exn).
Arguments Ok {A} a.
Arguments Raise {A} e.

(** ** Python's [datetime] arithmetic

    The proleptic Gregorian ordinal arithmetic of the standard library's
    [datetime] module, which [astimezone] and [strftime] are built on. *)

Module PyDatetime.

Record datetime := mk_datetime {
  year : Z; month : Z; day : Z;
  hour : Z; minute : Z; second : Z; microsecond : Z;
  (** [tzinfo.utcoffset(dt)] of an aware value, in microseconds; [None] for
      a naive value, which has no [tzinfo]. *)
  tzinfo : option Z
}.

Definition MINYEAR : Z := 1.
Definition MAXYEAR : Z := 9999.
Definition MAXORDINAL : Z := 3652059.

Definition DAYS_IN_MONTH : list Z := [-1; 31; 28; 31; 30; 31; 30; 31; 31; 30; 31; 30; 31].
Definition DAYS_BEFORE_MONTH : list Z :=
  [-1; 0; 31; 59; 90; 120; 151; 181; 212; 243; 273; 304; 334].

Definition index (l : list Z) (i : Z) : Z := nth (Z.to_nat i) l (-1).

Definition is_leap (y : Z) : bool :=
  (y mod 4 =? 0) && (negb (y mod 100 =? 0) || (y mod 400 =? 0)).

Definition days_before_year (y : Z) : Z :=
  let y := y - 1 in y * 365 + y / 4 - y / 100 + y / 400.

Definition days_in_month (y m : Z) : Z :=
  if (m =? 2) && is_leap y then 29 else index DAYS_IN_MONTH m.

Definition days_before_month (y m : Z) : Z :=
  index DAYS_BEFORE_MONTH m + (if (2 <? m) && is_leap y then 1 else 0).

Definition ymd2ord (y m d : Z) : Z :=
  days_before_year y + days_before_month y m + d.

Definition DI400Y : Z := 146097.
Definition DI100Y : Z := 36524.
Definition DI4Y : Z := 1461.

Definition ord2ymd (n : Z) : Z * Z * Z :=
  let n := n - 1 in
  let n400 := n / DI400Y in let n := n mod DI400Y in
  let y := n400 * 400 + 1 in
  let n100 := n / DI100Y in let n := n mod DI100Y in
  let n4 := n / DI4Y in let n := n mod DI4Y in
  let n1 := n / 365 in let n := n mod 365 in
  let y := y + n100 * 100 + n4 * 4 + n1 in
  if (n1 =? 4) || (n100 =? 4) then (y - 1, 12, 31)
  else
    let leapyear := (n1 =? 3) && (negb (n4 =? 24) || (n100 =? 3)) in
    let m := Z.shiftr (n + 50) 5 in
    let preceding :=
      index DAYS_BEFORE_MONTH m + (if (2 <? m) && leapyear then 1 else 0) in
    if n <? preceding
    then
      let m := m - 1 in
      let preceding :=
        preceding - (index DAYS_IN_MONTH m + (if (m =? 2) && leapyear then 1 else 0)) in
      (y, m, n - preceding + 1)
    else (y, m, n - preceding + 1).

(** The month and day that [ord2ymd] reads off the day of the year [n]. *)
Definition month_day (leapyear : bool) (n : Z) : Z * Z :=
  let m := Z.shiftr (n + 50) 5 in
  let preceding :=
    index DAYS_BEFORE_MONTH m + (if (2 <? m) && leapyear then 1 else 0) in
  if n <? preceding
  then
    let m := m - 1 in
    let preceding :=
      preceding - (index DAYS_IN_MONTH m + (if (m =? 2) && leapyear then 1 else 0)) in
    (m, n - preceding + 1)
  else (m, n - preceding + 1).

(** The assertions of [_ord2ymd] on that month and day. *)
Definition month_day_ok (leapyear : bool) (n : Z) : bool :=
  let '(m, d) := month_day leapyear n in
  (1 <=? m) && (m <=? 12) && (1 <=? d) &&
  (d <=? (if (m =? 2) && leapyear then 29 else index DAYS_IN_MONTH m)) &&
  (index DAYS_BEFORE_MONTH m + (if (2 <? m) && leapyear then 1 else 0) + d =? n + 1).

Definition US_PER_SECOND : Z := 1000000.
Definition US_PER_DAY : Z := 86400 * US_PER_SECOND.

(** Well-formedness of a [datetime] object, as its constructor checks it. *)
Definition valid (dt : datetime) : bool :=
  (MINYEAR <=? year dt) && (year dt <=? MAXYEAR) &&
  (1 <=? month dt) && (month dt <=? 12) &&
  (1 <=? day dt) && (day dt <=? days_in_month (year dt) (month dt)) &&
  (0 <=? hour dt) && (hour dt <? 24) &&
  (0 <=? minute dt) && (minute dt <? 60) &&
  (0 <=? second dt) && (second dt <? 60) &&
  (0 <=? microsecond dt) && (microsecond dt <? US_PER_SECOND) &&
  match tzinfo dt with
  | Some offset => (- US_PER_DAY <? offset) && (offset <? US_PER_DAY)
  | None => true
  end.

(** Microseconds from the start of ordinal day 0 to the wall-clock fields. *)
Definition wall_us (dt : datetime) : Z :=
  ymd2ord (year dt) (month dt) (day dt) * US_PER_DAY
  + ((hour dt * 60 + minute dt) * 60 + second dt) * US_PER_SECOND
  + microsecond dt.

(** The instant that the wall-clock fields of [dt] denote at the offset
    [offset] from UTC, in microseconds on the UTC time line. *)
Definition instant_us (dt : datetime) (offset : Z) : Z := wall_us dt - offset.

(** [(dt - offset).replace(tzinfo=timezone.utc)], the last step of
    [astimezone]; [None] is the [OverflowError] of a subtraction that leaves
    the years 1 to 9999. *)
Definition minus_offset (dt : datetime) (offset : Z) : option datetime :=
  let total := instant_us dt offset in
  let days := total / US_PER_DAY in
  let rem := total mod US_PER_DAY in
  let seconds := rem / US_PER_SECOND in
  let us := rem mod US_PER_SECOND in
  let h := seconds / 3600 in
  let rem := seconds mod 3600 in
  let mi := rem / 60 in
  let s := rem mod 60 in
  if (0 <? days) && (days <=? MAXORDINAL)
  then
    let '(y, m, d) := ord2ymd days in
    Some (mk_datetime y m d h mi s us (Some 0))
  else None.

(** The offset [astimezone] subtracts: the [tzinfo]'s for an aware value.
    For a naive value it is the offset of the host's local zone at the value,
    which [astimezone] looks up through the platform's [localtime]; the
    lookup, [local_utcoffset], is a parameter.  It fails where the platform
    does, and with [ValueError] where one of its probes of [localtime] around
    the value falls outside the years 1 to 9999, which on any host includes
    every naive value of 0001-01-01. *)
Definition utcoffset (local_utcoffset : datetime -> result Z) (dt : datetime)
    : result Z :=
  match tzinfo dt with
  | Some offset => Ok offset
  | None => local_utcoffset dt
  end.

(** [dt.astimezone(timezone.utc)] *)
Definition astimezone_utc (local_utcoffset : datetime -> result Z) (dt : datetime)
    : result datetime :=
  match utcoffset local_utcoffset dt with
  | Ok offset =>
      match minus_offset dt offset with
      | Some utc => Ok utc
      | None => Raise OverflowError
      end
  | Raise e => Raise e
  end.

(** [dt.strftime("%Y-%m-%dT%H:%M:%S.%fZ")].  [%f] is expanded by Python
    itself to six digits; the other directives go to the platform's C
    library, whose rendering of [%Y] (padded or not below year 1000) is
    taken as the parameter [strftime_Y]. *)
Definition strftime (strftime_Y : Z -> string) (dt : datetime) : string :=
  strftime_Y (year dt) ++ "-" ++ PyStr.fmt_0d 2 (month dt) ++ "-"
  ++ PyStr.fmt_0d 2 (day dt) ++ "T" ++ PyStr.fmt_0d 2 (hour dt) ++ ":"
  ++ PyStr.fmt_0d 2 (minute dt) ++ ":" ++ PyStr.fmt_0d 2 (second dt) ++ "."
  ++ PyStr.fmt_0d 6 (microsecond dt) ++ "Z".

End PyDatetime.

(** ** Values, graph concepts and the transaction *)

#[local] Set Warnings "-register-all".

(** What [attr.get_value()] returns. A double is kept as its bit pattern:
    the decoder only passes it on. *)
Inductive Value :=
| VBool (b : bool)
| VLong (n : Z)
| VDouble (bits : Z)
| VString (s : string)
| VDatetime (dt : PyDatetime.datetime).

(** The dictionaries and lists the decoder builds.  A [dict] is kept as an
    association list in insertion order. *)
Inductive pyobj :=
| PNone
| PVal (v : Value)
| PList (l : list pyobj)
| PDict (d : list (string * pyobj)).

Definition PStr (s : string) : pyobj := PVal (VString s).
Definition PTrue : pyobj := PVal (VBool true).
Definition PFalse : pyobj := PVal (VBool false).

Definition dict := list (string * pyobj).

(** [d[k] = v] *)
Fixpoint dict_set (k : string) (v : pyobj) (d : dict) : dict :=
  match d with
  | [] => [(k, v)]
  | (k', v') :: t => if String.eqb k k' then (k, v) :: t else (k', v') :: dict_set k v t
  end.

(** [d.get(k)] *)
Fixpoint dict_get (k : string) (d : dict) : option pyobj :=
  match d with
  | [] => None
  | (k', v) :: t => if String.eqb k k' then Some v else dict_get k t
  end.

Definition has_key (k : string) (d : dict) : bool :=
  match dict_get k d with Some _ => true | None => false end.

(** [name in names] *)
Definition str_in (name : string) (names : list string) : bool :=
  existsb (String.eqb name) names.

(** An attribute instance: [get_iid()], [get_type().get_label().name()],
    [get_value()]. *)
Record Attr := mk_attr {
  a_iid : string;
  a_label : string;
  a_value : Value
}.

(** A thing handed out by the driver. *)
Inductive Concept :=
| Entity (iid : string) (label : string)
| Relation (iid : string) (label : string)
| Attribute (a : Attr).

Definition is_entity (c : Concept) : bool :=
  match c with Entity _ _ => true | _ => false end.
Definition is_relation (c : Concept) : bool :=
  match c with Relation _ _ => true | _ => false end.
Definition is_attribute (c : Concept) : bool :=
  match c with Attribute _ => true | _ => false end.

(** [c.get_type().get_label().name()] *)
Definition type_name (c : Concept) : string :=
  match c with
  | Entity _ l | Relation _ l => l
  | Attribute a => a_label a
  end.

Definition get_iid (c : Concept) : string :=
  match c with
  | Entity i _ | Relation i _ => i
  | Attribute a => a_iid a
  end.

Definition is_datetime (v : Value) : bool :=
  match v with VDatetime _ => true | _ => false end.
Definition is_string (v : Value) : bool :=
  match v with VString _ => true | _ => false end.

(** The read transaction [r_tx], as far as the decoder queries it.
    [get_players_by_role_type] lists the role labels with their players in
    the order the driver's mapping iterates. *)
Record Transaction := mk_tx {
  get_attribute_type : string -> option string;
  get_has : Concept -> option string -> list Attr;
  get_relations : Concept -> list Concept;
  get_players_by_role_type : Concept -> list (string * list Concept)
}.

(** ** The authorisation table, [authorised_mappings(import_type)] *)

Record EmbeddedRelation := mk_emb { emb_typeql : string; emb_owner : string }.
Record KeyValueRelation := mk_kvt { kvt_typeql : string; kvt_owner : string }.
Record ExtensionRelation := mk_ext {
  ext_relation : string; ext_object : string; ext_owner : string
}.
Record ListOfObjects := mk_lot {
  lot_typeql : string; lot_pointed_to : string; lot_object : string;
  lot_name : string; lot_owner : string
}.

(** [auth["reln_name"]]: the membership sets. *)
Record RelnName := mk_reln_name {
  nm_embedded_relations : list string;
  nm_standard_relations : list string;
  nm_key_value_relations : list string;
  nm_extension_relations : list string;
  nm_list_of_objects : list string
}.

(** [auth["reln"]]: the detail tables. *)
Record Reln := mk_reln {
  embedded_relations : list EmbeddedRelation;
  key_value_relations : list KeyValueRelation;
  extension_relations : list ExtensionRelation;
  list_of_objects : list ListOfObjects
}.

Record Auth := mk_auth {
  auth_reln_name : RelnName;
  auth_reln : Reln;
  auth_sub_objects : dict
}.

(** ** Effects: logging and exceptions *)

Inductive LogRecord :=
(** [logger.error(f'Error, relation name is {reln_name}')] *)
| error_relation_name (reln_name : string)
(** [logger.debug(f'player is not entity type {p}')] *)
| debug_not_entity (p : Concept)
(** [logger.debug(f'Error key is {key}, thing is {thing}')] *)
| debug_error_key (key : string) (thing : Concept).

(** A computation: the log records emitted so far, and the outcome. *)
Definition M (A : Type) : Type := list LogRecord * result A.

Definition ret {A} (a : A) : M A := ([], Ok a).
Definition raise {A} (e : Exn) : M A := ([], Raise e).
Definition log (r : LogRecord) : M unit := ([r], Ok tt).

Definition bind {A B} (m : M A) (f : A -> M B) : M B :=
  match m with
  | (l1, Ok a) => let '(l2, r) := f a in ((l1 ++ l2)%list, r)
  | (l1, Raise e) => (l1, Raise e)
  end.

Declare Scope py_scope.
Delimit Scope py_scope with py.
Notation "x <- m ;; k" := (bind m (fun x => k))
  (at level 61, m at next level, right associativity) : py_scope.
Notation "m ;; k" := (bind m (fun _ => k))
  (at level 61, right associativity) : py_scope.
Local Open Scope py_scope.

(** What a computation ends with, its log set aside. *)
Definition outcome {A} (m : M A) : result A := snd m.

(** A [for] loop that appends at most one item per element. *)
Fixpoint for_append {A B} (body : A -> M (option B)) (l : list A) : M (list B) :=
  match l with
  | [] => ret []
  | a :: t =>
      o <- body a ;;
      rest <- for_append body t ;;
      ret (match o with Some b => b :: rest | None => rest end)
  end.

(** A [for] loop that rebinds a local on matching elements; [None] is the
    local left unbound. *)
Definition last_match {A B} (test : A -> bool) (get : A -> B) (l : list A) : option B :=
  fold_left (fun acc a => if test a then Some (get a) else acc) l None.

(** Reading a local that may be unbound. *)
Definition read_local {A} (name : string) (v : option A) : M A :=
  match v with
  | Some a => ret a
  | None => raise (UnboundLocalError name)
  end.

(** A [for] loop run for its effects only. *)
Fixpoint for_do {A} (body : A -> M unit) (l : list A) : M unit :=
  match l with
  | [] => ret tt
  | a :: t => body a ;; for_do body t
  end.

(** [reln == {} or reln is None] *)
Definition empty_or_none (o : pyobj) : bool :=
  match o with
  | PNone => true
  | PDict [] => true
  | _ => false
  end.

(** ** The decoder *)

Section Decoder.

(** The host's lookup of the local zone's offset at a naive value. *)
Variable local_utcoffset : PyDatetime.datetime -> result Z.

(** The C library's rendering of [%Y]. *)
Variable strftime_Y : Z -> string.

(** [stix.module.authorise.authorised_mappings]. *)
Variable authorised_mappings : string -> Auth.

(** [nt_obj.astimezone(timezone.utc).strftime("%Y-%m-%dT%H:%M:%S.%fZ")] *)
Definition utc_string (nt_obj : PyDatetime.datetime) : M string :=
  match PyDatetime.astimezone_utc local_utcoffset nt_obj with
  | Ok dt_obj => ret (PyDatetime.strftime strftime_Y dt_obj)
  | Raise e => raise e
  end.

(** [process_entity(thing, r_tx, stix_id)]: the reference to an entity. *)
Definition process_entity (thing : Concept) (r_tx : Transaction)
    (stix_id : option string) : pyobj :=
  let play := [("type", PStr "entity"); ("tql", PStr (type_name thing))] in
  let attr_stix_id := get_has r_tx thing stix_id in
  PDict (fold_left (fun play attr => dict_set "stix_id" (PVal (a_value attr)) play)
                   attr_stix_id play).

(** [process_relation(p, r_tx, stix_id)]: the record of a relation that fills a
    role. *)
Definition process_relation (p : Concept) (r_tx : Transaction)
    (stix_id : option string) : pyobj :=
  let plays := [("type", PStr "attribute"); ("tql", PStr (type_name p))] in
  let attr_stix_id := get_has r_tx p stix_id in
  PDict (fold_left (fun plays attr => dict_set "stix_id" (PVal (a_value attr)) plays)
                   attr_stix_id plays).

(** One round of the loop of [process_props]. *)
Definition process_prop (a : Attr) : M pyobj :=
  let prop := [("typeql", PStr (a_label a))] in
  match a_value a with
  | VDatetime nt_obj =>
      value <- utc_string nt_obj ;;
      ret (PDict (dict_set "datetime" PTrue (dict_set "value" (PStr value) prop)))
  | VString temp_string =>
      ret (PDict (dict_set "datetime" PFalse
                    (dict_set "value" (PStr (PyStr.replace PyStr.bs2 PyStr.bs1 temp_string))
                       prop)))
  | v =>
      ret (PDict (dict_set "datetime" PFalse (dict_set "value" (PVal v) prop)))
  end.

(** [process_props(props_obj)] *)
Definition process_props (props_obj : list Attr) : M (list pyobj) :=
  for_append (fun a => prop <- process_prop a ;; ret (Some prop)) props_obj.

(** [process_value(p)] *)
Definition process_value (p : Attr) : M pyobj :=
  match a_value p with
  | VDatetime nt_obj => ret_value <- utc_string nt_obj ;; ret (PStr ret_value)
  | v => ret (PVal v)
  end.

(** [reln_map_entity_attribute(reln_map, r_tx, stix_id, is_kv)] *)
Definition reln_map_entity_attribute (reln_map : list (string * list Concept))
    (r_tx : Transaction) (stix_id : option string) (is_kv : bool) : M (list pyobj) :=
  for_append (fun '(role, player) =>
    players <- for_append (fun p =>
      match p with
      | Entity _ _ => ret (Some (process_entity p r_tx stix_id))
      | Attribute a =>
          value <- process_value a ;;
          let play := [("type", PStr "attribute"); ("tql", PStr (type_name p));
                       ("value", value)] in
          if is_kv
          then
            props <- process_props (get_has r_tx p None) ;;
            ret (Some (PDict (dict_set "props" (PList props) play)))
          else ret (Some (PDict play))
      | Relation _ _ => log (debug_not_entity p) ;; ret None
      end) player ;;
    ret (Some (PDict [("role", PStr role); ("player", PList players)])))
  reln_map.

(** [get_granular_marking(r, r_tx)] *)
Definition get_granular_marking (r : Concept) (r_tx : Transaction) : M (list pyobj) :=
  let stix_id := get_attribute_type r_tx "stix-id" in
  let reln_map := get_players_by_role_type r_tx r in
  reln_map_entity_attribute reln_map r_tx stix_id false.

(** [get_hashes(r, r_tx)] *)
Definition get_hashes (r : Concept) (r_tx : Transaction) : M (list pyobj) :=
  let stix_id := get_attribute_type r_tx "stix-id" in
  let hash_value := get_attribute_type r_tx "hash-value" in
  let reln_map := get_players_by_role_type r_tx r in
  for_append (fun '(role_name, player) =>
    players <- for_append (fun p =>
      if is_entity p
      then
        let play := dict_set "tql" (PStr (type_name p))
                      (dict_set "type" (PStr "entity") []) in
        if String.eqb role_name "owner"
        then
          ret (Some (PDict (fold_left
                 (fun play attr => dict_set "stix_id" (PVal (a_value attr)) play)
                 (get_has r_tx p stix_id) play)))
        else
          ret (Some (PDict (fold_left
                 (fun play attr => dict_set "hash_value" (PVal (a_value attr)) play)
                 (get_has r_tx p hash_value) play)))
      else log (debug_not_entity p) ;; ret None) player ;;
    ret (Some (PDict [("role", PStr role_name); ("player", PList players)])))
  reln_map.

(** [get_key_value_relations(r, r_tx)] *)
Definition get_key_value_relations (r : Concept) (r_tx : Transaction) : M (list pyobj) :=
  let stix_id := get_attribute_type r_tx "stix-id" in
  let reln_map := get_players_by_role_type r_tx r in
  reln_map_entity_attribute reln_map r_tx stix_id true.

(** [reln_map_entity_relation(reln_map, r_tx, stix_id)] *)
Definition reln_map_entity_relation (reln_map : list (string * list Concept))
    (r_tx : Transaction) (stix_id : option string) : M (list pyobj) :=
  for_append (fun '(role, player) =>
    players <- for_append (fun p =>
      if is_entity p then ret (Some (process_entity p r_tx stix_id))
      else if is_relation p then ret (Some (process_relation p r_tx stix_id))
      else log (debug_not_entity p) ;; ret None) player ;;
    ret (Some (PDict [("role", PStr role); ("player", PList players)])))
  reln_map.

(** [get_list_of_objects(r, r_tx, import_type)].  The first loop reads the
    table entry of the relation; of what it binds, only the lookup in
    [auth["sub_objects"]] can have an effect, a [KeyError]. *)
Definition get_list_of_objects (r : Concept) (r_tx : Transaction)
    (import_type : string) : M (list pyobj) :=
  let auth := authorised_mappings import_type in
  let reln_name := type_name r in
  for_do (fun lot =>
    if String.eqb reln_name (lot_typeql lot)
    then
      let reln_object := lot_object lot in
      match dict_get reln_object (auth_sub_objects auth) with
      | Some reln_object_props => ret tt
      | None => raise (KeyError reln_object)
      end
    else ret tt) (list_of_objects (auth_reln auth)) ;;
  let stix_id := get_attribute_type r_tx "stix-id" in
  let reln_map := get_players_by_role_type r_tx r in
  for_append (fun '(role, player) =>
    players <- for_append (fun p =>
      if is_entity p
      then
        has <- process_props (get_has r_tx p None) ;;
        relns <- for_append (fun rel =>
          let reln_map := get_players_by_role_type r_tx rel in
          roles <- reln_map_entity_relation reln_map r_tx stix_id ;;
          ret (Some (PDict (dict_set "roles" (PList roles)
                       (dict_set "T_id" (PStr (get_iid rel))
                          (dict_set "T_name" (PStr (type_name rel)) []))))))
          (get_relations r_tx p) ;;
        ret (Some (PDict (dict_set "relns" (PList relns)
                     (dict_set "has" (PList has)
                        (dict_set "tql" (PStr (type_name p))
                           (dict_set "type" (PStr "entity") []))))))
      else log (debug_not_entity p) ;; ret None) player ;;
    ret (Some (PDict [("role", PStr role); ("player", PList players)])))
  reln_map.

(** [get_embedded_relations(r, r_tx)] *)
Definition get_embedded_relations (r : Concept) (r_tx : Transaction) : M (list pyobj) :=
  let stix_id := get_attribute_type r_tx "stix-id" in
  let reln_map := get_players_by_role_type r_tx r in
  reln_map_entity_relation reln_map r_tx stix_id.

(** [get_standard_relations(r, r_tx)] *)
Definition get_standard_relations (r : Concept) (r_tx : Transaction) : list pyobj := [].

(** The four functions below call each other in a cycle.  Each takes the
    function [get_relation_details] to call as its first argument; the knot
    is tied on the remaining call depth. *)
Definition Details := Concept -> Transaction -> string -> M pyobj.

(** [return_valid_relations(rel, r_tx, obj_name, role_owner, import_type)]: the
    nested loops return at the first entity player of the role [role_owner]
    whose type name is [obj_name]; without one the function returns [None]. *)
Definition return_valid_relations (get_relation_details : Details)
    (rel : Concept) (r_tx : Transaction) (obj_name role_owner import_type : string)
    : M pyobj :=
  let reln_map := get_players_by_role_type r_tx rel in
  if existsb (fun '(role_name, player) =>
       String.eqb role_name role_owner &&
       existsb (fun p => is_entity p && String.eqb (type_name p) obj_name) player)
     reln_map
  then get_relation_details rel r_tx import_type
  else ret PNone.

(** [validate_get_relns(rel, r_tx, obj_name, import_type)] *)
Definition validate_get_relns (get_relation_details : Details)
    (rel : Concept) (r_tx : Transaction) (obj_name import_type : string) : M pyobj :=
  let auth := authorised_mappings import_type in
  let reln_name := type_name rel in
  if str_in reln_name (nm_embedded_relations (auth_reln_name auth)) then
    role_owner <- read_local "role_owner"
      (last_match (fun emb => String.eqb (emb_typeql emb) reln_name) emb_owner
         (embedded_relations (auth_reln auth))) ;;
    return_valid_relations get_relation_details rel r_tx obj_name role_owner import_type
  else if str_in reln_name (nm_key_value_relations (auth_reln_name auth)) then
    role_owner <- read_local "role_owner"
      (last_match (fun kvt => String.eqb (kvt_typeql kvt) reln_name) kvt_owner
         (key_value_relations (auth_reln auth))) ;;
    return_valid_relations get_relation_details rel r_tx obj_name role_owner import_type
  else if str_in reln_name (nm_extension_relations (auth_reln_name auth)) then
    role_owner <- read_local "role_owner"
      (last_match (fun kvt => String.eqb (ext_relation kvt) reln_name) ext_owner
         (extension_relations (auth_reln auth))) ;;
    return_valid_relations get_relation_details rel r_tx obj_name role_owner import_type
  else if str_in reln_name (nm_list_of_objects (auth_reln_name auth)) then
    role_owner <- read_local "role_owner"
      (last_match (fun kvt => String.eqb (lot_typeql kvt) reln_name) lot_owner
         (list_of_objects (auth_reln auth))) ;;
    return_valid_relations get_relation_details rel r_tx obj_name role_owner import_type
  else if String.eqb reln_name "granular-marking" then
    get_relation_details rel r_tx import_type
  else if String.eqb reln_name "hashes" then
    get_relation_details rel r_tx import_type
  else
    log (error_relation_name reln_name) ;; ret PNone.

(** [get_extension_relations(r, r_tx, import_type)] *)
Definition get_extension_relations (get_relation_details : Details)
    (r : Concept) (r_tx : Transaction) (import_type : string) : M (list pyobj) :=
  let auth := authorised_mappings import_type in
  let reln_name := type_name r in
  let reln_object :=
    last_match (fun ext => String.eqb (ext_relation ext) reln_name) ext_object
      (extension_relations (auth_reln auth)) in
  let stix_id := get_attribute_type r_tx "stix-id" in
  let reln_map := get_players_by_role_type r_tx r in
  for_append (fun '(role, player) =>
    players <- for_append (fun p =>
      match p with
      | Entity _ _ =>
          let p_name := type_name p in
          let play := dict_set "tql" (PStr p_name) (dict_set "type" (PStr "entity") []) in
          reln_object <- read_local "reln_object" reln_object ;;
          if String.eqb p_name reln_object
          then
            has <- process_props (get_has r_tx p None) ;;
            relns <- for_append (fun rel =>
              reln <- validate_get_relns get_relation_details rel r_tx reln_object
                        import_type ;;
              ret (if empty_or_none reln then None else Some reln))
              (get_relations r_tx p) ;;
            ret (Some (PDict (dict_set "relns" (PList relns)
                         (dict_set "has" (PList has) play))))
          else
            ret (Some (PDict (fold_left
                   (fun play attr => dict_set "stix_id" (PVal (a_value attr)) play)
                   (get_has r_tx p stix_id) play)))
      | Attribute a =>
          value <- process_value a ;;
          ret (Some (PDict (dict_set "value" value
                       (dict_set "tql" (PStr (type_name p))
                          (dict_set "type" (PStr "attribute") [])))))
      | Relation _ _ => log (debug_not_entity p) ;; ret None
      end) player ;;
    ret (Some (PDict [("role", PStr role); ("player", PList players)])))
  reln_map.

(** The body of [get_relation_details], with its nested calls to itself
    going through [self]. *)
Definition get_relation_details_body (self : Details)
    (r : Concept) (r_tx : Transaction) (import_type : string) : M pyobj :=
  let auth := authorised_mappings import_type in
  let reln_name := type_name r in
  let reln := dict_set "T_id" (PStr (get_iid r)) (dict_set "T_name" (PStr reln_name) []) in
  if str_in reln_name (nm_embedded_relations (auth_reln_name auth)) then
    roles <- get_embedded_relations r r_tx ;;
    ret (PDict (dict_set "roles" (PList roles) reln))
  else if str_in reln_name (nm_standard_relations (auth_reln_name auth))
          || String.eqb reln_name "sighting" then
    ret (PDict (dict_set "roles" (PList (get_standard_relations r r_tx)) reln))
  else if str_in reln_name (nm_key_value_relations (auth_reln_name auth)) then
    roles <- get_key_value_relations r r_tx ;;
    ret (PDict (dict_set "roles" (PList roles) reln))
  else if str_in reln_name (nm_extension_relations (auth_reln_name auth)) then
    roles <- get_extension_relations self r r_tx import_type ;;
    ret (PDict (dict_set "roles" (PList roles) reln))
  else if str_in reln_name (nm_list_of_objects (auth_reln_name auth)) then
    roles <- get_list_of_objects r r_tx import_type ;;
    ret (PDict (dict_set "roles" (PList roles) reln))
  else if String.eqb reln_name "granular-marking" then
    roles <- get_granular_marking r r_tx ;;
    ret (PDict (dict_set "roles" (PList roles) reln))
  else if String.eqb reln_name "hashes" || String.eqb reln_name "file_header_hashes" then
    roles <- get_hashes r r_tx ;;
    ret (PDict (dict_set "roles" (PList roles) reln))
  else
    log (error_relation_name reln_name) ;; ret (PDict reln).

(** [depth] is the call depth still available before the interpreter's
    recursion limit, where Python raises [RecursionError]. *)
Fixpoint get_relation_details (depth : nat) (r : Concept) (r_tx : Transaction)
    (import_type : string) : M pyobj :=
  match depth with
  | O => raise RecursionError
  | S d => get_relation_details_body (get_relation_details d) r r_tx import_type
  end.

(** [process_relns(reln_types, r_tx, import_type)] *)
Definition process_relns (depth : nat) (reln_types : list Concept) (r_tx : Transaction)
    (import_type : string) : M (list pyobj) :=
  for_append (fun r => reln <- get_relation_details depth r r_tx import_type ;;
                       ret (Some reln)) reln_types.

(** [convert_ans_to_res(answer_iterator, r_tx, import_type)]; an answer is
    the list of bindings of [answer.map()]. *)
Definition convert_ans_to_res (depth : nat)
    (answer_iterator : list (list (string * Concept))) (r_tx : Transaction)
    (import_type : string) : M (list pyobj) :=
  res <- for_append (fun dict_answer =>
    found <- for_append (fun '(key, thing) =>
      if is_entity thing then
        let ent := [("type", PStr "entity"); ("symbol", PStr key);
                    ("T_id", PStr (get_iid thing)); ("T_name", PStr (type_name thing))] in
        has <- process_props (get_has r_tx thing None) ;;
        relns <- process_relns depth (get_relations r_tx thing) r_tx import_type ;;
        ret (Some (PDict (dict_set "relns" (PList relns) (dict_set "has" (PList has) ent))))
      else if is_relation thing then
        let rel := [("type", PStr "relationship"); ("symbol", PStr key);
                    ("T_id", PStr (get_iid thing)); ("T_name", PStr (type_name thing))] in
        has <- process_props (get_has r_tx thing None) ;;
        relns <- process_relns depth (get_relations r_tx thing) r_tx import_type ;;
        let stix_id := get_attribute_type r_tx "stix-id" in
        let edges :=
          map (fun '(role, things) =>
                 PDict [("role", PStr role);
                        ("player", PList (map (fun thing => process_entity thing r_tx stix_id)
                                            (filter is_entity things)))])
              (get_players_by_role_type r_tx thing) in
        ret (Some (PDict (dict_set "edges" (PList edges)
                     (dict_set "relns" (PList relns) (dict_set "has" (PList has) rel)))))
      else
        log (debug_error_key key thing) ;; ret None) dict_answer ;;
    ret (Some found))
    answer_iterator ;;
  ret (List.concat res).

End Decoder.

(** ** Reading the decoder's output *)

(** The items a loop appended, from what each round produced. *)
Definition somes {B} (os : list (option B)) : list B :=
  flat_map (fun o => match o with Some b => [b] | None => [] end) os.

(** The last element of a list, if any. *)
Definition last_error {A} (l : list A) : option A :=
  match rev l with
  | [] => None
  | a :: _ => Some a
  end.

(** The external identifier of [p]: the value of the last [stix-id]
    attribute the transaction lists for it, if any. *)
Definition external_id (r_tx : Transaction) (p : Concept) : option pyobj :=
  option_map (fun a => PVal (a_value a))
    (last_error (get_has r_tx p (get_attribute_type r_tx "stix-id"))).

(** A reference to an entity: its kind, its declared type name, and its
    external identifier when it has one; nothing else. *)
Definition entity_reference (r_tx : Transaction) (p : Concept) (o : pyobj) : Prop :=
  exists d, o = PDict d /\
    dict_get "type" d = Some (PStr "entity") /\
    dict_get "tql" d = Some (PStr (type_name p)) /\
    dict_get "stix_id" d = external_id r_tx p /\
    forall k, k <> "type" -> k <> "tql" -> k <> "stix_id" -> dict_get k d = None.

(** The record of a relation that fills a role of an embedded relation: its
    declared type name, and its external identifier when it has one.  It has
    no entry besides these and a kind tag: no roles, no internal id. *)
Definition relation_stub (r_tx : Transaction) (p : Concept) (o : pyobj) : Prop :=
  exists d, o = PDict d /\
    dict_get "tql" d = Some (PStr (type_name p)) /\
    dict_get "stix_id" d = external_id r_tx p /\
    forall k, k <> "type" -> k <> "tql" -> k <> "stix_id" -> dict_get k d = None.

(** [o] is the binding of the role [fst rp]: it lists, in order, one record
    for each of the role's players that [kept] selects, each as [player_spec]
    describes it. *)
Definition role_binding (player_spec : string -> Concept -> pyobj -> Prop)
    (kept : Concept -> bool) (rp : string * list Concept) (o : pyobj) : Prop :=
  exists players,
    o = PDict [("role", PStr (fst rp)); ("player", PList players)] /\
    Forall2 (player_spec (fst rp)) (filter kept (snd rp)) players.

(** ** Category resolution *)

Inductive Category :=
| embedded | standard | key_value | extension | list_of_objects_category
| granular_marking | hashes.

(** The category the [if]/[elif] chain of [get_relation_details] selects for
    a relation type name: the first test that succeeds. *)
Definition resolve (auth : Auth) (reln_name : string) : option Category :=
  if str_in reln_name (nm_embedded_relations (auth_reln_name auth)) then Some embedded
  else if str_in reln_name (nm_standard_relations (auth_reln_name auth))
          || String.eqb reln_name "sighting" then Some standard
  else if str_in reln_name (nm_key_value_relations (auth_reln_name auth)) then Some key_value
  else if str_in reln_name (nm_extension_relations (auth_reln_name auth)) then Some extension
  else if str_in reln_name (nm_list_of_objects (auth_reln_name auth))
       then Some list_of_objects_category
  else if String.eqb reln_name "granular-marking" then Some granular_marking
  else if String.eqb reln_name "hashes" || String.eqb reln_name "file_header_hashes"
       then Some hashes
  else None.

(** The value of the last attribute of the hash-value type, if any. *)
Definition hash_value_of (r_tx : Transaction) (p : Concept) : option pyobj :=
  option_map (fun a => PVal (a_value a))
    (last_error (get_has r_tx p (get_attribute_type r_tx "hash-value"))).

(** The record of an entity that fills a role of a hashes relation. *)
Definition hash_player (r_tx : Transaction) (role : string) (p : Concept) (o : pyobj)
    : Prop :=
  exists d, o = PDict d /\
    dict_get "type" d = Some (PStr "entity") /\
    dict_get "tql" d = Some (PStr (type_name p)) /\
    (if String.eqb role "owner"
     then dict_get "stix_id" d = external_id r_tx p /\ dict_get "hash_value" d = None
     else dict_get "hash_value" d = hash_value_of r_tx p /\ dict_get "stix_id" d = None).

(** The record a relation starts from, and the record with its roles. *)
Definition with_roles (r : Concept) (roles : list pyobj) : pyobj :=
  PDict [("T_name", PStr (type_name r)); ("T_id", PStr (get_iid r));
         ("roles", PList roles)].

(** ** Side conditions of the traversal *)

(** A value the property decoder can render: a datetime it holds can be
    moved to UTC, that is, the host resolves the zone of a naive value and
    the result stays within the years 1 to 9999. *)
Definition representable (local_utcoffset : PyDatetime.datetime -> result Z)
    (v : Value) : bool :=
  match v with
  | VDatetime dt =>
      match PyDatetime.astimezone_utc local_utcoffset dt with
      | Ok _ => true
      | Raise _ => false
      end
  | _ => true
  end.

(** Every attribute the transaction hands out is representable. *)
Definition values_representable (local_utcoffset : PyDatetime.datetime -> result Z)
    (r_tx : Transaction) : Prop :=
  (forall c filter a,
     In a (get_has r_tx c filter) -> representable local_utcoffset (a_value a) = true) /\
  (forall r role player a,
     In (role, player) (get_players_by_role_type r_tx r) ->
     In (Attribute a) player -> representable local_utcoffset (a_value a) = true).

(** Every name in a membership set has an entry in that category's detail
    table, and every list-of-objects entry names a known sub-object. *)
Definition tables_consistent (auth : Auth) : bool :=
  forallb (fun n => existsb (fun e => String.eqb (emb_typeql e) n)
                      (embedded_relations (auth_reln auth)))
          (nm_embedded_relations (auth_reln_name auth)) &&
  forallb (fun n => existsb (fun e => String.eqb (kvt_typeql e) n)
                      (key_value_relations (auth_reln auth)))
          (nm_key_value_relations (auth_reln_name auth)) &&
  forallb (fun n => existsb (fun e => String.eqb (ext_relation e) n)
                      (extension_relations (auth_reln auth)))
          (nm_extension_relations (auth_reln_name auth)) &&
  forallb (fun n => existsb (fun e => String.eqb (lot_typeql e) n)
                      (list_of_objects (auth_reln auth)))
          (nm_list_of_objects (auth_reln_name auth)) &&
  forallb (fun e => has_key (lot_object e) (auth_sub_objects auth))
          (list_of_objects (auth_reln auth)).

(** The local [reln_object] of [get_extension_relations]: the sub-object
    type the extension table configures for a relation type name. *)
Definition ext_object_of (auth : Auth) (reln_name : string) : option string :=
  last_match (fun ext => String.eqb (ext_relation ext) reln_name) ext_object
    (extension_relations (auth_reln auth)).

(** The local [role_owner] of [validate_get_relns], for the branch its
    chain takes; [None] in the branches that do not look one up. *)
Definition owner_role_of (auth : Auth) (reln_name : string) : option string :=
  if str_in reln_name (nm_embedded_relations (auth_reln_name auth)) then
    last_match (fun emb => String.eqb (emb_typeql emb) reln_name) emb_owner
      (embedded_relations (auth_reln auth))
  else if str_in reln_name (nm_key_value_relations (auth_reln_name auth)) then
    last_match (fun kvt => String.eqb (kvt_typeql kvt) reln_name) kvt_owner
      (key_value_relations (auth_reln auth))
  else if str_in reln_name (nm_extension_relations (auth_reln_name auth)) then
    last_match (fun kvt => String.eqb (ext_relation kvt) reln_name) ext_owner
      (extension_relations (auth_reln auth))
  else if str_in reln_name (nm_list_of_objects (auth_reln_name auth)) then
    last_match (fun kvt => String.eqb (lot_typeql kvt) reln_name) lot_owner
      (list_of_objects (auth_reln auth))
  else None.

(** Some player of the role [role_owner] of [rel] is an entity of type
    [obj_name]: the test of [return_valid_relations]. *)
Definition owner_matches (r_tx : Transaction) (rel : Concept)
    (obj_name role_owner : string) : bool :=
  existsb (fun '(role_name, player) =>
       String.eqb role_name role_owner &&
       existsb (fun p => is_entity p && String.eqb (type_name p) obj_name) player)
    (get_players_by_role_type r_tx rel).

(** Whether the four filtered branches of [validate_get_relns] apply. *)
Definition owner_filtered (auth : Auth) (reln_name : string) : bool :=
  str_in reln_name (nm_embedded_relations (auth_reln_name auth)) ||
  str_in reln_name (nm_key_value_relations (auth_reln_name auth)) ||
  str_in reln_name (nm_extension_relations (auth_reln_name auth)) ||
  str_in reln_name (nm_list_of_objects (auth_reln_name auth)).

(** Whether [validate_get_relns] goes on to unpack [rel] for the sub-object
    type [obj_name]. *)
Definition admitted (auth : Auth) (r_tx : Transaction) (rel : Concept)
    (obj_name : string) : bool :=
  if owner_filtered auth (type_name rel) then
    match owner_role_of auth (type_name rel) with
    | Some role_owner => owner_matches r_tx rel obj_name role_owner
    | None => false
    end
  else String.eqb (type_name rel) "granular-marking"
       || String.eqb (type_name rel) "hashes".

(** [get_relation_details] on [r] calls itself on [rel]: [r] is an
    extension relation, and [rel] is a relation of one of its players of the
    configured sub-object type that the validation admits. *)
Definition calls (auth : Auth) (r_tx : Transaction) (r rel : Concept) : Prop :=
  resolve auth (type_name r) = Some extension /\
  exists obj role player p,
    ext_object_of auth (type_name r) = Some obj /\
    In (role, player) (get_players_by_role_type r_tx r) /\
    In p player /\ is_entity p = true /\ type_name p = obj /\
    In rel (get_relations r_tx p) /\
    admitted auth r_tx rel obj = true.

(** The record of a player of an extension relation whose configured
    sub-object type is [obj]; [validate] is the validation of one nested
    relation. *)
Definition extension_player (local_utcoffset : PyDatetime.datetime -> result Z)
    (strftime_Y : Z -> string) (r_tx : Transaction)
    (validate : Concept -> M pyobj) (obj : string)
    (role : string) (p : Concept) (o : pyobj) : Prop :=
  match p with
  | Entity _ _ =>
      if String.eqb (type_name p) obj
      then
        exists has validated,
          outcome (process_props local_utcoffset strftime_Y (get_has r_tx p None)) = Ok has /\
          Forall2 (fun rel v => outcome (validate rel) = Ok v)
                  (get_relations r_tx p) validated /\
          o = PDict [("type", PStr "entity"); ("tql", PStr (type_name p));
                     ("has", PList has);
                     ("relns", PList (filter (fun v => negb (empty_or_none v)) validated))]
      else entity_reference r_tx p o
  | Attribute a =>
      exists value,
        outcome (process_value local_utcoffset strftime_Y a) = Ok value /\
        o = PDict [("type", PStr "attribute"); ("tql", PStr (a_label a));
                   ("value", value)]
  | Relation _ _ => False
  end.

(** ** A sample store *)

Module Sample.

(** glibc renders [%Y] without padding. *)
Definition strftime_Y : Z -> string := PyStr.decimal.

(** A host whose local zone is UTC.  The zone lookup probes [localtime] one
    day before the value, so it fails on 0001-01-01. *)
Definition local_utcoffset (dt : PyDatetime.datetime) : result Z :=
  if PyDatetime.ymd2ord (PyDatetime.year dt) (PyDatetime.month dt) (PyDatetime.day dt) <=? 1
  then Raise ValueError
  else Ok 0.

Definition stix21 : Auth :=
  mk_auth
    (mk_reln_name ["created-by"; "obj-ref"] ["uses"] ["additional-header"]
                  ["pe-binary-ext"] ["alt-data-stream"])
    (mk_reln [mk_emb "created-by" "created"; mk_emb "obj-ref" "object"]
             [mk_kvt "additional-header" "email"]
             [mk_ext "pe-binary-ext" "windows-pebinary-ext" "file"]
             [mk_lot "alt-data-stream" "alt-stream" "alternate-data-stream"
                     "alternate_data_streams" "ntfs-ext"])
    [("alternate-data-stream", PDict [])].

Definition authorised_mappings (import_type : string) : Auth := stix21.

(** The extension set names [pe-binary-ext]; the extension table is empty. *)
Definition stix21_no_entry : Auth :=
  mk_auth (auth_reln_name stix21)
          (mk_reln (embedded_relations (auth_reln stix21))
                   (key_value_relations (auth_reln stix21))
                   []
                   (list_of_objects (auth_reln stix21)))
          (auth_sub_objects stix21).

Definition file1 : Concept := Entity "0xf1" "file".
Definition pe1 : Concept := Entity "0xe1" "windows-pebinary-ext".
Definition sha1 : Concept := Entity "0xh1" "sha-256".
Definition ntfs1 : Concept := Entity "0xn1" "ntfs-ext".
Definition ads1 : Concept := Entity "0xa1" "alternate-data-stream".
Definition report1 : Concept := Entity "0xp1" "report".

Definition ext1 : Concept := Relation "0xr1" "pe-binary-ext".
Definition fhh1 : Concept := Relation "0xr2" "file_header_hashes".
Definition hs1 : Concept := Relation "0xr3" "hashes".
Definition lo1 : Concept := Relation "0xr4" "alt-data-stream".
Definition ref1 : Concept := Relation "0xr5" "obj-ref".
Definition uses1 : Concept := Relation "0xr6" "uses".
Definition odd1 : Concept := Relation "0xr7" "mystery".

(** 2023-01-01T00:00:00+02:00 *)
Definition new_year : PyDatetime.datetime :=
  PyDatetime.mk_datetime 2023 1 1 0 0 0 0 (Some (7200 * PyDatetime.US_PER_SECOND)).

(** 0001-01-01T00:00:00+02:00 *)
Definition first_day : PyDatetime.datetime :=
  PyDatetime.mk_datetime 1 1 1 0 0 0 0 (Some (7200 * PyDatetime.US_PER_SECOND)).

(** 0001-01-01T00:00:00, naive *)
Definition naive_first_day : PyDatetime.datetime :=
  PyDatetime.mk_datetime 1 1 1 0 0 0 0 None.

(** The string [a\\b], with two backslashes. *)
Definition a_bs_bs_b : string := "a" ++ PyStr.bs2 ++ "b".

Definition has_of (iid : string) : list Attr :=
  if String.eqb iid "0xf1" then
    [mk_attr "0xa01" "stix-id" (VString "file--1");
     mk_attr "0xa02" "name" (VString a_bs_bs_b);
     mk_attr "0xa03" "created" (VDatetime new_year)]
  else if String.eqb iid "0xe1" then
    [mk_attr "0xa04" "imphash" (VString "abc")]
  else if String.eqb iid "0xh1" then
    [mk_attr "0xa05" "hash-value" (VString "e3b0")]
  else if String.eqb iid "0xr6" then
    [mk_attr "0xa06" "stix-id" (VString "relationship--1")]
  else if String.eqb iid "0xa1" then
    [mk_attr "0xa07" "name" (VString "stream")]
  else [].

Definition relations_of (iid : string) : list Concept :=
  if String.eqb iid "0xf1" then [ext1; uses1]
  else if String.eqb iid "0xe1" then [ext1; fhh1; hs1]
  else if String.eqb iid "0xa1" then [lo1]
  else [].

Definition players_of (iid : string) : list (string * list Concept) :=
  if String.eqb iid "0xr1" then [("file", [file1]); ("pebinary", [pe1])]
  else if String.eqb iid "0xr2" then [("owner", [pe1]); ("pointed-to", [sha1])]
  else if String.eqb iid "0xr3" then [("owner", [pe1]); ("pointed-to", [sha1])]
  else if String.eqb iid "0xr4" then [("ntfs-ext", [ntfs1]); ("alt-stream", [ads1])]
  else if String.eqb iid "0xr5" then [("object", [report1]); ("referred", [uses1])]
  else if String.eqb iid "0xr6" then [("source", [file1])]
  else [].

Definition r_tx : Transaction :=
  mk_tx (fun name => Some name)
        (fun c attribute_type =>
           match attribute_type with
           | None => has_of (get_iid c)
           | Some t => filter (fun a => String.eqb (a_label a) t) (has_of (get_iid c))
           end)
        (fun c => relations_of (get_iid c))
        (fun c => players_of (get_iid c)).

(** A store whose only attribute is the creation time [first_day] of the
    entity [old1]. *)
Definition old1 : Concept := Entity "0xo1" "file".

Definition r_tx_first_day : Transaction :=
  mk_tx (fun name => Some name)
        (fun c attribute_type =>
           if String.eqb (get_iid c) "0xo1"
           then [mk_attr "0xa08" "created" (VDatetime first_day)]
           else [])
        (fun c => [])
        (fun c => []).

(** The nesting rank of the sample: extension relations above the rest. *)
Definition rank (c : Concept) : nat :=
  if String.eqb (type_name c) "pe-binary-ext" then 1%nat else 0%nat.

(** An answer that binds an entity, a relation and an attribute. *)
Definition sample_answers : list (list (string * Concept)) :=
  [[("x", file1); ("r", ext1);
    ("a", Attribute (mk_attr "0xa02" "name" (VString "n")))]].

(** The reference to [file1]. *)
Definition file1_reference : pyobj :=
  PDict [("type", PStr "entity"); ("tql", PStr "file"); ("stix_id", PStr "file--1")].

(** The record of [hs1], a hashes relation. *)
Definition hs1_record : pyobj :=
  PDict [("T_name", PStr "hashes"); ("T_id", PStr "0xr3");
         ("roles", PList
            [PDict [("role", PStr "owner");
                    ("player", PList
                       [PDict [("type", PStr "entity");
                               ("tql", PStr "windows-pebinary-ext")]])];
             PDict [("role", PStr "pointed-to");
                    ("player", PList
                       [PDict [("type", PStr "entity"); ("tql", PStr "sha-256");
                               ("hash_value", PStr "e3b0")]])]])].

(** The expanded record of [pe1]. *)
Definition pe1_record : pyobj :=
  PDict [("type", PStr "entity"); ("tql", PStr "windows-pebinary-ext");
         ("has", PList [PDict [("typeql", PStr "imphash"); ("value", PStr "abc");
                               ("datetime", PFalse)]]);
         ("relns", PList [hs1_record])].

(** The record [get_list_of_objects] nests under [ads1] for [lo1] itself. *)
Definition lo1_nested : pyobj :=
  PDict [("T_name", PStr "alt-data-stream"); ("T_id", PStr "0xr4");
         ("roles", PList
            [PDict [("role", PStr "ntfs-ext");
                    ("player", PList
                       [PDict [("type", PStr "entity"); ("tql", PStr "ntfs-ext")]])];
             PDict [("role", PStr "alt-stream");
                    ("player", PList
                       [PDict [("type", PStr "entity");
                               ("tql", PStr "alternate-data-stream")]])]])].

End Sample.

(** ** What the property decoder and the entity reference hold *)

(** The record [process_props] builds for the attribute [a]. *)
Definition prop_record (local_utcoffset : PyDatetime.datetime -> result Z)
    (strftime_Y : Z -> string) (a : Attr) (o : pyobj) : Prop :=
  exists value,
    o = PDict [("typeql", PStr (a_label a)); ("value", value);
               ("datetime", PVal (VBool (is_datetime (a_value a))))] /\
    match a_value a with
    | VDatetime dt =>
        exists u, PyDatetime.astimezone_utc local_utcoffset dt = Ok u /\
                  value = PStr (PyDatetime.strftime strftime_Y u)
    | VString s => value = PStr (PyStr.decode s)
    | v => value = PVal v
    end.

(** The record of an attribute that fills a role of a key-value relation
    ([is_kv] true: its own attributes are attached as [props]) or of a
    granular marking ([is_kv] false: no [props]); the record of an entity is
    a reference. *)
Definition entity_or_attribute_player (local_utcoffset : PyDatetime.datetime -> result Z)
    (strftime_Y : Z -> string) (r_tx : Transaction)
    (is_kv : bool) (role : string) (p : Concept) (o : pyobj) : Prop :=
  match p with
  | Entity _ _ => entity_reference r_tx p o
  | Attribute a =>
      exists value,
        outcome (process_value local_utcoffset strftime_Y a) = Ok value /\
        if is_kv
        then exists props,
               outcome (process_props local_utcoffset strftime_Y (get_has r_tx p None)) =
                   Ok props /\
               o = PDict [("type", PStr "attribute"); ("tql", PStr (a_label a));
                          ("value", value); ("props", PList props)]
        else o = PDict [("type", PStr "attribute"); ("tql", PStr (a_label a));
                        ("value", value)]
  | Relation _ _ => False
  end.

(** The debug records a handler writes for the players it leaves out. *)
Definition left_out (skipped : Concept -> bool) (reln_map : list (string * list Concept))
    : list LogRecord :=
  flat_map (fun rp => map debug_not_entity (filter skipped (snd rp))) reln_map.

(** ** A second sample store: key-value pairs, markings and odd players *)

Module Sample2.
Import Sample.

Definition email1 : Concept := Entity "0xm1" "email-message".
Definition header_key : Attr := mk_attr "0xa10" "header-key" (VString "X-Mailer").
Definition selector : Attr := mk_attr "0xa12" "selectors" (VString "name").

Definition kv1 : Concept := Relation "0xr8" "additional-header".
Definition gm1 : Concept := Relation "0xr9" "granular-marking".
Definition cb1 : Concept := Relation "0xr10" "created-by".

Definition has_of2 (iid : string) : list Attr :=
  if String.eqb iid "0xa10" then [mk_attr "0xa11" "header-value" (VString "mutt")]
  else if String.eqb iid "0xm1" then [mk_attr "0xa13" "stix-id" (VString "email-message--1")]
  else has_of iid.

Definition players_of2 (iid : string) : list (string * list Concept) :=
  if String.eqb iid "0xr8" then [("email", [email1]); ("header", [Attribute header_key; uses1])]
  else if String.eqb iid "0xr9" then [("marked", [file1]); ("selector", [Attribute selector])]
  else if String.eqb iid "0xr10" then [("created", [file1; Attribute selector]);
                                       ("creator", [uses1; Attribute header_key])]
  else players_of iid.

Definition r_tx2 : Transaction :=
  mk_tx (fun name => Some name)
        (fun c attribute_type =>
           match attribute_type with
           | None => has_of2 (get_iid c)
           | Some t => filter (fun a => String.eqb (a_label a) t) (has_of2 (get_iid c))
           end)
        (fun c => relations_of (get_iid c))
        (fun c => players_of2 (get_iid c)).

(** The table of [stix21] without its sub-object descriptions. *)
Definition stix21_no_sub_objects : Auth :=
  mk_auth (auth_reln_name stix21) (auth_reln stix21) [].

(** 2023-06-15T12:30:05.000250, naive, on the host of the sample *)
Definition utc_noon : PyDatetime.datetime :=
  PyDatetime.mk_datetime 2023 6 15 12 30 5 250 None.

Definition modified1 : Attr := mk_attr "0xa14" "modified" (VDatetime utc_noon).

End Sample2.

(** ** What the top-level records hold *)

(** The record of the relation [r] in a list of relations: its type name
    and internal id, and a role list unless its category is unknown. *)
Definition relation_record (auth : Auth) (r : Concept) (v : pyobj) : Prop :=
  exists d, v = PDict d /\
    dict_get "T_name" d = Some (PStr (type_name r)) /\
    dict_get "T_id" d = Some (PStr (get_iid r)) /\
    (dict_get "roles" d = None <-> resolve auth (type_name r) = None).

(** The record of one binding of an answer, an entity or a relation. *)
Definition answer_record (local_utcoffset : PyDatetime.datetime -> result Z)
    (strftime_Y : Z -> string) (authorised_mappings : string -> Auth)
    (depth : nat) (r_tx : Transaction) (import_type : string)
    (binding : string * Concept) (o : pyobj) : Prop :=
  let key := fst binding in
  let thing := snd binding in
  exists has relns,
    outcome (process_props local_utcoffset strftime_Y (get_has r_tx thing None)) = Ok has /\
    Forall2 (relation_record (authorised_mappings import_type))
            (get_relations r_tx thing) relns /\
    if is_entity thing
    then o = PDict [("type", PStr "entity"); ("symbol", PStr key);
                    ("T_id", PStr (get_iid thing)); ("T_name", PStr (type_name thing));
                    ("has", PList has); ("relns", PList relns)]
    else exists edges,
           Forall2 (role_binding (fun _ => entity_reference r_tx) is_entity)
                   (get_players_by_role_type r_tx thing) edges /\
           o = PDict [("type", PStr "relationship"); ("symbol", PStr key);
                      ("T_id", PStr (get_iid thing)); ("T_name", PStr (type_name thing));
                      ("has", PList has); ("relns", PList relns);
                      ("edges", PList edges)].

(** The bindings of an answer that get a record. *)
Definition decoded_binding (binding : string * Concept) : bool :=
  is_entity (snd binding) || is_relation (snd binding).

(** The record of a binding carries the binding's variable name and the
    internal id and type name of the element bound. *)
Definition binding_record (binding : string * Concept) (o : pyobj) : Prop :=
  exists d, o = PDict d /\
    dict_get "symbol" d = Some (PStr (fst binding)) /\
    dict_get "T_id" d = Some (PStr (get_iid (snd binding))) /\
    dict_get "T_name" d = Some (PStr (type_name (snd binding))).

(** ** Independence of the call depth *)

(** [m2] ends as [m1] does, log included, unless [m1] ran out of call
    depth. *)
Definition agrees {A} (m1 m2 : M A) : Prop :=
  outcome m1 <> Raise RecursionError -> m2 = m1.

(** * Properties *)

(** ** String decoding *)

Module PyStrFacts.
Import PyStr.

Lemma decode_nil : decode EmptyString = EmptyString.
Proof. reflexivity. Qed.

Lemma decode_other c t :
  Ascii.eqb c backslash = false -> decode (String c t) = String c (decode t).
Proof.
  intros H. unfold decode, replace. cbn [replace_from].
  replace (String.prefix bs2 (String c t)) with false; [reflexivity|].
  unfold bs2. cbn [String.prefix].
  destruct (ascii_dec backslash c) as [E|E]; [|reflexivity].
  subst c. rewrite Ascii.eqb_refl in H. discriminate.
Qed.

Lemma decode_pair t :
  decode (String backslash (String backslash t)) = String backslash (decode t).
Proof.
  unfold decode, replace. cbn [replace_from].
  replace (String.prefix bs2 (String backslash (String backslash t))) with true.
  - reflexivity.
  - unfold bs2, bs1. cbn [String.prefix].
    destruct (ascii_dec backslash backslash) as [_|N]; [|now elim N].
    destruct t; reflexivity.
Qed.

Lemma decode_single c t :
  Ascii.eqb c backslash = false ->
  decode (String backslash (String c t)) = String backslash (String c (decode t)).
Proof.
  intros H. unfold decode, replace. cbn [replace_from].
  replace (String.prefix bs2 (String backslash (String c t))) with false.
  - replace (String.prefix bs2 (String c t)) with false; [reflexivity|].
    unfold bs2. cbn [String.prefix].
    destruct (ascii_dec backslash c) as [E|E]; [|reflexivity].
    subst c. rewrite Ascii.eqb_refl in H. discriminate.
  - unfold bs2, bs1. cbn [String.prefix].
    destruct (ascii_dec backslash backslash) as [_|N]; [|now elim N].
    destruct (ascii_dec backslash c) as [E|E]; [|reflexivity].
    subst c. rewrite Ascii.eqb_refl in H. discriminate.
Qed.

Lemma decode_last : decode bs1 = bs1.
Proof. reflexivity. Qed.

Lemma shape_of s : shape s.
Proof.
  destruct s as [|c t]; [constructor|].
  destruct (Ascii.eqb c backslash) eqn:E.
  - apply Ascii.eqb_eq in E. subst c.
    destruct t as [|c' t']; [apply shape_last|].
    destruct (Ascii.eqb c' backslash) eqn:E'.
    + apply Ascii.eqb_eq in E'. subst c'. apply shape_pair.
    + now apply shape_single.
  - now apply shape_other.
Qed.

(** Induction that follows the scan: one or two characters at a time. *)
Lemma scan_ind (P : string -> Prop) :
  P EmptyString ->
  (forall c t, Ascii.eqb c backslash = false -> P t -> P (String c t)) ->
  P bs1 ->
  (forall t, P t -> P (String backslash (String backslash t))) ->
  (forall c t, Ascii.eqb c backslash = false -> P t ->
     P (String backslash (String c t))) ->
  forall s, P s.
Proof.
  intros Hnil Hother Hlast Hpair Hsingle s.
  assert (H : P s /\ forall c, P (String c s)).
  { induction s as [|c' t [IH1 IH2]].
    - split; [exact Hnil|]. intros c.
      destruct (Ascii.eqb c backslash) eqn:E.
      + apply Ascii.eqb_eq in E. subst c. exact Hlast.
      + now apply Hother.
    - split; [apply IH2|]. intros c.
      destruct (Ascii.eqb c backslash) eqn:E.
      + apply Ascii.eqb_eq in E. subst c.
        destruct (Ascii.eqb c' backslash) eqn:E'.
        * apply Ascii.eqb_eq in E'. subst c'. now apply Hpair.
        * now apply Hsingle.
      + apply Hother; [exact E | apply IH2]. }
  apply H.
Qed.

Lemma prefix_empty t : String.prefix EmptyString t = true.
Proof. destruct t; reflexivity. Qed.

Lemma prefix_bs1 c t : String.prefix bs1 (String c t) = Ascii.eqb c backslash.
Proof.
  unfold bs1. cbn [String.prefix].
  destruct (ascii_dec backslash c) as [E|E].
  - subst c. now rewrite Ascii.eqb_refl, prefix_empty.
  - symmetry. apply Ascii.eqb_neq. congruence.
Qed.

Lemma prefix_bs2 c t :
  String.prefix bs2 (String c t) = Ascii.eqb c backslash && String.prefix bs1 t.
Proof.
  unfold bs2. cbn [String.prefix].
  destruct (ascii_dec backslash c) as [E|E].
  - subst c. now rewrite Ascii.eqb_refl.
  - replace (Ascii.eqb c backslash) with false; [reflexivity|].
    symmetry. apply Ascii.eqb_neq. congruence.
Qed.

Lemma prefix_bs3 c t :
  String.prefix bs3 (String c t) = Ascii.eqb c backslash && String.prefix bs2 t.
Proof.
  unfold bs3. cbn [String.prefix].
  destruct (ascii_dec backslash c) as [E|E].
  - subst c. now rewrite Ascii.eqb_refl.
  - replace (Ascii.eqb c backslash) with false; [reflexivity|].
    symmetry. apply Ascii.eqb_neq. congruence.
Qed.

Lemma prefix_bs2_bs1 t : String.prefix bs2 t = true -> String.prefix bs1 t = true.
Proof.
  destruct t as [|c t]; [discriminate|].
  rewrite prefix_bs2, prefix_bs1. now intros [H _]%andb_prop.
Qed.

Lemma contains_cons sub c t :
  contains sub (String c t) = String.prefix sub (String c t) || contains sub t.
Proof. reflexivity. Qed.

(** Decoding never changes the first character. *)
Lemma decode_head s : String.prefix bs1 (decode s) = String.prefix bs1 s.
Proof.
  destruct (shape_of s) as [|c t H| |t|c t H].
  - reflexivity.
  - now rewrite decode_other, !prefix_bs1.
  - reflexivity.
  - now rewrite decode_pair, !prefix_bs1.
  - now rewrite decode_single, !prefix_bs1.
Qed.

Lemma decode_keeps_backslash s :
  contains bs1 s = true -> contains bs1 (decode s) = true.
Proof.
  induction s as [|c t H IH| |t IH|c t H IH] using scan_ind.
  - discriminate.
  - rewrite decode_other by exact H.
    rewrite !contains_cons, !prefix_bs1, H. cbn [orb]. exact IH.
  - reflexivity.
  - intros _. rewrite decode_pair, contains_cons, prefix_bs1.
    now rewrite Ascii.eqb_refl.
  - intros _. rewrite decode_single by exact H.
    rewrite contains_cons, prefix_bs1. now rewrite Ascii.eqb_refl.
Qed.

Lemma pair_has_backslash s : contains bs2 s = true -> contains bs1 s = true.
Proof.
  induction s as [|c t IH]; [discriminate|].
  rewrite !contains_cons. intros [H|H]%orb_prop.
  - apply prefix_bs2_bs1 in H. now rewrite H.
  - rewrite (IH H). apply orb_true_r.
Qed.

(** A pair survives decoding exactly when the input holds a run of three. *)
Lemma decode_pair_iff_triple s : contains bs2 (decode s) = contains bs3 s.
Proof.
  induction s as [|c t H IH| |t IH|c t H IH] using scan_ind.
  - reflexivity.
  - rewrite decode_other by exact H.
    rewrite !contains_cons, prefix_bs2, prefix_bs3, H. cbn [andb orb]. exact IH.
  - reflexivity.
  - rewrite decode_pair.
    rewrite !contains_cons, prefix_bs2, !prefix_bs3, prefix_bs2.
    rewrite Ascii.eqb_refl, decode_head, IH. cbn [andb].
    destruct (String.prefix bs1 t) eqn:E1; [reflexivity|]. cbn [orb].
    destruct (String.prefix bs2 t) eqn:E2; [|reflexivity].
    apply prefix_bs2_bs1 in E2. congruence.
  - rewrite decode_single by exact H.
    rewrite !contains_cons, !prefix_bs2, !prefix_bs3, !prefix_bs2, !prefix_bs1.
    rewrite H, Ascii.eqb_refl. cbn [andb orb]. exact IH.
Qed.

Lemma decode_length s :
  (String.length (decode s) <= String.length s)%nat /\
  (contains bs2 s = true -> (String.length (decode s) < String.length s)%nat).
Proof.
  induction s as [|c t H [IH1 IH2]| |t [IH1 IH2]|c t H [IH1 IH2]] using scan_ind.
  - split; [apply Nat.le_refl | discriminate].
  - rewrite decode_other by exact H. cbn [String.length]. split; [lia|].
    rewrite contains_cons, prefix_bs2, H. cbn [andb orb]. intros E.
    specialize (IH2 E). lia.
  - split; [apply Nat.le_refl | discriminate].
  - rewrite decode_pair. cbn [String.length]. split; intros; lia.
  - rewrite decode_single by exact H. cbn [String.length]. split; [lia|].
    rewrite !contains_cons, !prefix_bs2, !prefix_bs1, H. cbn [andb orb]. intros E.
    specialize (IH2 E). lia.
Qed.

Lemma decode_fixed_without_pair s : contains bs2 s = false -> decode s = s.
Proof.
  induction s as [|c t H IH| |t IH|c t H IH] using scan_ind.
  - reflexivity.
  - rewrite contains_cons, prefix_bs2, H. cbn [andb orb]. intros E.
    rewrite decode_other by exact H. now rewrite IH.
  - reflexivity.
  - rewrite contains_cons, prefix_bs2, prefix_bs1, !Ascii.eqb_refl. discriminate.
  - rewrite !contains_cons, !prefix_bs2, !prefix_bs1, H. cbn [andb orb]. intros E.
    rewrite decode_single by exact H. now rewrite IH.
Qed.

Lemma decode_fixed_iff s : decode s = s <-> contains bs2 s = false.
Proof.
  split; [|apply decode_fixed_without_pair].
  intros E. destruct (contains bs2 s) eqn:C; [|reflexivity].
  pose proof (proj2 (decode_length s) C) as L. rewrite E in L. lia.
Qed.

Lemma decode_idempotent_iff s :
  decode (decode s) = decode s <-> contains bs3 s = false.
Proof. rewrite decode_fixed_iff, decode_pair_iff_triple. reflexivity. Qed.

(** *** Decimal formatting *)

Lemma digit_value_digit d : 0 <= d < 10 -> digit_value (digit d) = d.
Proof.
  intros H. unfold digit_value, digit.
  rewrite Ascii.nat_ascii_embedding by lia. lia.
Qed.

Lemma is_digit_digit d : 0 <= d < 10 -> is_digit (digit d) = true.
Proof.
  intros H. unfold is_digit, digit. cbv zeta.
  rewrite Ascii.nat_ascii_embedding by lia.
  apply andb_true_intro. split; apply Nat.leb_le; lia.
Qed.

Lemma digits_rev_spec fuel : forall n,
  0 <= n < 2 ^ Z.of_nat fuel ->
  value_rev (digits_rev fuel n) = n /\
  Forall (fun c => is_digit c = true) (digits_rev fuel n) /\
  forall k, (0 < k)%nat -> n < 10 ^ Z.of_nat k -> (List.length (digits_rev fuel n) <= k)%nat.
Proof.
  induction fuel as [|f IH]; intros n H.
  - cbn in H. assert (n = 0) by lia. subst n. cbn. repeat split; auto. intros; lia.
  - rewrite Nat2Z.inj_succ, Z.pow_succ_r in H by lia.
    assert (M : 0 <= n mod 10 < 10) by (apply Z.mod_pos_bound; lia).
    cbn [digits_rev].
    destruct (Z.eqb_spec (n / 10) 0) as [E|E].
    + cbn [value_rev fold_right List.length]. rewrite digit_value_digit by exact M.
      repeat split.
      * Z.to_euclidean_division_equations; lia.
      * constructor; [now apply is_digit_digit | constructor].
      * intros; lia.
    + assert (B : 0 <= n / 10 < 2 ^ Z.of_nat f)
        by (Z.to_euclidean_division_equations; lia).
      destruct (IH _ B) as (V & D & L).
      cbn [value_rev fold_right List.length] in *. rewrite digit_value_digit by exact M.
      repeat split.
      * unfold value_rev in V. rewrite V. Z.to_euclidean_division_equations; lia.
      * constructor; [now apply is_digit_digit | exact D].
      * intros k Hk Hn. destruct k as [|k]; [lia|].
        rewrite Nat2Z.inj_succ, Z.pow_succ_r in Hn by lia.
        assert (k <> 0)%nat.
        { intros ->. cbn in Hn. Z.to_euclidean_division_equations; lia. }
        apply le_n_S, L; [lia|]. Z.to_euclidean_division_equations; lia.
Qed.

Lemma length_string_of_list l : String.length (string_of_list_ascii l) = List.length l.
Proof. induction l; cbn; congruence. Qed.

Lemma length_append s t :
  String.length (s ++ t) = (String.length s + String.length t)%nat.
Proof. induction s; cbn; congruence. Qed.

Lemma list_of_append s t :
  list_ascii_of_string (s ++ t) = (list_ascii_of_string s ++ list_ascii_of_string t)%list.
Proof. induction s; cbn; congruence. Qed.

Lemma digits_value_rev ds :
  digits_value (string_of_list_ascii (rev ds)) = value_rev ds.
Proof.
  unfold digits_value, value_rev. rewrite list_ascii_of_string_of_list_ascii.
  rewrite <- fold_left_rev_right, rev_involutive.
  induction ds as [|c t IH]; [reflexivity|].
  cbn [fold_right]. rewrite IH. unfold digit_value. lia.
Qed.

Lemma decimal_spec n k :
  0 <= n < 10 ^ Z.of_nat k -> (0 < k)%nat ->
  digits_value (decimal n) = n /\
  forallb is_digit (list_ascii_of_string (decimal n)) = true /\
  (String.length (decimal n) <= k)%nat.
Proof.
  intros H Hk. unfold decimal.
  assert (B : 0 <= n < 2 ^ Z.of_nat (S (Z.to_nat (Z.log2 n)))).
  { split; [lia|]. rewrite Nat2Z.inj_succ, Z2Nat.id by apply Z.log2_nonneg.
    destruct (Z.eq_dec n 0) as [->|N]; [reflexivity|].
    apply Z.log2_spec. lia. }
  destruct (digits_rev_spec _ _ B) as (V & D & L).
  rewrite digits_value_rev, list_ascii_of_string_of_list_ascii, length_string_of_list.
  rewrite length_rev. repeat split.
  - exact V.
  - apply forallb_forall. intros c Hc. apply in_rev in Hc.
    rewrite Forall_forall in D. now apply D.
  - apply L; lia.
Qed.

Lemma fmt_0d_spec w n :
  0 <= n < 10 ^ Z.of_nat w -> (0 < w)%nat ->
  String.length (fmt_0d w n) = w /\
  forallb is_digit (list_ascii_of_string (fmt_0d w n)) = true /\
  digits_value (fmt_0d w n) = n.
Proof.
  intros H Hw. destruct (decimal_spec n w H Hw) as (V & D & L).
  unfold fmt_0d, zfill.
  set (pad := (w - String.length (decimal n))%nat).
  repeat split.
  - rewrite length_append, length_string_of_list, repeat_length. lia.
  - rewrite list_of_append, list_ascii_of_string_of_list_ascii, forallb_app, D.
    rewrite andb_true_r. apply forallb_forall. intros c Hc.
    apply repeat_spec in Hc. subst c. reflexivity.
  - unfold digits_value in *.
    rewrite list_of_append, list_ascii_of_string_of_list_ascii, fold_left_app.
    replace (fold_left _ (repeat (digit 0) pad) 0) with 0; [exact V|].
    induction pad as [|p IH]; [reflexivity|]. cbn [repeat fold_left].
    replace (10 * 0 + (Z.of_nat (nat_of_ascii (digit 0)) - 48)) with 0 by reflexivity.
    exact IH.
Qed.

End PyStrFacts.

(** ** Calendar arithmetic *)

Module PyDatetimeFacts.
Import PyDatetime.

Lemma month_day_table :
  forallb (fun k => month_day_ok false (Z.of_nat k)) (seq 0 365)%nat &&
  forallb (fun k => month_day_ok true (Z.of_nat k)) (seq 0 366)%nat = true.
Proof. vm_compute. reflexivity. Qed.

Lemma month_day_correct (leapyear : bool) n :
  0 <= n < 365 + (if leapyear then 1 else 0) ->
  month_day_ok leapyear n = true.
Proof.
  intros H. pose proof month_day_table as T. apply andb_prop in T. destruct T as [T0 T1].
  rewrite forallb_forall in T0, T1.
  replace n with (Z.of_nat (Z.to_nat n)) by lia.
  destruct leapyear; [apply T1 | apply T0]; apply in_seq; lia.
Qed.

Lemma ord2ymd_unfold n :
  ord2ymd n =
  let n0 := n - 1 in
  let n400 := n0 / DI400Y in let r1 := n0 mod DI400Y in
  let n100 := r1 / DI100Y in let r2 := r1 mod DI100Y in
  let n4 := r2 / DI4Y in let r3 := r2 mod DI4Y in
  let n1 := r3 / 365 in let r4 := r3 mod 365 in
  let y := n400 * 400 + 1 + n100 * 100 + n4 * 4 + n1 in
  if (n1 =? 4) || (n100 =? 4) then (y - 1, 12, 31)
  else let '(m, d) := month_day ((n1 =? 3) && (negb (n4 =? 24) || (n100 =? 3))) r4 in
       (y, m, d).
Proof.
  unfold ord2ymd, month_day. cbv zeta.
  destruct (_ || _); [reflexivity|].
  destruct (_ <? _); reflexivity.
Qed.

Lemma days_before_year_split a b c d :
  0 <= b <= 3 -> 0 <= c <= 24 -> 0 <= d <= 3 ->
  days_before_year (400 * a + 100 * b + 4 * c + d + 1)
  = 146097 * a + 36524 * b + 1461 * c + 365 * d.
Proof.
  intros Hb Hc Hd. unfold days_before_year. cbv zeta.
  Z.to_euclidean_division_equations; lia.
Qed.

Lemma is_leap_split a b c d :
  0 <= b <= 3 -> 0 <= c <= 24 -> 0 <= d <= 3 ->
  is_leap (400 * a + 100 * b + 4 * c + d + 1)
  = (d =? 3) && (negb (c =? 24) || (b =? 3)).
Proof.
  intros Hb Hc Hd. unfold is_leap.
  replace ((400 * a + 100 * b + 4 * c + d + 1) mod 4) with ((d + 1) mod 4)
    by (Z.to_euclidean_division_equations; lia).
  replace ((400 * a + 100 * b + 4 * c + d + 1) mod 100) with ((4 * c + d + 1) mod 100)
    by (Z.to_euclidean_division_equations; lia).
  replace ((400 * a + 100 * b + 4 * c + d + 1) mod 400) with ((100 * b + 4 * c + d + 1) mod 400)
    by (Z.to_euclidean_division_equations; lia).
  destruct (Z.eqb_spec d 3) as [->|Nd].
  - cbn [andb]. replace ((3 + 1) mod 4 =? 0) with true by reflexivity. cbn [andb].
    destruct (Z.eqb_spec c 24) as [->|Nc].
    + cbn [negb orb]. replace ((4 * 24 + 3 + 1) mod 100 =? 0) with true by reflexivity.
      cbn [negb orb].
      destruct (Z.eqb_spec b 3) as [->|Nb]; [reflexivity|].
      apply Z.eqb_neq. Z.to_euclidean_division_equations; lia.
    + cbn [negb orb].
      replace ((4 * c + 3 + 1) mod 100 =? 0) with false; [reflexivity|].
      symmetry. apply Z.eqb_neq. Z.to_euclidean_division_equations; lia.
  - replace ((d + 1) mod 4 =? 0) with false; [reflexivity|].
    symmetry. apply Z.eqb_neq. Z.to_euclidean_division_equations; lia.
Qed.

Lemma year_part n0 :
  0 <= n0 ->
  let n400 := n0 / DI400Y in let r1 := n0 mod DI400Y in
  let n100 := r1 / DI100Y in let r2 := r1 mod DI100Y in
  let n4 := r2 / DI4Y in let r3 := r2 mod DI4Y in
  let n1 := r3 / 365 in let r4 := r3 mod 365 in
  0 <= n400 /\ 0 <= n100 <= 4 /\ 0 <= n4 <= 24 /\ 0 <= n1 <= 4 /\ 0 <= r4 < 365 /\
  n0 = 146097 * n400 + 36524 * n100 + 1461 * n4 + 365 * n1 + r4 /\
  (n100 = 4 -> n4 = 0 /\ n1 = 0 /\ r4 = 0) /\
  (n1 = 4 -> r4 = 0) /\ (n4 = 24 -> n100 < 4 -> n1 < 4).
Proof.
  intros H. unfold DI400Y, DI100Y, DI4Y. cbv zeta.
  Z.to_euclidean_division_equations; lia.
Qed.

Lemma ord2ymd_spec n :
  1 <= n ->
  exists y m d,
    ord2ymd n = (y, m, d) /\ ymd2ord y m d = n /\
    1 <= y /\ 1 <= m <= 12 /\ 1 <= d <= days_in_month y m /\
    (n <= MAXORDINAL -> y <= MAXYEAR).
Proof.
  intros Hn. rewrite ord2ymd_unfold.
  pose proof (year_part (n - 1) ltac:(lia)) as P. cbv zeta in P |- *.
  set (n400 := (n - 1) / DI400Y) in *.
  set (r1 := (n - 1) mod DI400Y) in *.
  set (n100 := r1 / DI100Y) in *. set (r2 := r1 mod DI100Y) in *.
  set (n4 := r2 / DI4Y) in *. set (r3 := r2 mod DI4Y) in *.
  set (n1 := r3 / 365) in *. set (r4 := r3 mod 365) in *.
  destruct P as (H400 & H100 & H4 & H1 & Hr & Heq & E100 & E1 & E24).
  unfold MAXORDINAL, MAXYEAR.
  destruct ((n1 =? 4) || (n100 =? 4)) eqn:Last.
  - (* the last day of a leap year *)
    assert (exists b c, 0 <= b <= 3 /\ 0 <= c <= 24 /\ (c = 24 -> b = 3) /\
              n400 * 400 + 1 + n100 * 100 + n4 * 4 + n1 - 1
              = 400 * n400 + 100 * b + 4 * c + 3 + 1 /\
              n - 1 = 146097 * n400 + 36524 * b + 1461 * c + 365 * 3 + 365)
      as (b & c & Hb & Hc & Hcb & Ey & En).
    { apply orb_prop in Last. destruct Last as [L|L]; apply Z.eqb_eq in L.
      - destruct (Z.eq_dec n100 4) as [F|F].
        + exists 3, 24. destruct (E100 F) as (? & ? & ?). lia.
        + exists n100, n4. specialize (E1 L). lia.
      - exists 3, 24. destruct (E100 L) as (? & ? & ?). lia. }
    eexists _, _, _. split; [reflexivity|].
    rewrite Ey. unfold ymd2ord, days_before_month, days_in_month.
    rewrite days_before_year_split, is_leap_split by lia.
    replace ((3 =? 3) && (negb (c =? 24) || (b =? 3))) with true.
    + change (index DAYS_BEFORE_MONTH 12) with 334.
      change (index DAYS_IN_MONTH 12) with 31.
      change (2 <? 12) with true. change (12 =? 2) with false.
      cbn [andb]. lia.
    + cbn [andb]. replace (3 =? 3) with true by reflexivity. cbn [andb].
      destruct (Z.eqb_spec c 24) as [C|C]; [|reflexivity].
      rewrite (Hcb C). reflexivity.
  - apply orb_false_elim in Last. destruct Last as [L1 L100].
    apply Z.eqb_neq in L1, L100.
    set (leapyear := (n1 =? 3) && (negb (n4 =? 24) || (n100 =? 3))).
    pose proof (month_day_correct leapyear r4) as MD.
    assert (R : 0 <= r4 < 365 + (if leapyear then 1 else 0))
      by (destruct leapyear; lia).
    specialize (MD R). unfold month_day_ok in MD.
    destruct (month_day leapyear r4) as [m d].
    repeat (apply andb_prop in MD; destruct MD as [MD ?]).
    eexists _, _, _. split; [reflexivity|].
    replace (n400 * 400 + 1 + n100 * 100 + n4 * 4 + n1)
      with (400 * n400 + 100 * n100 + 4 * n4 + n1 + 1) by lia.
    unfold ymd2ord, days_before_month, days_in_month.
    rewrite days_before_year_split, is_leap_split by lia.
    fold leapyear. lia.
Qed.

Lemma minus_offset_spec dt offset :
  US_PER_DAY <= instant_us dt offset < (MAXORDINAL + 1) * US_PER_DAY ->
  exists u,
    minus_offset dt offset = Some u /\ valid u = true /\ tzinfo u = Some 0 /\
    instant_us u 0 = instant_us dt offset.
Proof.
  intros R. unfold minus_offset. cbv zeta.
  set (total := instant_us dt offset) in *.
  assert (D : 1 <= total / US_PER_DAY <= MAXORDINAL).
  { unfold US_PER_DAY, US_PER_SECOND, MAXORDINAL in *.
    Z.to_euclidean_division_equations; lia. }
  replace ((0 <? total / US_PER_DAY) && (total / US_PER_DAY <=? MAXORDINAL)) with true
    by (symmetry; apply andb_true_intro; split; [apply Z.ltb_lt | apply Z.leb_le]; lia).
  destruct (ord2ymd_spec (total / US_PER_DAY) ltac:(lia))
    as (y & m & d & E & O & Hy & Hm & Hd & Hmax).
  rewrite E. eexists. split; [reflexivity|].
  specialize (Hmax ltac:(lia)).
  assert (F : 0 <= total mod US_PER_DAY < US_PER_DAY)
    by (apply Z.mod_pos_bound; reflexivity).
  set (rem := total mod US_PER_DAY) in *.
  split; [|split; [reflexivity|]].
  - unfold valid. cbn [year month day hour minute second microsecond tzinfo].
    unfold MINYEAR, MAXYEAR, US_PER_DAY, US_PER_SECOND in *.
    repeat (apply andb_true_intro; split);
      try apply Z.leb_le; try apply Z.ltb_lt; try lia;
      Z.to_euclidean_division_equations; lia.
  - unfold instant_us at 1, wall_us.
    cbn [year month day hour minute second microsecond tzinfo].
    rewrite O. subst rem.
    unfold US_PER_DAY, US_PER_SECOND in *.
    Z.to_euclidean_division_equations; lia.
Qed.

(** [astimezone] succeeds exactly when the offset is found and the
    subtraction stays in range; the exception is otherwise that of the
    lookup, or [OverflowError]. *)
Lemma astimezone_utc_ok local_utcoffset dt u :
  astimezone_utc local_utcoffset dt = Ok u <->
  exists offset, utcoffset local_utcoffset dt = Ok offset /\ minus_offset dt offset = Some u.
Proof.
  unfold astimezone_utc. destruct (utcoffset local_utcoffset dt) as [offset|e].
  - destruct (minus_offset dt offset) as [v|] eqn:E.
    + split.
      * intros H. injection H as <-. now exists offset.
      * intros (o & Ho & Hu). injection Ho as <-. congruence.
    + split; [discriminate|]. intros (o & Ho & Hu). injection Ho as <-. congruence.
  - split; [discriminate|]. intros (o & Ho & _). discriminate.
Qed.

Lemma astimezone_utc_raises local_utcoffset dt e :
  astimezone_utc local_utcoffset dt = Raise e ->
  utcoffset local_utcoffset dt = Raise e \/
  (e = OverflowError /\
   exists offset, utcoffset local_utcoffset dt = Ok offset /\ minus_offset dt offset = None).
Proof.
  unfold astimezone_utc. destruct (utcoffset local_utcoffset dt) as [offset|e'].
  - destruct (minus_offset dt offset) eqn:E; [discriminate|].
    intros H. injection H as <-. right. split; [reflexivity|]. now exists offset.
  - intros H. injection H as <-. now left.
Qed.

End PyDatetimeFacts.

(** ** The property decoder *)

Section PropertyDecoder.
Import PyStr PyDatetime.

Variable local_utcoffset : PyDatetime.datetime -> result Z.
Variable strftime_Y : Z -> string.

Lemma process_props_one (a : Attr) :
  process_props local_utcoffset strftime_Y [a] =
  bind (process_prop local_utcoffset strftime_Y a) (fun prop => ret [prop]).
Proof.
  unfold process_props. cbn [for_append].
  destruct (process_prop local_utcoffset strftime_Y a) as [l [v|e]]; cbn; rewrite
      ?app_nil_r; reflexivity.
Qed.

(** C9, as amended: a string value is decoded by replacing each
    non-overlapping pair of backslashes, scanning from the left, by one
    backslash.  If the value holds a pair, the decoded value holds a
    backslash.  Decoding the decoded value again leaves it unchanged exactly
    when the original value holds no run of three backslashes. *)
Theorem C9_string_decoding (iid label s : string) :
  process_props local_utcoffset strftime_Y [mk_attr iid label (VString s)]
  = ret [PDict [("typeql", PStr label); ("value", PStr (decode s));
                ("datetime", PFalse)]] /\
  (contains bs2 s = true -> contains bs1 (decode s) = true) /\
  (decode (decode s) = decode s <-> contains bs3 s = false).
Proof.
  split; [reflexivity|]. split.
  - intros H. apply PyStrFacts.decode_keeps_backslash.
    now apply PyStrFacts.pair_has_backslash.
  - apply PyStrFacts.decode_idempotent_iff.
Qed.

(** C8, as amended: take a datetime value whose offset from UTC is found
    (it carries one, or it is naive and the host resolves its local zone)
    and whose instant, moved to UTC, lies in the years 1 to 9999.  It is
    decoded to that same instant with a zero offset, rendered as year, month,
    day, hour, minute and second, then a dot, exactly six digits that spell
    the microseconds, and a final [Z]; the datetime flag is set. *)
Theorem C8_datetime_decoding (iid label : string) (dt : datetime) (offset : Z) :
  utcoffset local_utcoffset dt = Ok offset ->
  ymd2ord 1 1 1 * US_PER_DAY <= instant_us dt offset
    < (ymd2ord 9999 12 31 + 1) * US_PER_DAY ->
  exists u frac,
    astimezone_utc local_utcoffset dt = Ok u /\ valid u = true /\ tzinfo u = Some 0 /\
    instant_us u 0 = instant_us dt offset /\
    process_props local_utcoffset strftime_Y [mk_attr iid label (VDatetime dt)]
    = ret [PDict [("typeql", PStr label);
                  ("value", PStr (strftime_Y (year u) ++ "-" ++ fmt_0d 2 (month u)
                     ++ "-" ++ fmt_0d 2 (day u) ++ "T" ++ fmt_0d 2 (hour u) ++ ":"
                     ++ fmt_0d 2 (minute u) ++ ":" ++ fmt_0d 2 (second u) ++ "."
                     ++ frac ++ "Z"));
                  ("datetime", PTrue)]] /\
    String.length frac = 6%nat /\
    forallb is_digit (list_ascii_of_string frac) = true /\
    digits_value frac = microsecond u.
Proof.
  intros Hoff R.
  change (ymd2ord 1 1 1) with 1 in R. change (ymd2ord 9999 12 31) with MAXORDINAL in R.
  destruct (PyDatetimeFacts.minus_offset_spec dt offset) as (u & A & V & O & I); [lia|].
  assert (A' : astimezone_utc local_utcoffset dt = Ok u)
    by (apply PyDatetimeFacts.astimezone_utc_ok; now exists offset).
  exists u, (fmt_0d 6 (microsecond u)).
  assert (U : 0 <= microsecond u < 10 ^ Z.of_nat 6).
  { unfold valid in V. repeat (apply andb_prop in V; destruct V as [V ?]).
    unfold US_PER_SECOND in *. change (10 ^ Z.of_nat 6) with 1000000. lia. }
  destruct (PyStrFacts.fmt_0d_spec 6 (microsecond u) U ltac:(lia)) as (L & D & N).
  repeat split; try assumption.
  rewrite process_props_one. unfold process_prop. cbn [a_value a_label].
  unfold utc_string. rewrite A'. reflexivity.
Qed.

End PropertyDecoder.

(** ** Loops and dictionaries *)

Lemma outcome_bind {A B} (m : M A) (f : A -> M B) :
  outcome (bind m f) =
  match outcome m with
  | Ok a => outcome (f a)
  | Raise e => Raise e
  end.
Proof.
  destruct m as [l [a|e]]; cbn; [|reflexivity].
  destruct (f a); reflexivity.
Qed.

Lemma outcome_ret {A} (a : A) : outcome (ret a) = Ok a.
Proof. reflexivity. Qed.

Lemma bind_ret_l {A B} (a : A) (f : A -> M B) : bind (ret a) f = f a.
Proof. unfold bind, ret. destruct (f a); reflexivity. Qed.

Lemma for_append_ok {A B} (body : A -> M (option B)) (l : list A) (os : list (option B)) :
  Forall2 (fun a o => outcome (body a) = Ok o) l os ->
  outcome (for_append body l) = Ok (somes os).
Proof.
  induction 1 as [|a o l os Ha _ IH]; [reflexivity|].
  cbn [for_append]. rewrite outcome_bind, Ha, outcome_bind, IH.
  destruct o; reflexivity.
Qed.

Lemma for_append_inv {A B} (body : A -> M (option B)) (l : list A) (bs : list B) :
  outcome (for_append body l) = Ok bs ->
  exists os, Forall2 (fun a o => outcome (body a) = Ok o) l os /\ bs = somes os.
Proof.
  revert bs. induction l as [|a l IH]; intros bs H.
  - exists []. split; [constructor|]. cbn in H |- *. congruence.
  - cbn [for_append] in H. rewrite outcome_bind in H.
    destruct (outcome (body a)) as [o|e] eqn:Ha; [|discriminate].
    rewrite outcome_bind in H.
    destruct (outcome (for_append body l)) as [rest|e] eqn:Hl; [|discriminate].
    destruct (IH rest eq_refl) as (os & F & ->).
    exists (o :: os). split; [now constructor|].
    rewrite outcome_ret in H. injection H as <-. destruct o; reflexivity.
Qed.

Lemma for_append_raise {A B} (body : A -> M (option B)) (l1 l2 : list A) (a : A)
    (os : list (option B)) (e : Exn) :
  Forall2 (fun a o => outcome (body a) = Ok o) l1 os ->
  outcome (body a) = Raise e ->
  outcome (for_append body (l1 ++ a :: l2)) = Raise e.
Proof.
  induction 1 as [|x o l os Hx _ IH]; intros Ha.
  - cbn [app for_append]. now rewrite outcome_bind, Ha.
  - cbn [app for_append]. rewrite outcome_bind, Hx, outcome_bind, (IH Ha). reflexivity.
Qed.

(** A loop whose rounds cannot fail. *)
Lemma for_append_pure {A B} (body : A -> M (option B)) (g : A -> option B) (l : list A) :
  (forall a, In a l -> outcome (body a) = Ok (g a)) ->
  outcome (for_append body l) = Ok (somes (map g l)).
Proof.
  intros H. apply for_append_ok.
  induction l as [|a l IH]; cbn [map]; constructor.
  - apply H. now left.
  - apply IH. intros x Hx. apply H. now right.
Qed.

Lemma somes_filter_map {A B} (kept : A -> bool) (h : A -> B) (l : list A) :
  somes (map (fun a => if kept a then Some (h a) else None) l) = map h (filter kept l).
Proof.
  induction l as [|a l IH]; [reflexivity|].
  cbn [map filter]. change (somes (?o :: ?os)) with
    ((match o with Some b => [b] | None => [] end) ++ somes os)%list.
  rewrite IH. destruct (kept a); reflexivity.
Qed.

Lemma somes_all {B} (l : list B) : somes (map Some l) = l.
Proof.
  induction l as [|b l IH]; [reflexivity|].
  cbn [map]. change (somes (Some b :: map Some l)) with (b :: somes (map Some l)).
  now rewrite IH.
Qed.

Lemma Forall2_map_r {A B} (P : A -> B -> Prop) (h : A -> B) (l : list A) :
  (forall a, In a l -> P a (h a)) -> Forall2 P l (map h l).
Proof.
  induction l as [|a l IH]; intros H; cbn [map]; constructor.
  - apply H. now left.
  - apply IH. intros x Hx. apply H. now right.
Qed.

Lemma dict_get_set_same k v d : dict_get k (dict_set k v d) = Some v.
Proof.
  induction d as [|[k' v'] d IH]; cbn.
  - now rewrite String.eqb_refl.
  - destruct (String.eqb k k') eqn:E; cbn; rewrite ?E, ?String.eqb_refl; auto.
Qed.

Lemma dict_get_set_other k k' v d :
  k' <> k -> dict_get k' (dict_set k v d) = dict_get k' d.
Proof.
  intros N. induction d as [|[k0 v0] d IH]; cbn.
  - now rewrite (proj2 (String.eqb_neq k' k) N).
  - destruct (String.eqb k k0) eqn:E; cbn.
    + apply String.eqb_eq in E. subst k0.
      now rewrite (proj2 (String.eqb_neq k' k) N).
    + now rewrite IH.
Qed.

(** [for attr in attrs: play[k] = attr.get_value()]: the last value wins. *)
Lemma dict_get_fold_set_same (k : string) (attrs : list Attr) (d : dict) :
  dict_get k (fold_left (fun play attr => dict_set k (PVal (a_value attr)) play) attrs d)
  = match last_error attrs with
    | Some a => Some (PVal (a_value a))
    | None => dict_get k d
    end.
Proof.
  unfold last_error. induction attrs as [|a l IH] using rev_ind.
  - reflexivity.
  - rewrite fold_left_app, rev_app_distr. cbn. apply dict_get_set_same.
Qed.

Lemma dict_get_fold_set_other (k k' : string) (attrs : list Attr) (d : dict) :
  k' <> k ->
  dict_get k' (fold_left (fun play attr => dict_set k (PVal (a_value attr)) play) attrs d)
  = dict_get k' d.
Proof.
  intros N. revert d. induction attrs as [|a l IH]; intros d; [reflexivity|].
  cbn [fold_left]. rewrite IH. now apply dict_get_set_other.
Qed.

(** ** The embedded category *)

Lemma somes_map_some {A B} (h : A -> B) (l : list A) :
  somes (map (fun a => Some (h a)) l) = map h l.
Proof.
  induction l as [|a l IH]; [reflexivity|].
  cbn [map]. change (somes (Some (h a) :: ?os)) with (h a :: somes os).
  now rewrite IH.
Qed.

Lemma process_entity_reference (p : Concept) (r_tx : Transaction) :
  entity_reference r_tx p (process_entity p r_tx (get_attribute_type r_tx "stix-id")).
Proof.
  unfold process_entity. eexists. split; [reflexivity|].
  repeat split.
  - rewrite dict_get_fold_set_other by discriminate. reflexivity.
  - rewrite dict_get_fold_set_other by discriminate. reflexivity.
  - rewrite dict_get_fold_set_same. unfold external_id.
    destruct (last_error _); reflexivity.
  - intros k K1 K2 K3. rewrite dict_get_fold_set_other by exact K3.
    cbn. apply String.eqb_neq in K1, K2. now rewrite K1, K2.
Qed.

Lemma process_relation_stub (p : Concept) (r_tx : Transaction) :
  relation_stub r_tx p (process_relation p r_tx (get_attribute_type r_tx "stix-id")).
Proof.
  unfold process_relation. eexists. split; [reflexivity|].
  repeat split.
  - rewrite dict_get_fold_set_other by discriminate. reflexivity.
  - rewrite dict_get_fold_set_same. unfold external_id.
    destruct (last_error _); reflexivity.
  - intros k K1 K2 K3. rewrite dict_get_fold_set_other by exact K3.
    cbn. apply String.eqb_neq in K1, K2. now rewrite K1, K2.
Qed.

Lemma reln_map_entity_relation_outcome (reln_map : list (string * list Concept))
    (r_tx : Transaction) (stix_id : option string) :
  outcome (reln_map_entity_relation reln_map r_tx stix_id)
  = Ok (map (fun rp =>
         PDict [("role", PStr (fst rp));
                ("player", PList (map (fun p => if is_entity p
                                              then process_entity p r_tx stix_id
                                              else process_relation p r_tx stix_id)
                                    (filter (fun p => is_entity p || is_relation p)
                                       (snd rp))))])
         reln_map).
Proof.
  unfold reln_map_entity_relation.
  rewrite <- somes_map_some. apply for_append_pure.
  intros [role player] _. rewrite outcome_bind.
  erewrite for_append_pure with
    (g := fun p => if is_entity p || is_relation p
                   then Some (if is_entity p then process_entity p r_tx stix_id
                              else process_relation p r_tx stix_id)
                   else None).
  - cbn [outcome ret snd fst]. now rewrite somes_filter_map.
  - intros p _. destruct (is_entity p); [reflexivity|].
    destruct (is_relation p); reflexivity.
Qed.

Section Embedded.

Variable local_utcoffset : PyDatetime.datetime -> result Z.
Variable strftime_Y : Z -> string.
Variable authorised_mappings : string -> Auth.

(** C1, as amended: for a relation whose type name is in the embedded set,
    the role list holds one binding per role, in the transaction's order.
    Its player list holds, in order, one record per entity or relation
    player: for an entity a reference with its type name and, when it has
    one, its external identifier; for a relation a shallow record with the
    relation's type name and, when it has one, its external identifier.  The
    relation's own roles are not unpacked and its category is not looked up. *)
Theorem C1_embedded_unpacking (depth : nat) (r : Concept) (r_tx : Transaction)
    (import_type : string) :
  str_in (type_name r)
    (nm_embedded_relations (auth_reln_name (authorised_mappings import_type))) = true ->
  exists roles,
    outcome (get_relation_details local_utcoffset strftime_Y authorised_mappings (S depth)
        r r_tx import_type)
    = Ok (PDict [("T_name", PStr (type_name r)); ("T_id", PStr (get_iid r));
                 ("roles", PList roles)]) /\
    Forall2 (role_binding
               (fun _ p o => if is_entity p then entity_reference r_tx p o
                             else relation_stub r_tx p o)
               (fun p => is_entity p || is_relation p))
            (get_players_by_role_type r_tx r) roles.
Proof.
  intros E. eexists. split.
  - cbn [get_relation_details]. unfold get_relation_details_body. rewrite E.
    rewrite outcome_bind. unfold get_embedded_relations.
    rewrite reln_map_entity_relation_outcome. reflexivity.
  - apply Forall2_map_r. intros [role player] _. eexists. split; [reflexivity|].
    apply Forall2_map_r. intros p _. cbn [fst].
    destruct (is_entity p).
    + apply process_entity_reference.
    + apply process_relation_stub.
Qed.

End Embedded.

(** ** Dispatch on the category *)

Section Dispatch.

Variable local_utcoffset : PyDatetime.datetime -> result Z.
Variable strftime_Y : Z -> string.
Variable authorised_mappings : string -> Auth.

Local Abbreviation details := (get_relation_details local_utcoffset strftime_Y authorised_mappings).

Lemma get_relation_details_dispatch (depth : nat) (r : Concept) (r_tx : Transaction)
    (import_type : string) :
  details (S depth) r r_tx import_type =
  match resolve (authorised_mappings import_type) (type_name r) with
  | Some embedded =>
      bind (get_embedded_relations r r_tx) (fun roles => ret (with_roles r roles))
  | Some standard => ret (with_roles r [])
  | Some key_value =>
      bind (get_key_value_relations local_utcoffset strftime_Y r r_tx)
           (fun roles => ret (with_roles r roles))
  | Some extension =>
      bind (get_extension_relations local_utcoffset strftime_Y authorised_mappings (details depth)
              r r_tx import_type)
           (fun roles => ret (with_roles r roles))
  | Some list_of_objects_category =>
      bind (get_list_of_objects local_utcoffset strftime_Y authorised_mappings r r_tx import_type)
           (fun roles => ret (with_roles r roles))
  | Some granular_marking =>
      bind (get_granular_marking local_utcoffset strftime_Y r r_tx) (fun roles => ret
          (with_roles r roles))
  | Some hashes =>
      bind (get_hashes r r_tx) (fun roles => ret (with_roles r roles))
  | None =>
      ([error_relation_name (type_name r)],
       Ok (PDict [("T_name", PStr (type_name r)); ("T_id", PStr (get_iid r))]))
  end.
Proof.
  cbn [get_relation_details].
  unfold get_relation_details_body, resolve.
  repeat match goal with
         | |- context [if ?c then _ else _] => destruct c; [reflexivity|]
         end.
  reflexivity.
Qed.

(** C7: a relation that resolves to the standard category, its type name
    being in the standard set or the literal [sighting], gets an empty role
    list: its record holds the type name, the internal id and [roles = []],
    and nothing is logged.  [get_standard_relations] returns the empty list
    whatever the relation and the transaction. *)
Theorem C7_standard_roles_empty (depth : nat) (r : Concept) (r_tx : Transaction)
    (import_type : string) :
  resolve (authorised_mappings import_type) (type_name r) = Some standard ->
  (str_in (type_name r)
     (nm_standard_relations (auth_reln_name (authorised_mappings import_type))) = true
   \/ type_name r = "sighting") /\
  get_standard_relations r r_tx = [] /\
  details (S depth) r r_tx import_type
  = ret (PDict [("T_name", PStr (type_name r)); ("T_id", PStr (get_iid r));
                ("roles", PList (get_standard_relations r r_tx))]).
Proof.
  intros R. split; [|split; [reflexivity|]].
  - revert R. unfold resolve.
    destruct (str_in _ (nm_embedded_relations _)); [discriminate|].
    destruct (str_in _ (nm_standard_relations _)) eqn:S; [now left|].
    destruct (String.eqb_spec (type_name r) "sighting") as [E|N]; [now right|].
    cbn [orb].
    repeat match goal with
           | |- context [if ?c then _ else _] => destruct c; [discriminate|]
           end.
    discriminate.
  - rewrite get_relation_details_dispatch, R. reflexivity.
Qed.

(** C5, as amended: for a relation whose type name matches no category, the
    resolver logs the error and returns a record that holds the relation's
    type name and internal id and no role list.  The record is not empty,
    and [process_relns] keeps it in the list it returns. *)
Theorem C5_unknown_relation (depth : nat) (r : Concept) (r_tx : Transaction)
    (import_type : string) :
  resolve (authorised_mappings import_type) (type_name r) = None ->
  let record := PDict [("T_name", PStr (type_name r)); ("T_id", PStr (get_iid r))] in
  details (S depth) r r_tx import_type
    = ([error_relation_name (type_name r)], Ok record) /\
  empty_or_none record = false /\
  process_relns local_utcoffset strftime_Y authorised_mappings (S depth) [r] r_tx import_type
    = ([error_relation_name (type_name r)], Ok [record]).
Proof.
  intros N. cbv zeta.
  assert (D : details (S depth) r r_tx import_type
              = ([error_relation_name (type_name r)],
                 Ok (PDict [("T_name", PStr (type_name r)); ("T_id", PStr (get_iid r))]))).
  { rewrite get_relation_details_dispatch, N. reflexivity. }
  split; [exact D|]. split; [reflexivity|].
  unfold process_relns. cbn [for_append]. rewrite D. reflexivity.
Qed.

Lemma get_hashes_outcome (r : Concept) (r_tx : Transaction) :
  outcome (get_hashes r r_tx)
  = Ok (map (fun rp =>
         PDict [("role", PStr (fst rp));
                ("player", PList (map (fun p =>
                   let play := [("type", PStr "entity"); ("tql", PStr (type_name p))] in
                   if String.eqb (fst rp) "owner"
                   then PDict (fold_left
                          (fun play attr => dict_set "stix_id" (PVal (a_value attr)) play)
                          (get_has r_tx p (get_attribute_type r_tx "stix-id")) play)
                   else PDict (fold_left
                          (fun play attr => dict_set "hash_value" (PVal (a_value attr)) play)
                          (get_has r_tx p (get_attribute_type r_tx "hash-value")) play))
                   (filter is_entity (snd rp))))])
         (get_players_by_role_type r_tx r)).
Proof.
  unfold get_hashes. rewrite <- somes_map_some. apply for_append_pure.
  intros [role player] _. rewrite outcome_bind.
  erewrite for_append_pure with
    (g := fun p => if is_entity p then Some _ else None).
  - cbn [outcome ret snd fst]. rewrite somes_filter_map. reflexivity.
  - intros p _. cbn beta. destruct (is_entity p); [|reflexivity].
    cbn [fst]. destruct (String.eqb role "owner"); reflexivity.
Qed.

(** C10, as amended: for a relation resolved to the hashes category, each
    role's binding lists one record per entity player.  In the role named
    [owner] the record holds the entity's external identifier when the entity
    has one, and never a hash value; in any other role it holds the entity's
    hash value when the entity has one, and never an external identifier. *)
Theorem C10_hashes_players (depth : nat) (r : Concept) (r_tx : Transaction)
    (import_type : string) :
  resolve (authorised_mappings import_type) (type_name r) = Some hashes ->
  exists roles,
    outcome (details (S depth) r r_tx import_type) = Ok (with_roles r roles) /\
    Forall2 (role_binding (hash_player r_tx) is_entity)
            (get_players_by_role_type r_tx r) roles.
Proof.
  intros H. eexists. split.
  - rewrite get_relation_details_dispatch, H, outcome_bind, get_hashes_outcome.
    reflexivity.
  - apply Forall2_map_r. intros [role player] _. eexists. split; [reflexivity|].
    apply Forall2_map_r. intros p _. cbn [fst]. unfold hash_player.
    destruct (String.eqb role "owner"); eexists; (split; [reflexivity|]).
    + repeat split.
      * rewrite dict_get_fold_set_other by discriminate. reflexivity.
      * rewrite dict_get_fold_set_other by discriminate. reflexivity.
      * rewrite dict_get_fold_set_same. unfold external_id.
        destruct (last_error _); reflexivity.
      * rewrite dict_get_fold_set_other by discriminate. reflexivity.
    + repeat split.
      * rewrite dict_get_fold_set_other by discriminate. reflexivity.
      * rewrite dict_get_fold_set_other by discriminate. reflexivity.
      * rewrite dict_get_fold_set_same. unfold hash_value_of.
        destruct (last_error _); reflexivity.
      * rewrite dict_get_fold_set_other by discriminate. reflexivity.
Qed.

End Dispatch.

(** ** Extension relations and the validation of nested relations *)

Lemma for_append_exists {A B} (body : A -> M (option B)) (P : A -> option B -> Prop)
    (l : list A) :
  (forall a, In a l -> exists o, outcome (body a) = Ok o /\ P a o) ->
  exists os, outcome (for_append body l) = Ok (somes os) /\ Forall2 P l os.
Proof.
  intros H.
  assert (E : exists os, Forall2 (fun a o => outcome (body a) = Ok o /\ P a o) l os).
  { induction l as [|a l IH].
    - exists []. constructor.
    - destruct (H a (or_introl eq_refl)) as (o & Ho).
      destruct IH as (os & Hos); [intros x Hx; apply H; now right|].
      exists (o :: os). now constructor. }
  destruct E as (os & F). exists os. split.
  - apply for_append_ok. induction F as [|a o l' os' [Ha _] _ IH]; constructor; auto.
    apply IH. intros x Hx. apply H. now right.
  - induction F as [|a o l' os' [_ Hp] _ IH]; constructor; auto.
    apply IH. intros x Hx. apply H. now right.
Qed.

Lemma Forall2_somes_all {A B} (Q : A -> B -> Prop) (l : list A) (os : list (option B)) :
  Forall2 (fun a o => exists b, o = Some b /\ Q a b) l os ->
  Forall2 Q l (somes os).
Proof.
  induction 1 as [|a o l os (b & -> & Hq) _ IH]; [constructor|].
  change (somes (Some b :: os)) with (b :: somes os). now constructor.
Qed.

Lemma Forall2_somes_filter {A B} (kept : A -> bool) (Q : A -> B -> Prop)
    (l : list A) (os : list (option B)) :
  Forall2 (fun a o => if kept a then exists b, o = Some b /\ Q a b else o = None) l os ->
  Forall2 Q (filter kept l) (somes os).
Proof.
  induction 1 as [|a o l os Ha _ IH]; [constructor|].
  cbn [filter]. destruct (kept a).
  - destruct Ha as (b & -> & Hq).
    change (somes (Some b :: os)) with (b :: somes os). now constructor.
  - subst o. exact IH.
Qed.

Lemma Forall2_somes_nonempty {A} (val : A -> M pyobj) (l : list A) (os : list (option pyobj)) :
  Forall2 (fun a o => exists v, outcome (val a) = Ok v /\
                        o = if empty_or_none v then None else Some v) l os ->
  exists vs, Forall2 (fun a v => outcome (val a) = Ok v) l vs /\
             somes os = filter (fun v => negb (empty_or_none v)) vs.
Proof.
  induction 1 as [|a o l os (v & Hv & ->) _ (vs & F & E)].
  - exists []. split; constructor.
  - exists (v :: vs). split; [now constructor|].
    cbn [filter]. destruct (empty_or_none v); cbn [negb].
    + exact E.
    + change (somes (Some v :: os)) with (v :: somes os). now rewrite E.
Qed.

Section Values.

Variable local_utcoffset : PyDatetime.datetime -> result Z.
Variable strftime_Y : Z -> string.

Lemma process_prop_ok (a : Attr) :
  representable local_utcoffset (a_value a) = true ->
  exists prop, process_prop local_utcoffset strftime_Y a = ret prop.
Proof.
  unfold process_prop, utc_string, representable.
  destruct (a_value a) as [b|n|bits|s|dt]; try (intros _; eexists; reflexivity).
  destruct (PyDatetime.astimezone_utc local_utcoffset dt); [|discriminate].
  intros _. eexists. reflexivity.
Qed.

Lemma process_props_ok (attrs : list Attr) :
  (forall a, In a attrs -> representable local_utcoffset (a_value a) = true) ->
  exists props, outcome (process_props local_utcoffset strftime_Y attrs) = Ok props.
Proof.
  intros H. unfold process_props.
  destruct (for_append_exists
              (fun a => bind (process_prop local_utcoffset strftime_Y a) (fun prop => ret
                  (Some prop)))
              (fun _ _ => True) attrs) as (os & E & _).
  - intros a Ha. destruct (process_prop_ok a (H a Ha)) as (prop & Hp).
    exists (Some prop). rewrite Hp. split; [reflexivity|exact I].
  - eexists. exact E.
Qed.

Lemma process_value_ok (a : Attr) :
  representable local_utcoffset (a_value a) = true ->
  exists value, outcome (process_value local_utcoffset strftime_Y a) = Ok value.
Proof.
  unfold process_value, utc_string, representable.
  destruct (a_value a) as [b|n|bits|s|dt]; try (intros _; eexists; reflexivity).
  destruct (PyDatetime.astimezone_utc local_utcoffset dt); [|discriminate].
  intros _. eexists. reflexivity.
Qed.

End Values.

Lemma last_match_found {A B} (test : A -> bool) (get : A -> B) (l : list A) :
  existsb test l = true -> exists b, last_match test get l = Some b.
Proof.
  unfold last_match.
  assert (G : forall acc : option B,
             (existsb test l = true \/ acc <> None) ->
             fold_left (fun acc a => if test a then Some (get a) else acc) l acc <> None).
  { induction l as [|a l IH]; intros acc H.
    - cbn in *. destruct H; [discriminate | assumption].
    - cbn [fold_left]. apply IH. cbn [existsb] in H.
      destruct (test a); [right; discriminate|].
      destruct H as [H|H]; [now left | now right]. }
  intros H. specialize (G None (or_introl H)).
  destruct (fold_left _ l None) as [b|]; [now exists b | now elim G].
Qed.

Lemma str_in_forallb (name : string) (names : list string) (P : string -> bool) :
  forallb P names = true -> str_in name names = true -> P name = true.
Proof.
  intros F I. unfold str_in in I. apply existsb_exists in I.
  destruct I as (n & Hn & E). apply String.eqb_eq in E. subst n.
  rewrite forallb_forall in F. now apply F.
Qed.

Lemma consistent_entry {E} (key : E -> string) (table : list E)
    (names : list string) (name : string) :
  forallb (fun n => existsb (fun e => String.eqb (key e) n) table) names = true ->
  str_in name names = true ->
  existsb (fun e => String.eqb (key e) name) table = true.
Proof.
  intros F I.
  exact (str_in_forallb name names
           (fun n => existsb (fun e => String.eqb (key e) n) table) F I).
Qed.

Lemma owner_role_consistent (auth : Auth) (name : string) :
  tables_consistent auth = true -> owner_filtered auth name = true ->
  exists role_owner, owner_role_of auth name = Some role_owner.
Proof.
  unfold tables_consistent, owner_filtered, owner_role_of. intros C F.
  repeat (apply andb_prop in C; destruct C as [C ?]).
  destruct (str_in name (nm_embedded_relations _)) eqn:E1.
  { apply last_match_found.
    eapply consistent_entry; eassumption. }
  destruct (str_in name (nm_key_value_relations _)) eqn:E2.
  { apply last_match_found.
    eapply consistent_entry; eassumption. }
  destruct (str_in name (nm_extension_relations _)) eqn:E3.
  { apply last_match_found.
    eapply consistent_entry; eassumption. }
  destruct (str_in name (nm_list_of_objects _)) eqn:E4.
  { apply last_match_found.
    eapply consistent_entry; eassumption. }
  discriminate.
Qed.

Lemma ext_object_consistent (auth : Auth) (name : string) :
  tables_consistent auth = true -> resolve auth name = Some extension ->
  exists obj, ext_object_of auth name = Some obj.
Proof.
  unfold tables_consistent, resolve, ext_object_of. intros C R.
  repeat (apply andb_prop in C; destruct C as [C ?]).
  apply last_match_found.
  eapply consistent_entry; [eassumption|].
  repeat match type of R with
         | (if ?c then _ else _) = _ => destruct c eqn:?; try discriminate
         end.
  reflexivity.
Qed.

Section Validation.

Variable local_utcoffset : PyDatetime.datetime -> result Z.
Variable strftime_Y : Z -> string.
Variable authorised_mappings : string -> Auth.
Variable r_tx : Transaction.
Variable import_type : string.

Local Abbreviation auth := (authorised_mappings import_type).

(** What [validate_get_relns] does, branch by branch. *)
Lemma validate_get_relns_cases (self : Details) (rel : Concept) (obj_name : string) :
  validate_get_relns authorised_mappings self rel r_tx obj_name import_type =
  if owner_filtered auth (type_name rel) then
    match owner_role_of auth (type_name rel) with
    | Some role_owner =>
        if owner_matches r_tx rel obj_name role_owner
        then self rel r_tx import_type
        else ret PNone
    | None => raise (UnboundLocalError "role_owner")
    end
  else if String.eqb (type_name rel) "granular-marking"
          || String.eqb (type_name rel) "hashes"
  then self rel r_tx import_type
  else ([error_relation_name (type_name rel)], Ok PNone).
Proof.
  unfold validate_get_relns, owner_filtered, owner_role_of, return_valid_relations,
    owner_matches.
  destruct (str_in (type_name rel) (nm_embedded_relations _)).
  { cbn [orb]. destruct (last_match _ _ _); cbn; [|reflexivity].
    destruct (existsb _ _); [|reflexivity].
    destruct (self rel r_tx import_type) as [l [v|e]]; reflexivity. }
  destruct (str_in (type_name rel) (nm_key_value_relations _)).
  { cbn [orb]. destruct (last_match _ _ _); cbn; [|reflexivity].
    destruct (existsb _ _); [|reflexivity].
    destruct (self rel r_tx import_type) as [l [v|e]]; reflexivity. }
  destruct (str_in (type_name rel) (nm_extension_relations _)).
  { cbn [orb]. destruct (last_match _ _ _); cbn; [|reflexivity].
    destruct (existsb _ _); [|reflexivity].
    destruct (self rel r_tx import_type) as [l [v|e]]; reflexivity. }
  destruct (str_in (type_name rel) (nm_list_of_objects _)).
  { cbn [orb]. destruct (last_match _ _ _); cbn; [|reflexivity].
    destruct (existsb _ _); [|reflexivity].
    destruct (self rel r_tx import_type) as [l [v|e]]; reflexivity. }
  cbn [orb].
  destruct (String.eqb (type_name rel) "granular-marking"); [reflexivity|].
  destruct (String.eqb (type_name rel) "hashes"); reflexivity.
Qed.

Lemma validate_get_relns_outcome (self : Details) (rel : Concept) (obj_name : string) :
  tables_consistent auth = true ->
  outcome (validate_get_relns authorised_mappings self rel r_tx obj_name import_type) =
  if admitted auth r_tx rel obj_name
  then outcome (self rel r_tx import_type)
  else Ok PNone.
Proof.
  intros C. rewrite validate_get_relns_cases. unfold admitted.
  destruct (owner_filtered auth (type_name rel)) eqn:F.
  - destruct (owner_role_consistent auth _ C F) as (ro & ->).
    destruct (owner_matches _ _ _ _); reflexivity.
  - destruct (_ || _); reflexivity.
Qed.

End Validation.

(** ** What a run logs *)

Lemma log_bind_l {A B} (m : M A) (f : A -> M B) (x : LogRecord) :
  In x (fst m) -> In x (fst (bind m f)).
Proof.
  destruct m as [l [a|e]]; cbn; [|auto].
  destruct (f a) as [l2 r]. cbn. intros H. apply in_or_app. now left.
Qed.

Lemma log_bind_r {A B} (m : M A) (f : A -> M B) (a : A) (x : LogRecord) :
  outcome m = Ok a -> In x (fst (f a)) -> In x (fst (bind m f)).
Proof.
  destruct m as [l [a'|e]]; cbn; [|discriminate]. intros H. injection H as ->.
  destruct (f a) as [l2 r]. cbn. intros H. apply in_or_app. now right.
Qed.

Lemma for_append_log {A B} (body : A -> M (option B)) (l : list A) (bs : list B)
    (a : A) (x : LogRecord) :
  outcome (for_append body l) = Ok bs -> In a l -> In x (fst (body a)) ->
  In x (fst (for_append body l)).
Proof.
  revert bs. induction l as [|a0 l IH]; intros bs E Ha Hx; [contradiction|].
  cbn [for_append] in *. rewrite outcome_bind in E.
  destruct (outcome (body a0)) as [o|e] eqn:E0; [|discriminate].
  rewrite outcome_bind in E.
  destruct (outcome (for_append body l)) as [rest|e] eqn:E1; [|discriminate].
  destruct Ha as [<-|Ha].
  - now apply log_bind_l.
  - apply (log_bind_r _ _ o); [exact E0|]. apply log_bind_l. now apply (IH rest).
Qed.

Lemma Forall2_concat {A B} (P : A -> B -> Prop) (ls : list (list A)) (ls' : list (list B)) :
  Forall2 (Forall2 P) ls ls' -> Forall2 P (List.concat ls) (List.concat ls').
Proof.
  induction 1 as [|l l' ls ls' H _ IH]; [constructor|].
  cbn [List.concat]. now apply Forall2_app.
Qed.

Lemma Forall2_map_l {A B C} (P : B -> C -> Prop) (f : A -> B) (l : list A) (l' : list C) :
  Forall2 (fun a c => P (f a) c) l l' -> Forall2 P (map f l) l'.
Proof. induction 1; cbn [map]; constructor; auto. Qed.

Section Extension.

Variable local_utcoffset : PyDatetime.datetime -> result Z.
Variable strftime_Y : Z -> string.
Variable authorised_mappings : string -> Auth.
Variable r_tx : Transaction.
Variable import_type : string.

Local Abbreviation auth := (authorised_mappings import_type).
Local Abbreviation details := (get_relation_details local_utcoffset strftime_Y authorised_mappings).

Hypothesis consistent : tables_consistent auth = true.
Hypothesis values_ok : values_representable local_utcoffset r_tx.

Lemma get_extension_relations_spec (self : Details) (r : Concept) (obj : string) :
  ext_object_of auth (type_name r) = Some obj ->
  (forall role player p rel,
     In (role, player) (get_players_by_role_type r_tx r) -> In p player ->
     is_entity p = true -> type_name p = obj ->
     In rel (get_relations r_tx p) -> admitted auth r_tx rel obj = true ->
     exists v, outcome (self rel r_tx import_type) = Ok v) ->
  exists roles,
    outcome (get_extension_relations local_utcoffset strftime_Y authorised_mappings self r
        r_tx import_type)
    = Ok roles /\
    Forall2 (role_binding
               (extension_player local_utcoffset strftime_Y r_tx
                  (fun rel => validate_get_relns authorised_mappings self rel r_tx obj
                                import_type) obj)
               (fun p => negb (is_relation p)))
            (get_players_by_role_type r_tx r) roles.
Proof.
  intros Hobj Hself. unfold get_extension_relations.
  fold (ext_object_of auth (type_name r)). rewrite Hobj.
  match goal with
  | |- exists roles, outcome (for_append ?body ?l) = _ /\ _ =>
      destruct (for_append_exists body
        (fun rp o => exists b, o = Some b /\
           role_binding
             (extension_player local_utcoffset strftime_Y r_tx
                (fun rel => validate_get_relns authorised_mappings self rel r_tx obj
                              import_type) obj)
             (fun p => negb (is_relation p)) rp b) l) as (os & E & F)
  end.
  2: { exists (somes os). split; [exact E|]. now apply Forall2_somes_all. }
  intros [role player] Hrp. rewrite outcome_bind.
  match goal with
  | |- exists o, match outcome (for_append ?body ?l) with _ => _ end = _ /\ _ =>
      destruct (for_append_exists body
        (fun p o => if negb (is_relation p)
                    then exists b, o = Some b /\
                      extension_player local_utcoffset strftime_Y r_tx
                        (fun rel => validate_get_relns authorised_mappings self rel r_tx obj
                                      import_type) obj role p b
                    else o = None) l) as (os & E & F)
  end.
  2: { rewrite E. eexists. split; [reflexivity|].
       eexists. split; [reflexivity|]. eexists. split; [reflexivity|].
       cbn [fst snd]. now apply Forall2_somes_filter. }
  intros p Hp. destruct p as [iid label|iid label|a]; cbn [is_relation negb].
  - (* an entity *)
    cbn [read_local]. rewrite bind_ret_l. unfold extension_player.
    cbn [type_name].
    destruct (String.eqb label obj) eqn:T.
    + destruct (process_props_ok local_utcoffset strftime_Y (get_has r_tx (Entity iid label) None))
        as (has & Hhas); [intros a Ha; eapply (proj1 values_ok); exact Ha|].
      match goal with
      | |- context [for_append ?body (get_relations r_tx ?e)] =>
          destruct (for_append_exists body
            (fun rel o => exists v,
               outcome (validate_get_relns authorised_mappings self rel r_tx obj
                          import_type) = Ok v /\
               o = if empty_or_none v then None else Some v)
            (get_relations r_tx e)) as (os & E & F)
      end.
      { intros rel Hrel. rewrite outcome_bind.
        rewrite validate_get_relns_outcome by exact consistent.
        destruct (admitted auth r_tx rel obj) eqn:Adm.
        - apply String.eqb_eq in T.
          destruct (Hself role player (Entity iid label) rel Hrp Hp eq_refl T Hrel Adm)
            as (v & Hv).
          rewrite Hv. eexists. split; [reflexivity|]. now exists v.
        - eexists. split; [reflexivity|]. now exists PNone. }
      destruct (Forall2_somes_nonempty _ _ _ F) as (vs & Fv & Ev).
      eexists. split.
      * rewrite outcome_bind, Hhas, outcome_bind, E. reflexivity.
      * eexists. split; [reflexivity|]. exists has, vs.
        split; [exact Hhas|]. split; [exact Fv|]. now rewrite Ev.
    + eexists. split.
      * reflexivity.
      * eexists. split; [reflexivity|].
        apply (process_entity_reference (Entity iid label) r_tx).
  - (* a relation: logged and left out *)
    eexists. split; reflexivity.
  - (* an attribute *)
    destruct (process_value_ok local_utcoffset strftime_Y a) as (value & Hv).
    { eapply (proj2 values_ok); eassumption. }
    eexists. split.
    + rewrite outcome_bind, Hv. reflexivity.
    + eexists. split; [reflexivity|]. exists value. split; [exact Hv|reflexivity].
Qed.

Lemma reln_map_entity_attribute_ok (r : Concept) (is_kv : bool) :
  exists roles,
    outcome (reln_map_entity_attribute local_utcoffset strftime_Y (get_players_by_role_type
        r_tx r) r_tx
               (get_attribute_type r_tx "stix-id") is_kv) = Ok roles.
Proof.
  unfold reln_map_entity_attribute.
  match goal with
  | |- exists roles, outcome (for_append ?body ?l) = _ =>
      destruct (for_append_exists body (fun _ _ => True) l) as (os & E & _)
  end.
  2: { eexists. exact E. }
  intros [role player] Hrp. rewrite outcome_bind.
  match goal with
  | |- exists o, match outcome (for_append ?body ?l) with _ => _ end = _ /\ _ =>
      destruct (for_append_exists body (fun _ _ => True) l) as (os & E & _)
  end.
  2: { rewrite E. eexists. split; [reflexivity|exact I]. }
  intros p Hp. destruct p as [iid label|iid label|a].
  - eexists. split; [reflexivity|exact I].
  - eexists. split; [reflexivity|exact I].
  - destruct (process_value_ok local_utcoffset strftime_Y a) as (value & Hv).
    { eapply (proj2 values_ok); eassumption. }
    rewrite outcome_bind, Hv. destruct is_kv.
    + destruct (process_props_ok local_utcoffset strftime_Y (get_has r_tx (Attribute a) None))
        as (props & Hprops); [intros x Hx; eapply (proj1 values_ok); exact Hx|].
      rewrite outcome_bind, Hprops. eexists. split; [reflexivity|exact I].
    + eexists. split; [reflexivity|exact I].
Qed.

Lemma for_do_ok {A} (body : A -> M unit) (l : list A) :
  (forall a, In a l -> outcome (body a) = Ok tt) -> outcome (for_do body l) = Ok tt.
Proof.
  induction l as [|a l IH]; intros H; [reflexivity|].
  cbn [for_do]. rewrite outcome_bind, (H a (or_introl eq_refl)).
  apply IH. intros x Hx. apply H. now right.
Qed.

Lemma get_list_of_objects_ok (r : Concept) :
  exists roles,
    outcome (get_list_of_objects local_utcoffset strftime_Y authorised_mappings r r_tx import_type)
    = Ok roles.
Proof.
  unfold get_list_of_objects. rewrite outcome_bind, for_do_ok.
  2: { intros lot Hlot. destruct (String.eqb _ _); [|reflexivity].
       pose proof consistent as C. unfold tables_consistent in C.
       apply andb_prop in C. destruct C as [_ C]. rewrite forallb_forall in C.
       specialize (C lot Hlot). unfold has_key in C.
       destruct (dict_get _ _); [reflexivity|discriminate]. }
  match goal with
  | |- exists roles, outcome (for_append ?body ?l) = _ =>
      destruct (for_append_exists body (fun _ _ => True) l) as (os & E & _)
  end.
  2: { eexists. exact E. }
  intros [role player] Hrp. rewrite outcome_bind.
  match goal with
  | |- exists o, match outcome (for_append ?body ?l) with _ => _ end = _ /\ _ =>
      destruct (for_append_exists body (fun _ _ => True) l) as (os & E & _)
  end.
  2: { rewrite E. eexists. split; [reflexivity|exact I]. }
  intros p Hp. destruct (is_entity p); [|eexists; split; [reflexivity|exact I]].
  destruct (process_props_ok local_utcoffset strftime_Y (get_has r_tx p None))
    as (has & Hhas); [intros x Hx; eapply (proj1 values_ok); exact Hx|].
  rewrite outcome_bind, Hhas, outcome_bind.
  match goal with
  | |- exists o, match outcome (for_append ?body ?l) with _ => _ end = _ /\ _ =>
      destruct (for_append_exists body (fun _ _ => True) l) as (os & E & _)
  end.
  2: { rewrite E. eexists. split; [reflexivity|exact I]. }
  intros rel _. rewrite outcome_bind, reln_map_entity_relation_outcome.
  eexists. split; [reflexivity|exact I].
Qed.

(** The nesting of relations is well founded: [rank] decreases along every
    nested call. *)
Variable rank : Concept -> nat.
Hypothesis ranked : forall r rel, calls auth r_tx r rel -> (rank rel < rank r)%nat.

(** With consistent tables, representable values and well-founded nesting,
    [get_relation_details] returns a record once the depth exceeds the rank. *)
Lemma get_relation_details_returns (depth : nat) : forall r,
  (rank r < depth)%nat ->
  exists v, outcome (details depth r r_tx import_type) = Ok v.
Proof.
  induction depth as [|d IH]; intros r Hr; [lia|].
  rewrite get_relation_details_dispatch.
  destruct (resolve auth (type_name r)) as [[| | | | | |]|] eqn:R.
  - rewrite outcome_bind. unfold get_embedded_relations.
    rewrite reln_map_entity_relation_outcome. eexists. reflexivity.
  - eexists. reflexivity.
  - destruct (reln_map_entity_attribute_ok r true) as (roles & E).
    rewrite outcome_bind. unfold get_key_value_relations. rewrite E.
    eexists. reflexivity.
  - destruct (ext_object_consistent auth _ consistent R) as (obj & Hobj).
    destruct (get_extension_relations_spec (details d) r obj Hobj) as (roles & E & _).
    { intros role player p rel Hrp Hp He Ht Hrel Adm. apply IH.
      assert (C : calls auth r_tx r rel).
      { split; [exact R|]. exists obj, role, player, p. repeat split; assumption. }
      specialize (ranked _ _ C). lia. }
    rewrite outcome_bind, E. eexists. reflexivity.
  - destruct (get_list_of_objects_ok r) as (roles & E).
    rewrite outcome_bind, E. eexists. reflexivity.
  - destruct (reln_map_entity_attribute_ok r false) as (roles & E).
    rewrite outcome_bind. unfold get_granular_marking. rewrite E.
    eexists. reflexivity.
  - rewrite outcome_bind, get_hashes_outcome. eexists. reflexivity.
  - eexists. reflexivity.
Qed.

(** C3, as amended: for a relation resolved to the extension category,
    with consistent tables, representable values and well-founded nesting,
    the decoder returns one binding per role.  Every entity player whose
    type name equals the configured sub-object type, in whichever role, is
    expanded: its record holds its decoded properties and, in order, the
    non-empty results of validating each of its relations.  Every other
    entity player is reduced to a reference with its type name and, when it
    has one, its external identifier.  Every attribute player becomes a
    record with its type name and value and no props.  Relation players are
    left out. *)
Theorem C3_extension_unpacking (depth : nat) (r : Concept) :
  resolve auth (type_name r) = Some extension ->
  (rank r <= depth)%nat ->
  exists obj roles,
    ext_object_of auth (type_name r) = Some obj /\
    outcome (details (S depth) r r_tx import_type) = Ok (with_roles r roles) /\
    Forall2 (role_binding
               (extension_player local_utcoffset strftime_Y r_tx
                  (fun rel => validate_get_relns authorised_mappings (details depth)
                                rel r_tx obj import_type) obj)
               (fun p => negb (is_relation p)))
            (get_players_by_role_type r_tx r) roles.
Proof.
  intros R Hr.
  destruct (ext_object_consistent auth _ consistent R) as (obj & Hobj).
  destruct (get_extension_relations_spec (details depth) r obj Hobj) as (roles & E & F).
  { intros role player p rel Hrp Hp He Ht Hrel Adm.
    apply get_relation_details_returns.
    assert (C : calls auth r_tx r rel).
    { split; [exact R|]. exists obj, role, player, p. repeat split; assumption. }
    specialize (ranked _ _ C). lia. }
  exists obj, roles. split; [exact Hobj|]. split; [|exact F].
  rewrite get_relation_details_dispatch, R, outcome_bind, E. reflexivity.
Qed.

Lemma get_relation_details_not_empty (depth : nat) (r : Concept) (v : pyobj) :
  outcome (details depth r r_tx import_type) = Ok v -> empty_or_none v = false.
Proof.
  destruct depth as [|d]; [discriminate|].
  rewrite get_relation_details_dispatch.
  destruct (resolve auth (type_name r)) as [[| | | | | |]|];
    try (rewrite outcome_bind;
         match goal with
         | |- match outcome ?m with _ => _ end = _ -> _ =>
             destruct (outcome m); [|discriminate]
         end);
    intros H; injection H as <-; reflexivity.
Qed.

(** A nested relation is kept when its validation yields a record that is
    neither [None] nor empty. *)
Lemma validate_get_relns_keeps (depth : nat) (rel : Concept) (obj_name : string) :
  (rank rel < depth)%nat ->
  (exists v,
     outcome (validate_get_relns authorised_mappings (details depth) rel r_tx obj_name
                import_type) = Ok v /\ empty_or_none v = false)
  <-> admitted auth r_tx rel obj_name = true.
Proof.
  intros Hr. rewrite validate_get_relns_outcome by exact consistent.
  destruct (admitted auth r_tx rel obj_name).
  - split; [reflexivity|]. intros _.
    destruct (get_relation_details_returns depth rel Hr) as (v & Hv).
    exists v. split; [exact Hv|]. eapply get_relation_details_not_empty. exact Hv.
  - split; [|discriminate]. intros (v & Hv & E). injection Hv as <-. discriminate E.
Qed.

Lemma get_relation_details_record (depth : nat) (r : Concept) (v : pyobj) :
  outcome (details depth r r_tx import_type) = Ok v -> relation_record auth r v.
Proof.
  destruct depth as [|d]; [discriminate|].
  rewrite get_relation_details_dispatch. unfold relation_record.
  destruct (resolve auth (type_name r)) as [[| | | | | |]|];
    try (rewrite outcome_bind;
         match goal with
         | |- match outcome ?m with _ => _ end = _ -> _ =>
             destruct (outcome m); [|discriminate]
         end);
    intros H; injection H as <-; eexists; (split; [reflexivity|]);
    repeat split; try reflexivity; try discriminate.
Qed.

Lemma process_relns_spec (depth : nat) (reln_types : list Concept) :
  (forall r, In r reln_types -> (rank r < depth)%nat) ->
  exists relns,
    outcome (process_relns local_utcoffset strftime_Y authorised_mappings depth
               reln_types r_tx import_type) = Ok relns /\
    Forall2 (relation_record auth) reln_types relns /\
    forall r, In r reln_types -> resolve auth (type_name r) = None ->
      In (error_relation_name (type_name r))
         (fst (process_relns local_utcoffset strftime_Y authorised_mappings depth
                 reln_types r_tx import_type)).
Proof.
  intros H. unfold process_relns.
  match goal with
  | |- exists relns, outcome (for_append ?body ?l) = _ /\ _ =>
      destruct (for_append_exists body
        (fun r o => exists v, o = Some v /\ relation_record auth r v) l) as (os & E & F)
  end.
  { intros r Hr. destruct (get_relation_details_returns depth r (H r Hr)) as (v & Hv).
    rewrite outcome_bind, Hv. eexists. split; [reflexivity|].
    exists v. split; [reflexivity|]. eapply get_relation_details_record. exact Hv. }
  exists (somes os). split; [exact E|]. split; [now apply Forall2_somes_all|].
  intros r Hr R. apply (for_append_log _ _ _ r _ E Hr). apply log_bind_l.
  specialize (H r Hr). destruct depth as [|d]; [lia|].
  rewrite get_relation_details_dispatch, R. left. reflexivity.
Qed.

Lemma answer_record_binding (depth : nat) (binding : string * Concept) (o : pyobj) :
  answer_record local_utcoffset strftime_Y authorised_mappings depth r_tx import_type
    binding o ->
  binding_record binding o.
Proof.
  intros (has & relns & _ & _ & H). unfold binding_record.
  destruct (is_entity (snd binding)).
  - subst o. eexists. split; [reflexivity|]. repeat split; reflexivity.
  - destruct H as (edges & _ & ->). eexists. split; [reflexivity|].
    repeat split; reflexivity.
Qed.

(** The records and the log of a whole run. *)
Lemma convert_ans_to_res_spec (depth : nat)
    (answer_iterator : list (list (string * Concept))) :
  (forall c, (rank c < depth)%nat) ->
  exists res,
    outcome (convert_ans_to_res local_utcoffset strftime_Y authorised_mappings depth
               answer_iterator r_tx import_type) = Ok res /\
    Forall2 (answer_record local_utcoffset strftime_Y authorised_mappings depth r_tx
               import_type)
            (filter decoded_binding (List.concat answer_iterator)) res /\
    (forall answer key thing,
       In answer answer_iterator -> In (key, thing) answer ->
       decoded_binding (key, thing) = false ->
       In (debug_error_key key thing)
          (fst (convert_ans_to_res local_utcoffset strftime_Y authorised_mappings depth
                  answer_iterator r_tx import_type))) /\
    (forall answer key thing r,
       In answer answer_iterator -> In (key, thing) answer ->
       decoded_binding (key, thing) = true ->
       In r (get_relations r_tx thing) -> resolve auth (type_name r) = None ->
       In (error_relation_name (type_name r))
          (fst (convert_ans_to_res local_utcoffset strftime_Y authorised_mappings depth
                  answer_iterator r_tx import_type))).
Proof.
  intros Hd. unfold convert_ans_to_res.
  match goal with
  | |- context [for_append ?body answer_iterator] => set (outer := body)
  end.
  assert (Inner : forall dict_answer, exists found,
            outcome (outer dict_answer) = Ok (Some found) /\
            Forall2 (answer_record local_utcoffset strftime_Y authorised_mappings depth
                       r_tx import_type)
                    (filter decoded_binding dict_answer) found /\
            (forall key thing,
               In (key, thing) dict_answer -> decoded_binding (key, thing) = false ->
               In (debug_error_key key thing) (fst (outer dict_answer))) /\
            (forall key thing r,
               In (key, thing) dict_answer -> decoded_binding (key, thing) = true ->
               In r (get_relations r_tx thing) -> resolve auth (type_name r) = None ->
               In (error_relation_name (type_name r)) (fst (outer dict_answer)))).
  { intros dict_answer. unfold outer.
    match goal with
    | |- context [for_append ?body dict_answer] => set (inner := body)
    end.
    destruct (for_append_exists inner
      (fun binding o =>
         if decoded_binding binding
         then exists b, o = Some b /\
                answer_record local_utcoffset strftime_Y authorised_mappings depth r_tx
                  import_type binding b
         else o = None) dict_answer) as (os & E & F).
    { intros [key thing] _. unfold inner, decoded_binding, answer_record. cbn [fst snd].
      destruct (process_props_ok local_utcoffset strftime_Y (get_has r_tx thing None))
        as (has & Hhas); [intros x Hx; eapply (proj1 values_ok); exact Hx|].
      destruct (process_relns_spec depth (get_relations r_tx thing))
        as (relns & Hrelns & Frel & _); [intros r _; apply Hd|].
      destruct (is_entity thing) eqn:Ent.
      - rewrite outcome_bind, Hhas, outcome_bind, Hrelns.
        eexists. split; [reflexivity|]. cbn [orb]. eexists. split; [reflexivity|].
        exists has, relns. repeat split; assumption.
      - destruct (is_relation thing) eqn:Rel; cbn [orb].
        + rewrite outcome_bind, Hhas, outcome_bind, Hrelns.
          eexists. split; [reflexivity|]. eexists. split; [reflexivity|].
          exists has, relns. split; [reflexivity|]. split; [exact Frel|].
          eexists. split; [|reflexivity].
          apply Forall2_map_r. intros [role things] _. eexists. split; [reflexivity|].
          cbn [fst snd]. apply Forall2_map_r. intros p _. apply process_entity_reference.
        + eexists. split; reflexivity. }
    exists (somes os). rewrite outcome_bind, E. split; [reflexivity|].
    split; [now apply Forall2_somes_filter|]. split.
    - intros key thing Hin Hdec. apply log_bind_l.
      apply (for_append_log _ _ _ (key, thing) _ E Hin). unfold inner.
      unfold decoded_binding in Hdec. cbn [snd] in Hdec.
      apply orb_false_elim in Hdec. destruct Hdec as [-> ->]. left. reflexivity.
    - intros key thing r Hin Hdec Hr R. apply log_bind_l.
      apply (for_append_log _ _ _ (key, thing) _ E Hin). unfold inner.
      destruct (process_props_ok local_utcoffset strftime_Y (get_has r_tx thing None))
        as (has & Hhas); [intros x Hx; eapply (proj1 values_ok); exact Hx|].
      destruct (process_relns_spec depth (get_relations r_tx thing))
        as (relns & _ & _ & Hlog); [intros c _; apply Hd|].
      unfold decoded_binding in Hdec. cbn [snd] in Hdec.
      destruct (is_entity thing).
      + apply (log_bind_r _ _ has); [exact Hhas|]. apply log_bind_l. now apply Hlog.
      + cbn [orb] in Hdec. rewrite Hdec.
        apply (log_bind_r _ _ has); [exact Hhas|]. apply log_bind_l. now apply Hlog. }
  destruct (for_append_exists outer
    (fun answer o => exists found, o = Some found /\
       Forall2 (answer_record local_utcoffset strftime_Y authorised_mappings depth r_tx
                  import_type)
               (filter decoded_binding answer) found) answer_iterator) as (os & E & F).
  { intros answer _. destruct (Inner answer) as (found & H1 & H2 & _).
    exists (Some found). split; [exact H1|]. now exists found. }
  exists (List.concat (somes os)). rewrite outcome_bind, E. split; [reflexivity|].
  split; [|split].
  - rewrite <- concat_filter_map. apply Forall2_concat.
    apply Forall2_map_l. now apply Forall2_somes_all.
  - intros answer key thing Ha Hin Hdec. apply log_bind_l.
    apply (for_append_log _ _ _ answer _ E Ha).
    destruct (Inner answer) as (_ & _ & _ & L & _). now apply L.
  - intros answer key thing r Ha Hin Hdec Hr R. apply log_bind_l.
    apply (for_append_log _ _ _ answer _ E Ha).
    destruct (Inner answer) as (_ & _ & _ & _ & L). now apply (L key thing r).
Qed.

(** C6, as amended: when every name in a membership set has an entry in its
    detail table and every list-of-objects entry names a known sub-object,
    every datetime value can be moved to UTC (the host resolves the zone of
    a naive value and the result stays within the years 1 to 9999), and the
    nesting of relations is well founded and within the call depth
    available, decoding the answers raises no exception.  It returns one
    record for each binding of an entity or a relation, in the order of the
    answers, with the binding's variable name and the element's internal id
    and type name.  A binding of any other element gets no record and a
    debug record in the log; a relation of unknown category among the
    relations of a bound element gets an error record in the log. *)
Theorem C6_decoding_completes (depth : nat)
    (answer_iterator : list (list (string * Concept))) :
  (forall c, (rank c < depth)%nat) ->
  exists res,
    outcome (convert_ans_to_res local_utcoffset strftime_Y authorised_mappings depth
               answer_iterator r_tx import_type) = Ok res /\
    Forall2 binding_record (filter decoded_binding (List.concat answer_iterator)) res /\
    (forall answer key thing,
       In answer answer_iterator -> In (key, thing) answer ->
       decoded_binding (key, thing) = false ->
       In (debug_error_key key thing)
          (fst (convert_ans_to_res local_utcoffset strftime_Y authorised_mappings depth
                  answer_iterator r_tx import_type))) /\
    (forall answer key thing r,
       In answer answer_iterator -> In (key, thing) answer ->
       decoded_binding (key, thing) = true ->
       In r (get_relations r_tx thing) -> resolve auth (type_name r) = None ->
       In (error_relation_name (type_name r))
          (fst (convert_ans_to_res local_utcoffset strftime_Y authorised_mappings depth
                  answer_iterator r_tx import_type))).
Proof.
  intros Hd.
  destruct (convert_ans_to_res_spec depth answer_iterator Hd) as (res & E & F & L1 & L2).
  exists res. split; [exact E|]. split; [|split; assumption].
  clear E L1 L2. induction F as [|b o l l' H _ IH]; constructor; [|exact IH].
  now apply (answer_record_binding depth).
Qed.

End Extension.

(** ** The sample store meets the side conditions *)

Module SampleFacts.
Import Sample.

Lemma has_of_representable (iid : string) (a : Attr) :
  In a (has_of iid) -> representable local_utcoffset (a_value a) = true.
Proof.
  unfold has_of.
  repeat match goal with
         | |- context [if String.eqb ?x ?y then _ else _] => destruct (String.eqb x y)
         end;
    cbn [In]; intros H; repeat destruct H as [H|H]; subst; try reflexivity;
    try contradiction.
Qed.

Lemma sample_values_ok : values_representable local_utcoffset r_tx.
Proof.
  split.
  - intros c filter a. cbn [get_has r_tx]. destruct filter as [t|].
    + intros H. apply filter_In in H. apply (has_of_representable _ _ (proj1 H)).
    + apply has_of_representable.
  - intros r role player a. cbn [get_players_by_role_type r_tx]. unfold players_of.
    repeat match goal with
           | |- context [if String.eqb ?x ?y then _ else _] => destruct (String.eqb x y)
           end;
      cbn [In]; intros H; repeat destruct H as [H|H]; try contradiction;
      injection H as <- <-; cbn [In]; intros K; repeat destruct K as [K|K];
      try contradiction; discriminate.
Qed.

Lemma resolve_extension_name (name : string) :
  resolve stix21 name = Some extension -> name = "pe-binary-ext".
Proof.
  unfold resolve, str_in. cbn [stix21 auth_reln_name nm_embedded_relations
    nm_standard_relations nm_key_value_relations nm_extension_relations
    nm_list_of_objects existsb].
  destruct (String.eqb_spec name "pe-binary-ext") as [E|N]; [auto|].
  repeat match goal with
         | |- context [String.eqb ?x ?y] => destruct (String.eqb x y)
         end; cbn [orb]; discriminate.
Qed.

Lemma sample_ranked (r rel : Concept) :
  calls stix21 r_tx r rel -> (rank rel < rank r)%nat.
Proof.
  intros (R & obj & role & player & p & Hobj & Hrp & Hp & He & Ht & Hrel & Adm).
  apply resolve_extension_name in R. rewrite R in Hobj.
  injection Hobj as <-. unfold rank at 2. rewrite R. cbn [String.eqb Ascii.eqb Bool.eqb].
  revert Hrel Adm. cbn [get_relations r_tx]. unfold relations_of.
  repeat match goal with
         | |- context [if String.eqb ?x ?y then _ else _] => destruct (String.eqb x y)
         end;
    cbn [In]; intros H; repeat destruct H as [H|H]; try contradiction; subst rel;
    intros Adm; try discriminate Adm; cbn; lia.
Qed.

End SampleFacts.

(** ** The properties on the sample store *)

Section OnSample.
Import Sample.

Local Abbreviation details := (get_relation_details local_utcoffset strftime_Y authorised_mappings).

Lemma C1_embedded_unpacking_witness :
  str_in (type_name ref1)
    (nm_embedded_relations (auth_reln_name (authorised_mappings "stix21"))) = true /\
  exists roles,
    outcome (details 1 ref1 r_tx "stix21")
    = Ok (PDict [("T_name", PStr (type_name ref1)); ("T_id", PStr (get_iid ref1));
                 ("roles", PList roles)]) /\
    Forall2 (role_binding
               (fun _ p o => if is_entity p then entity_reference r_tx p o
                             else relation_stub r_tx p o)
               (fun p => is_entity p || is_relation p))
            (get_players_by_role_type r_tx ref1) roles.
Proof.
  split; [reflexivity|].
  apply (C1_embedded_unpacking local_utcoffset strftime_Y authorised_mappings 0 ref1 r_tx "stix21").
  reflexivity.
Defined.

(** C1 as stated fails: [uses1], a relation, fills a role of the embedded
    relation [ref1]; its record in the player list is a shallow one, not the
    record that resolving [uses1] gives. *)
Lemma C1_relation_player_not_unpacked :
  resolve (authorised_mappings "stix21") (type_name ref1) = Some embedded /\
  get_players_by_role_type r_tx ref1 = [("object", [report1]); ("referred", [uses1])] /\
  details 2 ref1 r_tx "stix21"
  = ret (with_roles ref1
           [PDict [("role", PStr "object");
                   ("player", PList [PDict [("type", PStr "entity");
                                            ("tql", PStr "report")]])];
            PDict [("role", PStr "referred");
                   ("player", PList [PDict [("type", PStr "attribute");
                                            ("tql", PStr "uses");
                                            ("stix_id", PStr "relationship--1")]])]]) /\
  details 1 uses1 r_tx "stix21" = ret (with_roles uses1 []) /\
  with_roles uses1 []
  <> PDict [("type", PStr "attribute"); ("tql", PStr "uses");
            ("stix_id", PStr "relationship--1")].
Proof. repeat split; try reflexivity. discriminate. Qed.

Lemma C3_extension_unpacking_witness :
  tables_consistent (authorised_mappings "stix21") = true /\
  values_representable local_utcoffset r_tx /\
  (forall r rel, calls (authorised_mappings "stix21") r_tx r rel ->
                 (rank rel < rank r)%nat) /\
  resolve (authorised_mappings "stix21") (type_name ext1) = Some extension /\
  (rank ext1 <= 1)%nat /\
  exists obj roles,
    ext_object_of (authorised_mappings "stix21") (type_name ext1) = Some obj /\
    outcome (details 2 ext1 r_tx "stix21") = Ok (with_roles ext1 roles) /\
    Forall2 (role_binding
               (extension_player local_utcoffset strftime_Y r_tx
                  (fun rel => validate_get_relns authorised_mappings (details 1)
                                rel r_tx obj "stix21") obj)
               (fun p => negb (is_relation p)))
            (get_players_by_role_type r_tx ext1) roles.
Proof.
  split; [reflexivity|]. split; [exact SampleFacts.sample_values_ok|].
  split; [exact SampleFacts.sample_ranked|]. split; [reflexivity|].
  split; [apply Nat.le_refl|].
  apply (C3_extension_unpacking local_utcoffset strftime_Y authorised_mappings r_tx "stix21"
           eq_refl SampleFacts.sample_values_ok rank SampleFacts.sample_ranked 1 ext1 eq_refl).
  apply Nat.le_refl.
Defined.

(** C3 as stated fails: the table names [file] as the owner role of
    [pe-binary-ext]; [pe1] fills the other role, [pebinary], and is expanded
    all the same, because its type is the configured sub-object type. *)
Lemma C3_expanded_outside_owner_role :
  owner_role_of (authorised_mappings "stix21") (type_name ext1) = Some "file" /\
  ext_object_of (authorised_mappings "stix21") (type_name ext1)
    = Some "windows-pebinary-ext" /\
  outcome (details 2 ext1 r_tx "stix21")
  = Ok (with_roles ext1
          [PDict [("role", PStr "file"); ("player", PList [file1_reference])];
           PDict [("role", PStr "pebinary"); ("player", PList [pe1_record])]]) /\
  ~ entity_reference r_tx pe1 pe1_record.
Proof.
  repeat split; try reflexivity.
  intros (d & E & _ & _ & _ & K). injection E as <-.
  specialize (K "has" ltac:(discriminate) ltac:(discriminate) ltac:(discriminate)).
  discriminate K.
Qed.

Lemma C5_unknown_relation_witness :
  resolve (authorised_mappings "stix21") (type_name odd1) = None /\
  details 1 odd1 r_tx "stix21"
    = ([error_relation_name (type_name odd1)],
       Ok (PDict [("T_name", PStr (type_name odd1)); ("T_id", PStr (get_iid odd1))])) /\
  empty_or_none (PDict [("T_name", PStr (type_name odd1)); ("T_id", PStr (get_iid odd1))])
    = false /\
  process_relns local_utcoffset strftime_Y authorised_mappings 1 [odd1] r_tx "stix21"
    = ([error_relation_name (type_name odd1)],
       Ok [PDict [("T_name", PStr (type_name odd1)); ("T_id", PStr (get_iid odd1))]]).
Proof.
  split; [reflexivity|].
  apply (C5_unknown_relation local_utcoffset strftime_Y authorised_mappings 0 odd1 r_tx "stix21").
  reflexivity.
Defined.

(** C5 as stated fails: the result for the unknown type [mystery] is not
    empty, and the caller's list holds it. *)
Lemma C5_unknown_result_not_empty :
  resolve (authorised_mappings "stix21") "mystery" = None /\
  details 1 odd1 r_tx "stix21"
    = ([error_relation_name "mystery"],
       Ok (PDict [("T_name", PStr "mystery"); ("T_id", PStr "0xr7")])) /\
  PDict [("T_name", PStr "mystery"); ("T_id", PStr "0xr7")] <> PDict [] /\
  outcome (process_relns local_utcoffset strftime_Y authorised_mappings 1 [odd1] r_tx "stix21")
    <> Ok [].
Proof. repeat split; try reflexivity; discriminate. Qed.

Lemma C7_standard_roles_empty_witness :
  resolve (authorised_mappings "stix21") (type_name uses1) = Some standard /\
  (str_in (type_name uses1)
     (nm_standard_relations (auth_reln_name (authorised_mappings "stix21"))) = true
   \/ type_name uses1 = "sighting") /\
  get_standard_relations uses1 r_tx = [] /\
  details 1 uses1 r_tx "stix21"
  = ret (PDict [("T_name", PStr (type_name uses1)); ("T_id", PStr (get_iid uses1));
                ("roles", PList (get_standard_relations uses1 r_tx))]).
Proof.
  split; [reflexivity|].
  apply (C7_standard_roles_empty local_utcoffset strftime_Y authorised_mappings 0 uses1
           r_tx "stix21").
  reflexivity.
Defined.

Lemma C10_hashes_players_witness :
  resolve (authorised_mappings "stix21") (type_name hs1) = Some hashes /\
  exists roles,
    outcome (details 1 hs1 r_tx "stix21") = Ok (with_roles hs1 roles) /\
    Forall2 (role_binding (hash_player r_tx) is_entity)
            (get_players_by_role_type r_tx hs1) roles.
Proof.
  split; [reflexivity|].
  apply (C10_hashes_players local_utcoffset strftime_Y authorised_mappings 0 hs1 r_tx "stix21").
  reflexivity.
Defined.

(** C10 as stated fails: [pe1], the owner of the hashes relation [hs1], has
    no [stix-id] attribute, and its record carries no external identifier. *)
Lemma C10_owner_without_identifier :
  resolve (authorised_mappings "stix21") (type_name hs1) = Some hashes /\
  get_has r_tx pe1 (get_attribute_type r_tx "stix-id") = [] /\
  outcome (details 1 hs1 r_tx "stix21") = Ok hs1_record /\
  dict_get "stix_id" [("type", PStr "entity"); ("tql", PStr "windows-pebinary-ext")]
    = None.
Proof. repeat split; reflexivity. Qed.

Lemma C8_datetime_decoding_witness :
  PyDatetime.utcoffset local_utcoffset new_year = Ok (7200 * PyDatetime.US_PER_SECOND) /\
  PyDatetime.ymd2ord 1 1 1 * PyDatetime.US_PER_DAY
    <= PyDatetime.instant_us new_year (7200 * PyDatetime.US_PER_SECOND)
    < (PyDatetime.ymd2ord 9999 12 31 + 1) * PyDatetime.US_PER_DAY /\
  exists u frac,
    PyDatetime.astimezone_utc local_utcoffset new_year = Ok u /\
    PyDatetime.valid u = true /\ PyDatetime.tzinfo u = Some 0 /\
    PyDatetime.instant_us u 0
    = PyDatetime.instant_us new_year (7200 * PyDatetime.US_PER_SECOND) /\
    process_props local_utcoffset strftime_Y
      [mk_attr "0xa03" "created" (VDatetime new_year)]
    = ret [PDict [("typeql", PStr "created");
                  ("value", PStr (strftime_Y (PyDatetime.year u) ++ "-"
                     ++ PyStr.fmt_0d 2 (PyDatetime.month u) ++ "-"
                     ++ PyStr.fmt_0d 2 (PyDatetime.day u) ++ "T"
                     ++ PyStr.fmt_0d 2 (PyDatetime.hour u) ++ ":"
                     ++ PyStr.fmt_0d 2 (PyDatetime.minute u) ++ ":"
                     ++ PyStr.fmt_0d 2 (PyDatetime.second u) ++ "."
                     ++ frac ++ "Z"));
                  ("datetime", PTrue)]] /\
    String.length frac = 6%nat /\
    forallb PyStr.is_digit (list_ascii_of_string frac) = true /\
    PyStr.digits_value frac = PyDatetime.microsecond u.
Proof.
  assert (R : PyDatetime.ymd2ord 1 1 1 * PyDatetime.US_PER_DAY
              <= PyDatetime.instant_us new_year (7200 * PyDatetime.US_PER_SECOND)
              < (PyDatetime.ymd2ord 9999 12 31 + 1) * PyDatetime.US_PER_DAY).
  { split; [vm_compute; discriminate | vm_compute; reflexivity]. }
  split; [reflexivity|]. split; [exact R|].
  exact (C8_datetime_decoding local_utcoffset strftime_Y "0xa03" "created" new_year
           (7200 * PyDatetime.US_PER_SECOND) eq_refl R).
Defined.

(** C8 as stated fails: midnight of 1 January of year 1 at offset +02:00 is
    a well-formed datetime; moved to UTC it falls before year 1, and the
    decoder raises [OverflowError] instead of producing a value.  The same
    midnight as a naive value, on a host whose zone is UTC, denotes an
    instant of year 1; there the lookup of the local zone fails and the
    decoder raises [ValueError]. *)
Lemma C8_first_day_overflows :
  PyDatetime.valid first_day = true /\
  process_props local_utcoffset strftime_Y
    [mk_attr "0xa08" "created" (VDatetime first_day)]
  = raise OverflowError /\
  PyDatetime.valid naive_first_day = true /\
  process_props local_utcoffset strftime_Y
    [mk_attr "0xa08" "created" (VDatetime naive_first_day)]
  = raise ValueError.
Proof. repeat split; reflexivity. Qed.

(** C9 as stated fails: a run of four backslashes decodes to two, and
    decoding that value again gives one. *)
Lemma C9_decoding_not_idempotent :
  process_props local_utcoffset strftime_Y [mk_attr "0xa09" "name" (VString (PyStr.bs2 ++
      PyStr.bs2))]
  = ret [PDict [("typeql", PStr "name"); ("value", PStr PyStr.bs2);
                ("datetime", PFalse)]] /\
  process_props local_utcoffset strftime_Y [mk_attr "0xa09" "name" (VString PyStr.bs2)]
  = ret [PDict [("typeql", PStr "name"); ("value", PStr PyStr.bs1);
                ("datetime", PFalse)]] /\
  PyStr.bs1 <> PyStr.bs2.
Proof. repeat split; try reflexivity. discriminate. Qed.

(** C2: the list-of-objects handler does not validate.  [ads1] fills a role
    of the list-of-objects relation [lo1]; the only relation of [ads1] is
    [lo1] itself, whose owner role [ntfs-ext] is filled by an entity of
    another type.  The validation of the extension handler rejects it; the
    list-of-objects handler keeps it among the relations of [ads1]. *)
Theorem C2_list_of_objects_keeps_unvalidated :
  resolve (authorised_mappings "stix21") (type_name lo1) = Some list_of_objects_category /\
  get_relations r_tx ads1 = [lo1] /\
  owner_role_of (authorised_mappings "stix21") (type_name lo1) = Some "ntfs-ext" /\
  validate_get_relns authorised_mappings (details 1) lo1 r_tx "alternate-data-stream"
    "stix21" = ret PNone /\
  outcome (details 1 lo1 r_tx "stix21")
  = Ok (with_roles lo1
          [PDict [("role", PStr "ntfs-ext");
                  ("player", PList [PDict [("type", PStr "entity");
                                           ("tql", PStr "ntfs-ext");
                                           ("has", PList []); ("relns", PList [])]])];
           PDict [("role", PStr "alt-stream");
                  ("player", PList
                     [PDict [("type", PStr "entity");
                             ("tql", PStr "alternate-data-stream");
                             ("has", PList [PDict [("typeql", PStr "name");
                                                   ("value", PStr "stream");
                                                   ("datetime", PFalse)]]);
                             ("relns", PList [lo1_nested])]])]]).
Proof. repeat split; reflexivity. Qed.

(** C4: [file_header_hashes] belongs to the hashes category of the
    resolver, yet the validation has no branch for it: it logs an error and
    yields [None], so the relation is dropped from the sub-object [pe1]. *)
Theorem C4_file_header_hashes_dropped :
  resolve (authorised_mappings "stix21") (type_name fhh1) = Some hashes /\
  In fhh1 (get_relations r_tx pe1) /\
  validate_get_relns authorised_mappings (details 1) fhh1 r_tx "windows-pebinary-ext"
    "stix21" = ([error_relation_name "file_header_hashes"], Ok PNone) /\
  outcome (details 2 ext1 r_tx "stix21")
  = Ok (with_roles ext1
          [PDict [("role", PStr "file"); ("player", PList [file1_reference])];
           PDict [("role", PStr "pebinary"); ("player", PList [pe1_record])]]) /\
  pe1_record
  = PDict [("type", PStr "entity"); ("tql", PStr "windows-pebinary-ext");
           ("has", PList [PDict [("typeql", PStr "imphash"); ("value", PStr "abc");
                                 ("datetime", PFalse)]]);
           ("relns", PList [hs1_record])].
Proof. repeat split; try reflexivity. right. left. reflexivity. Qed.

Lemma C6_decoding_completes_witness :
  tables_consistent (authorised_mappings "stix21") = true /\
  values_representable local_utcoffset r_tx /\
  (forall r rel, calls (authorised_mappings "stix21") r_tx r rel ->
                 (rank rel < rank r)%nat) /\
  (forall c, (rank c < 2)%nat) /\
  exists res,
    outcome (convert_ans_to_res local_utcoffset strftime_Y authorised_mappings 2
               sample_answers r_tx "stix21") = Ok res /\
    Forall2 binding_record (filter decoded_binding (List.concat sample_answers)) res /\
    (forall answer key thing,
       In answer sample_answers -> In (key, thing) answer ->
       decoded_binding (key, thing) = false ->
       In (debug_error_key key thing)
          (fst (convert_ans_to_res local_utcoffset strftime_Y authorised_mappings 2
                  sample_answers r_tx "stix21"))) /\
    (forall answer key thing r,
       In answer sample_answers -> In (key, thing) answer ->
       decoded_binding (key, thing) = true ->
       In r (get_relations r_tx thing) ->
       resolve (authorised_mappings "stix21") (type_name r) = None ->
       In (error_relation_name (type_name r))
          (fst (convert_ans_to_res local_utcoffset strftime_Y authorised_mappings 2
                  sample_answers r_tx "stix21"))).
Proof.
  assert (B : forall c, (rank c < 2)%nat).
  { intros c. unfold rank. destruct (String.eqb _ _); lia. }
  split; [reflexivity|]. split; [exact SampleFacts.sample_values_ok|].
  split; [exact SampleFacts.sample_ranked|]. split; [exact B|].
  exact (C6_decoding_completes local_utcoffset strftime_Y authorised_mappings r_tx "stix21"
           eq_refl SampleFacts.sample_values_ok rank SampleFacts.sample_ranked 2
           sample_answers B).
Defined.

(** C6 as stated fails: with [pe-binary-ext] in the extension set and no
    entry for it in the extension table, decoding an answer that binds
    [file1] raises: the local [reln_object] is read before any assignment,
    and the exception reaches the caller of [convert_ans_to_res].  So does
    the [OverflowError] of a datetime that leaves the supported years when
    moved to UTC, with the tables in order. *)
Lemma C6_missing_entry_raises :
  str_in "pe-binary-ext" (nm_extension_relations (auth_reln_name stix21_no_entry)) = true /\
  extension_relations (auth_reln stix21_no_entry) = [] /\
  convert_ans_to_res local_utcoffset strftime_Y (fun _ => stix21_no_entry) 10
    [[("x", file1)]] r_tx "stix21"
  = raise (UnboundLocalError "reln_object") /\
  convert_ans_to_res local_utcoffset strftime_Y authorised_mappings 10
    [[("x", old1)]] r_tx_first_day "stix21"
  = raise OverflowError.
Proof. repeat split; reflexivity. Qed.

End OnSample.

(** * Further properties *)

(** ** The monad laws *)

Lemma bind_assoc {A B C} (m : M A) (f : A -> M B) (g : B -> M C) :
  bind (bind m f) g = bind m (fun a => bind (f a) g).
Proof.
  destruct m as [l [a|e]]; [|reflexivity]. cbn.
  destruct (f a) as [l2 [b|e]]; cbn; [|reflexivity].
  destruct (g b) as [l3 r]. now rewrite app_assoc.
Qed.

Lemma bind_ext {A B} (m : M A) (f g : A -> M B) :
  (forall a, f a = g a) -> bind m f = bind m g.
Proof. intros H. destruct m as [l [a|e]]; [|reflexivity]. cbn. now rewrite H. Qed.

Lemma bind_ret_r {A} (m : M A) : bind m (fun a => ret a) = m.
Proof. destruct m as [l [a|e]]; cbn; [|reflexivity]. now rewrite app_nil_r. Qed.

(** ** Property lists *)

Section PropertyLists.

Variable local_utcoffset : PyDatetime.datetime -> result Z.
Variable strftime_Y : Z -> string.

Lemma process_prop_record (a : Attr) (prop : pyobj) :
  outcome (process_prop local_utcoffset strftime_Y a) = Ok prop ->
  prop_record local_utcoffset strftime_Y a prop.
Proof.
  unfold process_prop, utc_string, prop_record.
  destruct (a_value a) as [b|n|bits|s|dt] eqn:V; cbn.
  1-4: intros H; injection H as <-; eexists; split; reflexivity.
  destruct (PyDatetime.astimezone_utc local_utcoffset dt) as [u|]; cbn; [|discriminate].
  intros H. injection H as <-. eexists. split; [reflexivity|]. now exists u.
Qed.

Lemma process_props_cons (a : Attr) (attrs : list Attr) :
  process_props local_utcoffset strftime_Y (a :: attrs) =
  bind (process_prop local_utcoffset strftime_Y a) (fun prop =>
  bind (process_props local_utcoffset strftime_Y attrs) (fun rest => ret (prop :: rest))).
Proof.
  unfold process_props. cbn [for_append].
  rewrite bind_assoc. apply bind_ext. intros prop. now rewrite bind_ret_l.
Qed.

Lemma process_prop_cases (a : Attr) :
  (representable local_utcoffset (a_value a) = true /\
   exists prop, process_prop local_utcoffset strftime_Y a = ret prop) \/
  (representable local_utcoffset (a_value a) = false /\
   exists dt e, a_value a = VDatetime dt /\
                PyDatetime.astimezone_utc local_utcoffset dt = Raise e /\
                process_prop local_utcoffset strftime_Y a = raise e).
Proof.
  unfold process_prop, utc_string, representable.
  destruct (a_value a) as [b|n|bits|s|dt];
    try (left; split; [reflexivity|]; eexists; reflexivity).
  destruct (PyDatetime.astimezone_utc local_utcoffset dt) as [u|e] eqn:A.
  - left. split; [reflexivity|]. eexists. reflexivity.
  - right. split; [reflexivity|]. exists dt, e. repeat split; try reflexivity; exact A.
Qed.

(** The attribute [a] is the first of [props_obj] whose datetime cannot be
    moved to UTC, and the conversion raises [e]. *)
Local Abbreviation first_failure props_obj e :=
  (exists l1 a l2 dt,
     props_obj = (l1 ++ a :: l2)%list /\
     (forall x, In x l1 -> representable local_utcoffset (a_value x) = true) /\
     a_value a = VDatetime dt /\
     PyDatetime.astimezone_utc local_utcoffset dt = Raise e).

Lemma process_props_cases (props_obj : list Attr) :
  ((forall a, In a props_obj -> representable local_utcoffset (a_value a) = true) /\
   exists props, process_props local_utcoffset strftime_Y props_obj = ret props /\
                 Forall2 (prop_record local_utcoffset strftime_Y) props_obj props) \/
  (exists e, first_failure props_obj e /\
             process_props local_utcoffset strftime_Y props_obj = raise e).
Proof.
  induction props_obj as [|a attrs IH].
  - left. split; [intros a []|]. exists []. split; [reflexivity|constructor].
  - rewrite process_props_cons.
    destruct (process_prop_cases a) as [(R & prop & P)|(R & dt & e & V & A & P)].
    + rewrite P, bind_ret_l.
      destruct IH as [(F & rest & Q & S)|(e & (l1 & x & l2 & dt & E & G & V & A) & Q)];
        rewrite Q.
      * left. split; [intros y [<-|Hy]; auto|].
        exists (prop :: rest). split; [reflexivity|].
        constructor; [|exact S]. apply process_prop_record. now rewrite P.
      * right. exists e. split; [|reflexivity].
        exists (a :: l1), x, l2, dt. rewrite E. split; [reflexivity|].
        split; [intros y [<-|Hy]; auto|]. now split.
    + right. exists e. rewrite P. split; [|reflexivity].
      exists [], a, attrs, dt. split; [reflexivity|]. split; [intros y []|]. now split.
Qed.

(** X1: [process_props] fails exactly when the datetime of some attribute
    cannot be moved to UTC, and then with the exception that the conversion
    of the first such attribute raises: the one of the host's zone lookup
    on a naive value, or [OverflowError] when the value leaves the years 1
    to 9999.  Nothing of the list is returned then.  The function writes no
    log record. *)
Theorem process_props_fails_iff (props_obj : list Attr) :
  (forall e, process_props local_utcoffset strftime_Y props_obj = raise e <->
             first_failure props_obj e) /\
  (forall e, outcome (process_props local_utcoffset strftime_Y props_obj) = Raise e ->
     e = OverflowError \/
     exists a dt, In a props_obj /\ a_value a = VDatetime dt /\
                  PyDatetime.tzinfo dt = None /\ local_utcoffset dt = Raise e) /\
  fst (process_props local_utcoffset strftime_Y props_obj) = [].
Proof.
  assert (U : forall e e', first_failure props_obj e -> first_failure props_obj e' -> e = e').
  { intros e e' (l1 & a & l2 & dt & E & G & V & A) (l1' & a' & l2' & dt' & E' & G' & V' & A').
    assert (B : representable local_utcoffset (a_value a) = false)
      by (unfold representable; now rewrite V, A).
    assert (B' : representable local_utcoffset (a_value a') = false)
      by (unfold representable; now rewrite V', A').
    rewrite E in E'. clear E. revert l1' E' G'.
    induction l1 as [|x l1 IH]; intros [|x' l1'] E' G'; cbn [app] in E'.
    - injection E' as <- _. congruence.
    - injection E' as <- _. rewrite (G' a (or_introl eq_refl)) in B. discriminate.
    - injection E' as -> _. rewrite (G a' (or_introl eq_refl)) in B'. discriminate.
    - injection E' as _ E'. apply (IH (fun y Hy => G y (or_intror Hy)) l1' E').
      intros y Hy. apply G'. now right. }
  destruct (process_props_cases props_obj)
    as [(F & props & Q & _)|(e0 & D & Q)]; rewrite Q.
  - split; [|split; [discriminate|reflexivity]].
    intros e. split; [discriminate|].
    intros (l1 & a & l2 & dt & E & G & V & A). exfalso.
    assert (B : representable local_utcoffset (a_value a) = true)
      by (apply F; rewrite E; apply in_or_app; right; now left).
    unfold representable in B. rewrite V, A in B. discriminate.
  - split; [|split; [|reflexivity]].
    + intros e. split.
      * intros H. injection H as <-. exact D.
      * intros H. now rewrite (U e e0 H D).
    + intros e H. injection H as <-.
      destruct D as (l1 & a & l2 & dt & E & G & V & A).
      destruct (PyDatetimeFacts.astimezone_utc_raises _ _ _ A) as [L|[-> _]]; [|now left].
      right. exists a, dt. split; [rewrite E; apply in_or_app; right; now left|].
      split; [exact V|]. unfold PyDatetime.utcoffset in L.
      destruct (PyDatetime.tzinfo dt); [discriminate|]. now split.
Qed.

Lemma process_props_ret (props_obj : list Attr) :
  (forall a, In a props_obj -> representable local_utcoffset (a_value a) = true) ->
  exists props, process_props local_utcoffset strftime_Y props_obj = ret props.
Proof.
  intros H.
  destruct (process_props_cases props_obj)
    as [(_ & props & R & _)|(e & (l1 & a & l2 & dt & E & G & V & A) & _)];
    [now exists props|].
  assert (B : representable local_utcoffset (a_value a) = true)
    by (apply H; rewrite E; apply in_or_app; right; now left).
  unfold representable in B. rewrite V, A in B. discriminate.
Qed.

(** X2: when every value is representable, [process_props] returns one
    record per attribute, in the order given.  Each record holds the
    attribute's type name, its value (a datetime as its UTC string, a string
    decoded, any other value as it is) and a flag that is true exactly for a
    datetime. *)
Theorem process_props_records (props_obj : list Attr) :
  (forall a, In a props_obj -> representable local_utcoffset (a_value a) = true) ->
  exists props,
    process_props local_utcoffset strftime_Y props_obj = ret props /\
    Forall2 (prop_record local_utcoffset strftime_Y) props_obj props.
Proof.
  intros H.
  destruct (process_props_cases props_obj)
    as [(_ & R)|(e & (l1 & a & l2 & dt & E & G & V & A) & _)]; [exact R|].
  assert (B : representable local_utcoffset (a_value a) = true)
    by (apply H; rewrite E; apply in_or_app; right; now left).
  unfold representable in B. rewrite V, A in B. discriminate.
Qed.

(** X3: an attribute that fills a role is rendered by [process_value]: for
    a value that is not a string it is the value [process_props] records for
    the same attribute, and both fail together.  A string is returned as it
    is, without the decoding [process_props] applies, so the two differ
    exactly on strings that hold a pair of backslashes. *)
Theorem process_value_and_props (p : Attr) :
  (is_string (a_value p) = false ->
   process_props local_utcoffset strftime_Y [p] =
   bind (process_value local_utcoffset strftime_Y p) (fun value =>
     ret [PDict [("typeql", PStr (a_label p)); ("value", value);
                 ("datetime", PVal (VBool (is_datetime (a_value p))))]])) /\
  (forall s, a_value p = VString s ->
     process_value local_utcoffset strftime_Y p = ret (PStr s) /\
     process_props local_utcoffset strftime_Y [p] =
       ret [PDict [("typeql", PStr (a_label p)); ("value", PStr (PyStr.decode s));
                   ("datetime", PFalse)]] /\
     (PyStr.decode s = s <-> PyStr.contains PyStr.bs2 s = false)).
Proof.
  split.
  - intros S. rewrite process_props_one. unfold process_prop, process_value.
    destruct (a_value p) as [b|n|bits|s|dt]; try discriminate; try reflexivity.
    rewrite !bind_assoc. apply bind_ext. intros v. now rewrite !bind_ret_l.
  - intros s V. rewrite process_props_one. unfold process_prop, process_value. rewrite V.
    repeat split; try reflexivity; apply PyStrFacts.decode_fixed_iff.
Qed.

End PropertyLists.

(** ** Entity references *)

Lemma dict_set_new (k : string) (v : pyobj) (d : dict) :
  dict_get k d = None -> dict_set k v d = (d ++ [(k, v)])%list.
Proof.
  induction d as [|[k' v'] d IH]; [reflexivity|]. cbn.
  destruct (String.eqb k k'); [discriminate|]. intros H. now rewrite IH.
Qed.

Lemma dict_set_last (k : string) (v w : pyobj) (d : dict) :
  dict_get k d = None -> dict_set k v (d ++ [(k, w)])%list = (d ++ [(k, v)])%list.
Proof.
  induction d as [|[k' v'] d IH]; cbn.
  - now rewrite String.eqb_refl.
  - destruct (String.eqb k k'); [discriminate|]. intros H. now rewrite IH.
Qed.

Lemma fold_set_record (k : string) (attrs : list Attr) (d : dict) :
  dict_get k d = None ->
  fold_left (fun play attr => dict_set k (PVal (a_value attr)) play) attrs d
  = (d ++ match last_error attrs with
          | Some a => [(k, PVal (a_value a))]
          | None => []
          end)%list.
Proof.
  intros H. unfold last_error. induction attrs as [|a l IH] using rev_ind.
  - cbn. now rewrite app_nil_r.
  - rewrite fold_left_app, rev_app_distr. cbn [fold_left rev app]. rewrite IH.
    destruct (rev l) as [|b t].
    + rewrite app_nil_r. now apply dict_set_new.
    + now apply dict_set_last.
Qed.

(** X4: the reference [process_entity] builds holds the kind and the
    declared type name of the entity and, when the transaction lists
    identifier attributes for it, the value of the last one listed; with
    none listed the reference has no identifier entry at all. *)
Theorem process_entity_last_wins (thing : Concept) (r_tx : Transaction)
    (stix_id : option string) :
  process_entity thing r_tx stix_id
  = PDict ([("type", PStr "entity"); ("tql", PStr (type_name thing))]
           ++ match last_error (get_has r_tx thing stix_id) with
              | Some attr => [("stix_id", PVal (a_value attr))]
              | None => []
              end).
Proof. unfold process_entity. now rewrite fold_set_record. Qed.

(** ** Handlers that cannot fail, and what they log *)

Lemma for_append_full {A B} (body : A -> M (option B)) (lg : A -> list LogRecord)
    (l : list A) (os : list (option B)) :
  Forall2 (fun a o => body a = (lg a, Ok o)) l os ->
  for_append body l = (flat_map lg l, Ok (somes os)).
Proof.
  induction 1 as [|a o l os Ha _ IH]; [reflexivity|].
  cbn [for_append flat_map]. rewrite Ha, IH. cbn. rewrite app_nil_r.
  destruct o; reflexivity.
Qed.

Lemma for_append_full_exists {A B} (body : A -> M (option B)) (lg : A -> list LogRecord)
    (P : A -> option B -> Prop) (l : list A) :
  (forall a, In a l -> exists o, body a = (lg a, Ok o) /\ P a o) ->
  exists os, for_append body l = (flat_map lg l, Ok (somes os)) /\ Forall2 P l os.
Proof.
  intros H.
  assert (E : exists os, Forall2 (fun a o => body a = (lg a, Ok o) /\ P a o) l os).
  { induction l as [|a l IH].
    - exists []. constructor.
    - destruct (H a (or_introl eq_refl)) as (o & Ho).
      destruct IH as (os & Hos); [intros x Hx; apply H; now right|].
      exists (o :: os). now constructor. }
  destruct E as (os & F). exists os. split.
  - apply for_append_full. clear H. induction F as [|a o l' os' [Ha _] _ IH]; constructor; auto.
  - clear H. induction F as [|a o l' os' [_ Hp] _ IH]; constructor; auto.
Qed.

Lemma flat_map_skipped (skipped : Concept -> bool) (player : list Concept) :
  flat_map (fun p => if skipped p then [debug_not_entity p] else []) player
  = map debug_not_entity (filter skipped player).
Proof.
  induction player as [|p l IH]; [reflexivity|].
  cbn [flat_map filter]. rewrite IH. destruct (skipped p); reflexivity.
Qed.

Lemma flat_map_ext_in {A B} (f g : A -> list B) (l : list A) :
  (forall a, In a l -> f a = g a) -> flat_map f l = flat_map g l.
Proof.
  induction l as [|a l IH]; intros H; [reflexivity|].
  cbn [flat_map]. rewrite (H a (or_introl eq_refl)), IH; [reflexivity|].
  intros x Hx. apply H. now right.
Qed.

(** X5: [get_embedded_relations] never fails.  It returns one binding per
    role, in the transaction's order, and its log holds exactly one debug
    record for each attribute player, in order: the players it leaves out. *)
Theorem get_embedded_relations_total (r : Concept) (r_tx : Transaction) :
  exists roles,
    get_embedded_relations r r_tx
    = (left_out is_attribute (get_players_by_role_type r_tx r), Ok roles) /\
    Forall2 (role_binding
               (fun _ p o => if is_entity p then entity_reference r_tx p o
                             else relation_stub r_tx p o)
               (fun p => negb (is_attribute p)))
            (get_players_by_role_type r_tx r) roles.
Proof.
  unfold get_embedded_relations, reln_map_entity_relation, left_out.
  match goal with
  | |- exists roles, for_append ?body ?l = _ /\ _ =>
      destruct (for_append_full_exists body
        (fun rp => map debug_not_entity (filter is_attribute (snd rp)))
        (fun rp o => exists b, o = Some b /\
           role_binding
             (fun _ p o => if is_entity p then entity_reference r_tx p o
                           else relation_stub r_tx p o)
             (fun p => negb (is_attribute p)) rp b) l) as (os & E & F)
  end.
  2: { exists (somes os). split; [exact E|]. now apply Forall2_somes_all. }
  intros [role player] _.
  match goal with
  | |- exists o, bind (for_append ?body ?l) _ = _ /\ _ =>
      destruct (for_append_full_exists body
        (fun p => if is_attribute p then [debug_not_entity p] else [])
        (fun p o => if negb (is_attribute p)
                    then exists b, o = Some b /\
                      (if is_entity p then entity_reference r_tx p b
                       else relation_stub r_tx p b)
                    else o = None) l) as (os & E & F)
  end.
  2: { rewrite E, flat_map_skipped. eexists. split.
       - cbn. rewrite app_nil_r. reflexivity.
       - eexists. split; [reflexivity|]. eexists. split; [reflexivity|].
         cbn [fst snd]. now apply Forall2_somes_filter. }
  intros p _. destruct p as [iid label|iid label|a]; cbn [is_entity is_relation is_attribute negb].
  - eexists. split; [reflexivity|]. eexists. split; [reflexivity|].
    apply process_entity_reference.
  - eexists. split; [reflexivity|]. eexists. split; [reflexivity|].
    apply process_relation_stub.
  - eexists. split; reflexivity.
Qed.

(** ** Key-value pairs and granular markings *)

Section EntityAttribute.

Variable local_utcoffset : PyDatetime.datetime -> result Z.
Variable strftime_Y : Z -> string.
Variable authorised_mappings : string -> Auth.
Variable r_tx : Transaction.
Variable import_type : string.

Lemma process_value_ret (a : Attr) :
  representable local_utcoffset (a_value a) = true ->
  exists value, process_value local_utcoffset strftime_Y a = ret value.
Proof.
  unfold process_value, utc_string, representable.
  destruct (a_value a) as [b|n|bits|s|dt]; try (intros _; eexists; reflexivity).
  destruct (PyDatetime.astimezone_utc local_utcoffset dt); [|discriminate].
  intros _. eexists. reflexivity.
Qed.

Lemma reln_map_entity_attribute_spec (r : Concept) (is_kv : bool) :
  (forall role player a,
     In (role, player) (get_players_by_role_type r_tx r) -> In (Attribute a) player ->
     representable local_utcoffset (a_value a) = true /\
     (is_kv = true ->
      forall x, In x (get_has r_tx (Attribute a) None) -> representable local_utcoffset
          (a_value x) = true)) ->
  exists roles,
    reln_map_entity_attribute local_utcoffset strftime_Y (get_players_by_role_type r_tx r) r_tx
      (get_attribute_type r_tx "stix-id") is_kv
    = (left_out is_relation (get_players_by_role_type r_tx r), Ok roles) /\
    Forall2 (role_binding (entity_or_attribute_player local_utcoffset strftime_Y r_tx is_kv)
               (fun p => negb (is_relation p)))
            (get_players_by_role_type r_tx r) roles.
Proof.
  intros values_ok. unfold reln_map_entity_attribute, left_out.
  match goal with
  | |- exists roles, for_append ?body ?l = _ /\ _ =>
      destruct (for_append_full_exists body
        (fun rp => map debug_not_entity (filter is_relation (snd rp)))
        (fun rp o => exists b, o = Some b /\
           role_binding (entity_or_attribute_player local_utcoffset strftime_Y r_tx is_kv)
             (fun p => negb (is_relation p)) rp b) l) as (os & E & F)
  end.
  2: { exists (somes os). split; [exact E|]. now apply Forall2_somes_all. }
  intros [role player] Hrp.
  match goal with
  | |- exists o, bind (for_append ?body ?l) _ = _ /\ _ =>
      destruct (for_append_full_exists body
        (fun p => if is_relation p then [debug_not_entity p] else [])
        (fun p o => if negb (is_relation p)
                    then exists b, o = Some b /\
                      entity_or_attribute_player local_utcoffset strftime_Y r_tx is_kv role p b
                    else o = None) l) as (os & E & F)
  end.
  2: { rewrite E, flat_map_skipped. eexists. split.
       - cbn. rewrite app_nil_r. reflexivity.
       - eexists. split; [reflexivity|]. eexists. split; [reflexivity|].
         cbn [fst snd]. now apply Forall2_somes_filter. }
  intros p Hp. destruct p as [iid label|iid label|a]; cbn [is_relation negb].
  - eexists. split; [reflexivity|]. eexists. split; [reflexivity|].
    apply process_entity_reference.
  - eexists. split; reflexivity.
  - destruct (values_ok role player a Hrp Hp) as [Va Vh].
    destruct (process_value_ret a Va) as (value & Hv).
    rewrite Hv, bind_ret_l. destruct is_kv.
    + destruct (process_props_ret local_utcoffset strftime_Y
                  (get_has r_tx (Attribute a) None))
        as (props & Hprops); [exact (Vh eq_refl)|].
      rewrite Hprops, bind_ret_l. eexists. split; [reflexivity|].
      eexists. split; [reflexivity|]. exists value. split; [now rewrite Hv|].
      exists props. split; [now rewrite Hprops|reflexivity].
    + eexists. split; [reflexivity|]. eexists. split; [reflexivity|].
      exists value. split; [now rewrite Hv|reflexivity].
Qed.

Local Abbreviation auth := (authorised_mappings import_type).
Local Abbreviation details := (get_relation_details local_utcoffset strftime_Y authorised_mappings).

(** X6: for a relation resolved to the key-value category, with
    representable values, the decoder returns one binding per role.  An
    entity player becomes a reference; an attribute player becomes a record
    with its type name, its value and, as [props], the decoded attributes it
    owns; a relation player is left out, with one debug record in the log. *)
Theorem key_value_unpacking (depth : nat) (r : Concept) :
  values_representable local_utcoffset r_tx ->
  resolve auth (type_name r) = Some key_value ->
  exists roles,
    details (S depth) r r_tx import_type
    = (left_out is_relation (get_players_by_role_type r_tx r), Ok (with_roles r roles)) /\
    Forall2 (role_binding (entity_or_attribute_player local_utcoffset strftime_Y r_tx true)
               (fun p => negb (is_relation p)))
            (get_players_by_role_type r_tx r) roles.
Proof.
  intros V R. destruct (reln_map_entity_attribute_spec r true) as (roles & E & F).
  { intros role player a Hrp Hp. split.
    - eapply (proj2 V); eassumption.
    - intros _ x Hx. eapply (proj1 V); exact Hx. }
  exists roles. split; [|exact F].
  rewrite get_relation_details_dispatch, R. unfold get_key_value_relations.
  rewrite E. cbn. now rewrite app_nil_r.
Qed.

(** X7: for a relation named [granular-marking] that no membership set
    claims, when the values of its attribute players are representable, the
    decoder returns the same structure as for a key-value relation, except
    that an attribute player carries no [props]: the attributes it owns are
    not read, so their values cannot make the decoding fail. *)
Theorem granular_marking_unpacking (depth : nat) (r : Concept) :
  (forall role player a,
     In (role, player) (get_players_by_role_type r_tx r) -> In (Attribute a) player ->
     representable local_utcoffset (a_value a) = true) ->
  resolve auth (type_name r) = Some granular_marking ->
  exists roles,
    details (S depth) r r_tx import_type
    = (left_out is_relation (get_players_by_role_type r_tx r), Ok (with_roles r roles)) /\
    Forall2 (role_binding (entity_or_attribute_player local_utcoffset strftime_Y r_tx false)
               (fun p => negb (is_relation p)))
            (get_players_by_role_type r_tx r) roles.
Proof.
  intros V R. destruct (reln_map_entity_attribute_spec r false) as (roles & E & F).
  { intros role player a Hrp Hp. split; [eapply V; eassumption | discriminate]. }
  exists roles. split; [|exact F].
  rewrite get_relation_details_dispatch, R. unfold get_granular_marking.
  rewrite E. cbn. now rewrite app_nil_r.
Qed.

End EntityAttribute.

(** ** Lists of relations and whole answers *)

Lemma for_append_app {A B} (body : A -> M (option B)) (xs ys : list A) :
  for_append body (xs ++ ys) =
  bind (for_append body xs) (fun a =>
  bind (for_append body ys) (fun b => ret (a ++ b)%list)).
Proof.
  induction xs as [|x xs IH].
  - cbn [app for_append]. rewrite bind_ret_l. symmetry.
    rewrite <- (bind_ret_r (for_append body ys)) at 2. reflexivity.
  - cbn [app for_append]. rewrite bind_assoc. apply bind_ext. intros o.
    rewrite IH, !bind_assoc. apply bind_ext. intros a.
    rewrite !bind_assoc. rewrite bind_ret_l. apply bind_ext. intros b.
    rewrite bind_ret_l. destruct o; reflexivity.
Qed.

Section Answers.

Variable local_utcoffset : PyDatetime.datetime -> result Z.
Variable strftime_Y : Z -> string.
Variable authorised_mappings : string -> Auth.
Variable r_tx : Transaction.
Variable import_type : string.

Local Abbreviation auth := (authorised_mappings import_type).
Local Abbreviation details := (get_relation_details local_utcoffset strftime_Y authorised_mappings).

(** X8: decoding the answers one after the other and joining the result
    lists is the same as decoding them as one iterator: the same records in
    the same order, the same log, and the same exception when one is
    raised. *)
Theorem convert_ans_to_res_app (depth : nat)
    (answers more : list (list (string * Concept))) :
  convert_ans_to_res local_utcoffset strftime_Y authorised_mappings depth (answers ++ more)
      r_tx import_type
  = bind (convert_ans_to_res local_utcoffset strftime_Y authorised_mappings depth answers
      r_tx import_type)
      (fun res =>
       bind (convert_ans_to_res local_utcoffset strftime_Y authorised_mappings depth more
           r_tx import_type)
         (fun res' => ret (res ++ res')%list)).
Proof.
  unfold convert_ans_to_res. rewrite for_append_app, !bind_assoc.
  apply bind_ext. intros a. rewrite bind_ret_l, !bind_assoc.
  apply bind_ext. intros b. rewrite !bind_ret_l. now rewrite concat_app.
Qed.

Hypothesis consistent : tables_consistent auth = true.
Hypothesis values_ok : values_representable local_utcoffset r_tx.
Variable rank : Concept -> nat.
Hypothesis ranked : forall r rel, calls auth r_tx r rel -> (rank rel < rank r)%nat.

(** X9: with consistent tables, representable values and nesting within
    the call depth, [process_relns] returns exactly one record per relation,
    in the order given, each with the relation's type name and internal id.
    A relation of unknown category is not dropped: its record only lacks the
    role list. *)
Theorem process_relns_keeps_all (depth : nat) (reln_types : list Concept) :
  (forall r, In r reln_types -> (rank r < depth)%nat) ->
  exists relns,
    outcome (process_relns local_utcoffset strftime_Y authorised_mappings depth
               reln_types r_tx import_type) = Ok relns /\
    Forall2 (relation_record auth) reln_types relns.
Proof.
  intros H.
  destruct (process_relns_spec local_utcoffset strftime_Y authorised_mappings r_tx
              import_type consistent values_ok rank ranked depth reln_types H)
    as (relns & E & F & _).
  now exists relns.
Qed.

(** X10: under the same conditions [convert_ans_to_res] returns one record
    for each binding of an entity or a relation, in the order of the
    answers; a binding of anything else gets none.  The record carries the
    binding's variable name as [symbol], the internal id, the type name, the
    decoded attributes and one record per relation of the element; for a
    relation it also carries [edges], which list for each role references to
    the entity players only. *)
Theorem convert_ans_to_res_records (depth : nat)
    (answer_iterator : list (list (string * Concept))) :
  (forall c, (rank c < depth)%nat) ->
  exists res,
    outcome (convert_ans_to_res local_utcoffset strftime_Y authorised_mappings depth
               answer_iterator r_tx import_type) = Ok res /\
    Forall2 (answer_record local_utcoffset strftime_Y authorised_mappings depth r_tx
               import_type)
            (filter decoded_binding (List.concat answer_iterator)) res.
Proof.
  intros Hd.
  destruct (convert_ans_to_res_spec local_utcoffset strftime_Y authorised_mappings r_tx
              import_type consistent values_ok rank ranked depth answer_iterator Hd)
    as (res & E & F & _).
  now exists res.
Qed.

End Answers.

(** ** The validation of nested relations *)

Section Validator.

Variable local_utcoffset : PyDatetime.datetime -> result Z.
Variable strftime_Y : Z -> string.
Variable authorised_mappings : string -> Auth.
Variable r_tx : Transaction.
Variable import_type : string.

Local Abbreviation auth := (authorised_mappings import_type).
Local Abbreviation details := (get_relation_details local_utcoffset strftime_Y authorised_mappings).

(** X11: for a relation whose type name is in none of the embedded,
    key-value, extension and list-of-objects sets, [validate_get_relns] looks
    at the name only.  Named [granular-marking] or [hashes], the relation
    passes whoever its players are, and the result is that of
    [get_relation_details].  Under any other name it is rejected: the
    function logs an error and returns [None] without unpacking.  This is
    the fate of standard relationships and sightings that touch a
    sub-object. *)
Theorem validate_get_relns_unlisted (depth : nat) (rel : Concept) (obj_name : string) :
  owner_filtered auth (type_name rel) = false ->
  (type_name rel = "granular-marking" \/ type_name rel = "hashes" ->
   validate_get_relns authorised_mappings (details depth) rel r_tx obj_name import_type
   = details depth rel r_tx import_type) /\
  (type_name rel <> "granular-marking" -> type_name rel <> "hashes" ->
   validate_get_relns authorised_mappings (details depth) rel r_tx obj_name import_type
   = ([error_relation_name (type_name rel)], Ok PNone)).
Proof.
  intros F. rewrite validate_get_relns_cases, F. split.
  - intros [-> | ->]; reflexivity.
  - intros G H. apply String.eqb_neq in G, H. now rewrite G, H.
Qed.

Lemma owner_role_filtered (name role_owner : string) :
  owner_role_of auth name = Some role_owner -> owner_filtered auth name = true.
Proof.
  unfold owner_role_of, owner_filtered.
  repeat match goal with
         | |- context [if ?c then _ else _] => destruct c; [intros _; now rewrite ?orb_true_r|]
         end.
  discriminate.
Qed.

Lemma owner_matches_iff (rel : Concept) (obj_name role_owner : string) :
  owner_matches r_tx rel obj_name role_owner = true <->
  exists player p,
    In (role_owner, player) (get_players_by_role_type r_tx rel) /\
    In p player /\ is_entity p = true /\ type_name p = obj_name.
Proof.
  unfold owner_matches. rewrite existsb_exists. split.
  - intros ([role player] & Hrp & H). apply andb_prop in H. destruct H as [Hr Hp].
    apply String.eqb_eq in Hr. subst role. apply existsb_exists in Hp.
    destruct Hp as (p & Hp & H). apply andb_prop in H. destruct H as [He Ht].
    apply String.eqb_eq in Ht. now exists player, p.
  - intros (player & p & Hrp & Hp & He & Ht). exists (role_owner, player).
    split; [exact Hrp|]. rewrite String.eqb_refl. cbn [andb].
    apply existsb_exists. exists p. split; [exact Hp|].
    rewrite He. cbn [andb]. now apply String.eqb_eq.
Qed.

(** X12: for a relation whose type name is in one of the four filtered
    sets and for which the table gives an owner role, [validate_get_relns]
    unpacks the relation exactly when some player of that role is an entity
    of the sub-object type; otherwise it returns [None], logs nothing and
    does not unpack. *)
Theorem validate_get_relns_owner_filter (depth : nat) (rel : Concept)
    (obj_name role_owner : string) :
  owner_role_of auth (type_name rel) = Some role_owner ->
  ((exists player p,
      In (role_owner, player) (get_players_by_role_type r_tx rel) /\
      In p player /\ is_entity p = true /\ type_name p = obj_name) ->
   validate_get_relns authorised_mappings (details depth) rel r_tx obj_name import_type
   = details depth rel r_tx import_type) /\
  ((forall player p,
      In (role_owner, player) (get_players_by_role_type r_tx rel) ->
      In p player -> is_entity p = true -> type_name p <> obj_name) ->
   validate_get_relns authorised_mappings (details depth) rel r_tx obj_name import_type
   = ret PNone).
Proof.
  intros O. rewrite validate_get_relns_cases, (owner_role_filtered _ _ O), O.
  split.
  - intros H. apply owner_matches_iff in H. now rewrite H.
  - intros H. destruct (owner_matches r_tx rel obj_name role_owner) eqn:E; [|reflexivity].
    apply owner_matches_iff in E. destruct E as (player & p & Hrp & Hp & He & Ht).
    now elim (H player p Hrp Hp He).
Qed.

End Validator.

(** ** The list-of-objects table lookup *)

Section ListOfObjects.

Variable local_utcoffset : PyDatetime.datetime -> result Z.
Variable strftime_Y : Z -> string.
Variable authorised_mappings : string -> Auth.
Variable r_tx : Transaction.
Variable import_type : string.

Local Abbreviation auth := (authorised_mappings import_type).

Lemma for_do_key_error (reln_name : string) (table : list ListOfObjects) :
  (exists lot, In lot table /\ lot_typeql lot = reln_name /\
               dict_get (lot_object lot) (auth_sub_objects auth) = None) ->
  exists lot,
    In lot table /\ lot_typeql lot = reln_name /\
    dict_get (lot_object lot) (auth_sub_objects auth) = None /\
    for_do (fun lot =>
      if String.eqb reln_name (lot_typeql lot)
      then
        match dict_get (lot_object lot) (auth_sub_objects auth) with
        | Some _ => ret tt
        | None => raise (KeyError (lot_object lot))
        end
      else ret tt) table
    = raise (KeyError (lot_object lot)).
Proof.
  induction table as [|x table IH]; intros (lot & Hin & Ht & Hk); [contradiction|].
  cbn [for_do].
  destruct (String.eqb reln_name (lot_typeql x)) eqn:E.
  - destruct (dict_get (lot_object x) (auth_sub_objects auth)) eqn:K.
    + destruct Hin as [->|Hin]; [congruence|].
      destruct IH as (bad & B1 & B2 & B3 & B4); [now exists lot|].
      exists bad. rewrite bind_ret_l. repeat split; auto. now right.
    + exists x. apply String.eqb_eq in E. repeat split; auto. now left.
  - destruct Hin as [->|Hin].
    + apply String.eqb_neq in E. congruence.
    + destruct IH as (bad & B1 & B2 & B3 & B4); [now exists lot|].
      exists bad. rewrite bind_ret_l. repeat split; auto. now right.
Qed.

(** X13: when the list-of-objects table has an entry for the relation's
    type name whose sub-object is not a key of [auth["sub_objects"]],
    [get_list_of_objects] raises [KeyError] for the sub-object of such an
    entry, before it reads any player and without logging. *)
Theorem get_list_of_objects_key_error (r : Concept) :
  (exists lot, In lot (list_of_objects (auth_reln auth)) /\
               lot_typeql lot = type_name r /\
               dict_get (lot_object lot) (auth_sub_objects auth) = None) ->
  exists lot,
    In lot (list_of_objects (auth_reln auth)) /\ lot_typeql lot = type_name r /\
    dict_get (lot_object lot) (auth_sub_objects auth) = None /\
    get_list_of_objects local_utcoffset strftime_Y authorised_mappings r r_tx import_type
    = raise (KeyError (lot_object lot)).
Proof.
  intros H. destruct (for_do_key_error _ _ H) as (lot & B1 & B2 & B3 & B4).
  exists lot. repeat split; auto. unfold get_list_of_objects. now rewrite B4.
Qed.

End ListOfObjects.

(** ** Independence of the call depth *)

Lemma agrees_refl {A} (m : M A) : agrees m m.
Proof. intros _. reflexivity. Qed.

Lemma agrees_bind {A B} (m1 m2 : M A) (f1 f2 : A -> M B) :
  agrees m1 m2 -> (forall a, agrees (f1 a) (f2 a)) -> agrees (bind m1 f1) (bind m2 f2).
Proof.
  intros H1 H2 N. destruct m1 as [l [a|e]].
  - rewrite (H1 ltac:(discriminate)). cbn in *.
    destruct (f1 a) as [l2 r] eqn:E. rewrite (H2 a), E; [reflexivity|].
    rewrite E. exact N.
  - rewrite H1; [reflexivity|]. intros E. apply N. cbn in *. now injection E as ->.
Qed.

Lemma agrees_for_append {A B} (body1 body2 : A -> M (option B)) (l : list A) :
  (forall a, agrees (body1 a) (body2 a)) ->
  agrees (for_append body1 l) (for_append body2 l).
Proof.
  intros H. induction l as [|a l IH]; [apply agrees_refl|].
  cbn [for_append]. apply agrees_bind; [apply H|]. intros o.
  apply agrees_bind; [exact IH|]. intros rest. apply agrees_refl.
Qed.

Section Depth.

Variable local_utcoffset : PyDatetime.datetime -> result Z.
Variable strftime_Y : Z -> string.
Variable authorised_mappings : string -> Auth.

Local Abbreviation details := (get_relation_details local_utcoffset strftime_Y authorised_mappings).

Lemma validate_get_relns_agrees (self1 self2 : Details) :
  (forall rel r_tx import_type,
     agrees (self1 rel r_tx import_type) (self2 rel r_tx import_type)) ->
  forall rel r_tx obj_name import_type,
    agrees (validate_get_relns authorised_mappings self1 rel r_tx obj_name import_type)
           (validate_get_relns authorised_mappings self2 rel r_tx obj_name import_type).
Proof.
  intros H rel r_tx obj_name import_type.
  unfold validate_get_relns, return_valid_relations.
  repeat match goal with
         | |- agrees (if ?c then _ else _) _ => destruct c
         | |- agrees (bind _ _) _ => apply agrees_bind; [apply agrees_refl|intros ?]
         end;
    try apply H; apply agrees_refl.
Qed.

Lemma get_extension_relations_agrees (self1 self2 : Details) :
  (forall rel r_tx import_type,
     agrees (self1 rel r_tx import_type) (self2 rel r_tx import_type)) ->
  forall r r_tx import_type,
    agrees (get_extension_relations local_utcoffset strftime_Y authorised_mappings self1 r
        r_tx import_type)
           (get_extension_relations local_utcoffset strftime_Y authorised_mappings self2 r
               r_tx import_type).
Proof.
  intros H r r_tx import_type. unfold get_extension_relations.
  apply agrees_for_append. intros [role player].
  apply agrees_bind; [|intros ?; apply agrees_refl].
  apply agrees_for_append. intros [iid label|iid label|a]; try apply agrees_refl.
  apply agrees_bind; [apply agrees_refl|]. intros reln_object.
  destruct (String.eqb _ reln_object); [|apply agrees_refl].
  apply agrees_bind; [apply agrees_refl|]. intros has.
  apply agrees_bind; [|intros ?; apply agrees_refl].
  apply agrees_for_append. intros rel.
  apply agrees_bind; [|intros ?; apply agrees_refl].
  now apply validate_get_relns_agrees.
Qed.

Lemma get_relation_details_body_agrees (self1 self2 : Details) :
  (forall rel r_tx import_type,
     agrees (self1 rel r_tx import_type) (self2 rel r_tx import_type)) ->
  forall r r_tx import_type,
    agrees (get_relation_details_body local_utcoffset strftime_Y authorised_mappings self1
        r r_tx import_type)
           (get_relation_details_body local_utcoffset strftime_Y authorised_mappings self2
               r r_tx import_type).
Proof.
  intros H r r_tx import_type. unfold get_relation_details_body.
  repeat match goal with
         | |- agrees (if ?c then _ else _) _ => destruct c
         end;
    try apply agrees_refl.
  apply agrees_bind; [|intros ?; apply agrees_refl].
  now apply get_extension_relations_agrees.
Qed.

(** X14: the result of [get_relation_details] does not depend on the call
    depth available, once it suffices: when the decoding of a relation ends
    without [RecursionError], it returns the same record, writes the same log
    and raises the same exception under every greater depth. *)
Theorem get_relation_details_depth (depth more : nat) (r : Concept) (r_tx : Transaction)
    (import_type : string) :
  outcome (details depth r r_tx import_type) <> Raise RecursionError ->
  details (depth + more) r r_tx import_type = details depth r r_tx import_type.
Proof.
  revert r r_tx import_type.
  change (forall r r_tx import_type,
            agrees (details depth r r_tx import_type)
                   (details (depth + more) r r_tx import_type)).
  induction depth as [|d IH]; intros r r_tx import_type.
  - intros N. now elim N.
  - cbn [Nat.add get_relation_details]. now apply get_relation_details_body_agrees.
Qed.

End Depth.

(** ** Values already in UTC *)

Module UtcFacts.
Import PyDatetime PyDatetimeFacts.

Lemma days_before_year_succ y :
  days_before_year (y + 1) = days_before_year y + 365 + (if is_leap y then 1 else 0).
Proof.
  unfold days_before_year, is_leap. cbv zeta.
  replace (y + 1 - 1) with y by lia.
  destruct (Z.eqb_spec (y mod 4) 0), (Z.eqb_spec (y mod 100) 0),
    (Z.eqb_spec (y mod 400) 0); cbn [andb orb negb];
    Z.to_euclidean_division_equations; lia.
Qed.

Lemma days_before_year_mono a b : a <= b -> days_before_year a <= days_before_year b.
Proof.
  intros H. unfold days_before_year. cbv zeta.
  Z.to_euclidean_division_equations; lia.
Qed.

Lemma month_cases m : 1 <= m <= 12 ->
  m = 1 \/ m = 2 \/ m = 3 \/ m = 4 \/ m = 5 \/ m = 6 \/
  m = 7 \/ m = 8 \/ m = 9 \/ m = 10 \/ m = 11 \/ m = 12.
Proof. lia. Qed.

Ltac month_tables :=
  repeat match goal with
         | |- context [index ?l ?k] =>
             let v := eval vm_compute in (index l k) in change (index l k) with v
         | |- context [?a =? ?b] =>
             let v := eval vm_compute in (a =? b) in change (a =? b) with v
         | |- context [?a <? ?b] =>
             let v := eval vm_compute in (a <? b) in change (a <? b) with v
         end;
  cbn [andb].

Lemma day_of_year_bound y m d :
  1 <= m <= 12 -> 1 <= d <= days_in_month y m ->
  1 <= days_before_month y m + d <= 365 + (if is_leap y then 1 else 0).
Proof.
  intros Hm. unfold days_before_month, days_in_month.
  destruct (is_leap y);
    destruct (month_cases m Hm) as [->|[->|[->|[->|[->|[->|[->|[->|[->|[->|[->| ->]]]]]]]]]]];
    month_tables; lia.
Qed.

Lemma day_of_year_inj y m d m' d' :
  1 <= m <= 12 -> 1 <= d <= days_in_month y m ->
  1 <= m' <= 12 -> 1 <= d' <= days_in_month y m' ->
  days_before_month y m + d = days_before_month y m' + d' -> m = m' /\ d = d'.
Proof.
  intros Hm Hd Hm' Hd'. revert Hd Hd'. unfold days_before_month, days_in_month.
  destruct (is_leap y);
    destruct (month_cases m Hm) as [->|[->|[->|[->|[->|[->|[->|[->|[->|[->|[->| ->]]]]]]]]]]];
    destruct (month_cases m' Hm') as [->|[->|[->|[->|[->|[->|[->|[->|[->|[->|[->| ->]]]]]]]]]]];
    month_tables; lia.
Qed.

Lemma ymd2ord_inj y m d y' m' d' :
  1 <= m <= 12 -> 1 <= d <= days_in_month y m ->
  1 <= m' <= 12 -> 1 <= d' <= days_in_month y' m' ->
  ymd2ord y m d = ymd2ord y' m' d' -> y = y' /\ m = m' /\ d = d'.
Proof.
  intros Hm Hd Hm' Hd' E. unfold ymd2ord in E.
  pose proof (day_of_year_bound y m d Hm Hd) as B.
  pose proof (day_of_year_bound y' m' d' Hm' Hd') as B'.
  pose proof (days_before_year_succ y) as S. pose proof (days_before_year_succ y') as S'.
  assert (Y : y = y').
  { destruct (Z.lt_trichotomy y y') as [L|[L|L]]; [|exact L|].
    - pose proof (days_before_year_mono (y + 1) y' ltac:(lia)). lia.
    - pose proof (days_before_year_mono (y' + 1) y ltac:(lia)). lia. }
  subst y'. split; [reflexivity|]. apply (day_of_year_inj y); auto. lia.
Qed.

Lemma minus_offset_zero dt :
  valid dt = true ->
  minus_offset dt 0
  = Some (mk_datetime (year dt) (month dt) (day dt) (hour dt) (minute dt) (second dt)
            (microsecond dt) (Some 0)).
Proof.
  intros V. unfold valid in V.
  repeat (apply andb_prop in V; destruct V as [V ?]).
  repeat match goal with
         | H : (_ <=? _) = true |- _ => apply Z.leb_le in H
         | H : (_ <? _) = true |- _ => apply Z.ltb_lt in H
         end.
  destruct dt as [y m d h mi s us tz].
  cbn [year month day hour minute second microsecond tzinfo] in *.
  unfold minus_offset, instant_us, wall_us.
  cbn [year month day hour minute second microsecond tzinfo]. cbv zeta.
  set (n := ymd2ord y m d).
  pose proof (day_of_year_bound y m d ltac:(lia) ltac:(lia)) as B.
  pose proof (days_before_year_succ y) as S.
  pose proof (days_before_year_mono 1 y ltac:(unfold MINYEAR in *; lia)) as L.
  pose proof (days_before_year_mono (y + 1) 10000 ltac:(unfold MAXYEAR in *; lia)) as U.
  change (days_before_year 1) with 0 in L.
  change (days_before_year 10000) with 3652059 in U.
  assert (N : 1 <= n <= MAXORDINAL) by (unfold n, ymd2ord, MAXORDINAL; lia).
  set (total := n * US_PER_DAY + ((h * 60 + mi) * 60 + s) * US_PER_SECOND + us - 0).
  assert (D : total / US_PER_DAY = n)
    by (unfold total, US_PER_DAY, US_PER_SECOND in *;
        Z.to_euclidean_division_equations; lia).
  assert (R : total mod US_PER_DAY = ((h * 60 + mi) * 60 + s) * US_PER_SECOND + us)
    by (unfold total, US_PER_DAY, US_PER_SECOND in *;
        Z.to_euclidean_division_equations; lia).
  rewrite D, R.
  replace ((0 <? n) && (n <=? MAXORDINAL)) with true
    by (symmetry; apply andb_true_intro; split; [apply Z.ltb_lt | apply Z.leb_le]; lia).
  destruct (ord2ymd_spec n ltac:(lia)) as (y' & m' & d' & E & O & Hy & Hm & Hd & _).
  rewrite E.
  destruct (ymd2ord_inj y' m' d' y m d Hm Hd ltac:(lia) ltac:(lia) O) as (-> & -> & ->).
  f_equal. unfold US_PER_SECOND in *.
  f_equal; Z.to_euclidean_division_equations; lia.
Qed.

End UtcFacts.

Section UtcValues.
Import PyDatetime.

Variable local_utcoffset : PyDatetime.datetime -> result Z.
Variable strftime_Y : Z -> string.

(** X15: a well-formed datetime at offset zero from UTC, be it aware or
    naive on a host that resolves its local zone to UTC, is rendered field by
    field: moving it to UTC changes none of its fields, so [process_props]
    and [process_value] return the formatted fields of the stored value
    itself. *)
Theorem process_props_utc_unchanged (a : Attr) (dt : datetime) :
  a_value a = VDatetime dt -> valid dt = true ->
  utcoffset local_utcoffset dt = Ok 0 ->
  process_props local_utcoffset strftime_Y [a]
  = ret [PDict [("typeql", PStr (a_label a)); ("value", PStr (strftime strftime_Y dt));
                ("datetime", PTrue)]] /\
  process_value local_utcoffset strftime_Y a = ret (PStr (strftime strftime_Y dt)).
Proof.
  intros E V Z. rewrite process_props_one.
  unfold process_prop, process_value, utc_string, astimezone_utc.
  rewrite E, Z, (UtcFacts.minus_offset_zero dt V). split; reflexivity.
Qed.

End UtcValues.

(** ** An extension relation without a table entry *)

Lemma for_append_dichotomy {A B} (body : A -> M (option B)) (e : Exn) (l : list A) :
  (forall a, In a l -> (exists o, outcome (body a) = Ok o) \/ outcome (body a) = Raise e) ->
  ((exists a, In a l /\ outcome (body a) = Raise e) /\
   outcome (for_append body l) = Raise e) \/
  ((forall a, In a l -> exists o, outcome (body a) = Ok o) /\
   exists bs, outcome (for_append body l) = Ok bs).
Proof.
  induction l as [|a l IH]; intros H.
  - right. split; [intros a []|]. now exists [].
  - cbn [for_append]. rewrite outcome_bind.
    destruct (H a (or_introl eq_refl)) as [(o & Ho)|Ha].
    + rewrite Ho, outcome_bind.
      destruct IH as [((x & Hx & Rx) & R)|(Hok & bs & R)];
        [intros x Hx; apply H; now right| |].
      * left. rewrite R. split; [|reflexivity]. exists x. split; [now right|exact Rx].
      * right. rewrite R. split; [|eexists; reflexivity].
        intros x [<-|Hx]; [now exists o|now apply Hok].
    + left. rewrite Ha. split; [|reflexivity]. exists a. split; [now left|exact Ha].
Qed.

Section MissingEntry.

Variable local_utcoffset : PyDatetime.datetime -> result Z.
Variable strftime_Y : Z -> string.
Variable authorised_mappings : string -> Auth.
Variable r_tx : Transaction.
Variable import_type : string.

Local Abbreviation auth := (authorised_mappings import_type).
Local Abbreviation details := (get_relation_details local_utcoffset strftime_Y authorised_mappings).

(** X16: for a relation whose type name is in the extension set while the
    extension table has no entry for it, decoding fails exactly when the
    relation has an entity player, with [UnboundLocalError] for
    [reln_object]; with attribute and relation players only it returns a
    record.  The values of the attribute players are taken to be
    representable. *)
Theorem get_relation_details_unbound_object (depth : nat) (r : Concept) :
  resolve auth (type_name r) = Some extension ->
  ext_object_of auth (type_name r) = None ->
  (forall role player a,
     In (role, player) (get_players_by_role_type r_tx r) -> In (Attribute a) player ->
     representable local_utcoffset (a_value a) = true) ->
  ((exists role player p,
      In (role, player) (get_players_by_role_type r_tx r) /\ In p player /\
      is_entity p = true) ->
   outcome (details (S depth) r r_tx import_type) = Raise (UnboundLocalError "reln_object")) /\
  ((forall role player p,
      In (role, player) (get_players_by_role_type r_tx r) -> In p player ->
      is_entity p = false) ->
   exists roles, outcome (details (S depth) r r_tx import_type) = Ok (with_roles r roles)).
Proof.
  intros R N V. rewrite get_relation_details_dispatch, R, outcome_bind.
  unfold get_extension_relations. fold (ext_object_of auth (type_name r)). rewrite N.
  match goal with
  | |- context [for_append ?body (get_players_by_role_type r_tx r)] =>
      set (outer := body)
  end.
  assert (Inner : forall role player,
            In (role, player) (get_players_by_role_type r_tx r) ->
            ((exists p, In p player /\ is_entity p = true) /\
             outcome (outer (role, player)) = Raise (UnboundLocalError "reln_object")) \/
            ((forall p, In p player -> is_entity p = false) /\
             exists o, outcome (outer (role, player)) = Ok o)).
  { intros role player Hrp. unfold outer. rewrite outcome_bind.
    match goal with
    | |- context [for_append ?body player] =>
        destruct (for_append_dichotomy body (UnboundLocalError "reln_object") player)
          as [((p & Hp & Rp) & E)|(Hok & bs & E)]
    end.
    - intros p Hp. destruct p as [iid label|iid label|a].
      + right. reflexivity.
      + left. eexists. reflexivity.
      + left. destruct (process_value_ok local_utcoffset strftime_Y a (V role player a Hrp
          Hp)) as (v & Hv).
        rewrite outcome_bind, Hv. eexists. reflexivity.
    - left. rewrite E. split; [|reflexivity]. exists p. split; [exact Hp|].
      destruct p as [iid label|iid label|a]; [reflexivity|discriminate|].
      destruct (process_value_ok local_utcoffset strftime_Y a (V role player a Hrp Hp)) as (v & Hv).
      rewrite outcome_bind, Hv in Rp. discriminate.
    - right. rewrite E. split; [|eexists; reflexivity].
      intros p Hp. destruct (Hok p Hp) as (o & Ho).
      destruct p as [iid label|iid label|a]; [discriminate|reflexivity|reflexivity]. }
  destruct (for_append_dichotomy outer (UnboundLocalError "reln_object")
              (get_players_by_role_type r_tx r)) as [(([role player] & Hrp & Rrp) & E)|(Hok
                  & bs & E)].
  - intros [role player] Hrp.
    destruct (Inner role player Hrp) as [(_ & H)|(_ & H)]; [now right|now left].
  - rewrite E. split; [reflexivity|]. intros H.
    destruct (Inner role player Hrp) as [((p & Hp & Ep) & _)|(_ & o & Ho)]; [|congruence].
    rewrite (H role player p Hrp Hp) in Ep. discriminate.
  - rewrite E. split; [|intros _; eexists; reflexivity].
    intros (role & player & p & Hrp & Hp & Ep).
    destruct (Inner role player Hrp) as [(_ & H)|(H & _)].
    + destruct (Hok (role, player) Hrp) as (o & Ho). congruence.
    + rewrite (H p Hp) in Ep. discriminate.
Qed.

End MissingEntry.

(** ** The further properties on the sample stores *)

Module Sample2Facts.
Import Sample Sample2.

Lemma has_of2_representable (iid : string) (a : Attr) :
  In a (has_of2 iid) -> representable local_utcoffset (a_value a) = true.
Proof.
  unfold has_of2.
  repeat match goal with
         | |- context [if String.eqb ?x ?y then _ else _] => destruct (String.eqb x y)
         end;
    try apply SampleFacts.has_of_representable;
    cbn [In]; intros H; repeat destruct H as [H|H]; subst; try reflexivity;
    try contradiction.
Qed.

Lemma sample2_values_ok : values_representable local_utcoffset r_tx2.
Proof.
  split.
  - intros c filter a. cbn [get_has r_tx2]. destruct filter as [t|].
    + intros H. apply filter_In in H. apply (has_of2_representable _ _ (proj1 H)).
    + apply has_of2_representable.
  - intros r role player a. cbn [get_players_by_role_type r_tx2]. unfold players_of2.
    repeat match goal with
           | |- context [if String.eqb ?x ?y then _ else _] => destruct (String.eqb x y)
           end;
      try apply (proj2 SampleFacts.sample_values_ok r role player a);
      cbn [In]; intros H; repeat destruct H as [H|H]; try contradiction;
      injection H as <- <-; cbn [In]; intros K; repeat destruct K as [K|K];
      try contradiction; try discriminate; injection K as <-; reflexivity.
Qed.

Lemma rank_below_two (c : Concept) : (rank c < 2)%nat.
Proof. unfold rank. destruct (String.eqb _ _); lia. Qed.

End Sample2Facts.

Section FurtherOnSample.
Import Sample Sample2.

Local Abbreviation details := (get_relation_details local_utcoffset strftime_Y authorised_mappings).

Lemma process_props_records_witness :
  (forall a, In a (get_has r_tx file1 None) -> representable local_utcoffset (a_value a) = true) /\
  exists props,
    process_props local_utcoffset strftime_Y (get_has r_tx file1 None) = ret props /\
    Forall2 (prop_record local_utcoffset strftime_Y) (get_has r_tx file1 None) props.
Proof.
  split; [apply (proj1 SampleFacts.sample_values_ok)|].
  apply (process_props_records local_utcoffset strftime_Y (get_has r_tx file1 None)).
  apply (proj1 SampleFacts.sample_values_ok).
Defined.

Lemma key_value_unpacking_witness :
  values_representable local_utcoffset r_tx2 /\
  resolve (authorised_mappings "stix21") (type_name kv1) = Some key_value /\
  exists roles,
    details 1 kv1 r_tx2 "stix21"
    = (left_out is_relation (get_players_by_role_type r_tx2 kv1),
       Ok (with_roles kv1 roles)) /\
    Forall2 (role_binding (entity_or_attribute_player local_utcoffset strftime_Y r_tx2 true)
               (fun p => negb (is_relation p)))
            (get_players_by_role_type r_tx2 kv1) roles.
Proof.
  split; [exact Sample2Facts.sample2_values_ok|]. split; [reflexivity|].
  apply (key_value_unpacking local_utcoffset strftime_Y authorised_mappings r_tx2 "stix21" 0 kv1
           Sample2Facts.sample2_values_ok eq_refl).
Defined.

Lemma granular_marking_unpacking_witness :
  (forall role player a,
     In (role, player) (get_players_by_role_type r_tx2 gm1) -> In (Attribute a) player ->
     representable local_utcoffset (a_value a) = true) /\
  resolve (authorised_mappings "stix21") (type_name gm1) = Some granular_marking /\
  exists roles,
    details 1 gm1 r_tx2 "stix21"
    = (left_out is_relation (get_players_by_role_type r_tx2 gm1),
       Ok (with_roles gm1 roles)) /\
    Forall2 (role_binding (entity_or_attribute_player local_utcoffset strftime_Y r_tx2 false)
               (fun p => negb (is_relation p)))
            (get_players_by_role_type r_tx2 gm1) roles.
Proof.
  split; [apply (proj2 Sample2Facts.sample2_values_ok)|]. split; [reflexivity|].
  apply (granular_marking_unpacking local_utcoffset strftime_Y authorised_mappings r_tx2
      "stix21" 0 gm1
           (proj2 Sample2Facts.sample2_values_ok gm1) eq_refl).
Defined.

Lemma process_relns_keeps_all_witness :
  tables_consistent (authorised_mappings "stix21") = true /\
  values_representable local_utcoffset r_tx /\
  (forall r rel, calls (authorised_mappings "stix21") r_tx r rel ->
                 (rank rel < rank r)%nat) /\
  (forall r, In r (get_relations r_tx file1) -> (rank r < 2)%nat) /\
  exists relns,
    outcome (process_relns local_utcoffset strftime_Y authorised_mappings 2 (get_relations
        r_tx file1)
               r_tx "stix21") = Ok relns /\
    Forall2 (relation_record (authorised_mappings "stix21"))
            (get_relations r_tx file1) relns.
Proof.
  split; [reflexivity|]. split; [exact SampleFacts.sample_values_ok|].
  split; [exact SampleFacts.sample_ranked|].
  split; [intros r _; apply Sample2Facts.rank_below_two|].
  apply (process_relns_keeps_all local_utcoffset strftime_Y authorised_mappings r_tx "stix21"
           eq_refl SampleFacts.sample_values_ok rank SampleFacts.sample_ranked 2
           (get_relations r_tx file1)).
  intros r _. apply Sample2Facts.rank_below_two.
Defined.

Lemma convert_ans_to_res_records_witness :
  tables_consistent (authorised_mappings "stix21") = true /\
  values_representable local_utcoffset r_tx /\
  (forall r rel, calls (authorised_mappings "stix21") r_tx r rel ->
                 (rank rel < rank r)%nat) /\
  (forall c, (rank c < 2)%nat) /\
  exists res,
    outcome (convert_ans_to_res local_utcoffset strftime_Y authorised_mappings 2
               [[("f", file1); ("n", Attribute selector)]; [("r", ext1)]] r_tx "stix21")
    = Ok res /\
    Forall2 (answer_record local_utcoffset strftime_Y authorised_mappings 2 r_tx "stix21")
            [("f", file1); ("r", ext1)] res.
Proof.
  split; [reflexivity|]. split; [exact SampleFacts.sample_values_ok|].
  split; [exact SampleFacts.sample_ranked|].
  split; [exact Sample2Facts.rank_below_two|].
  apply (convert_ans_to_res_records local_utcoffset strftime_Y authorised_mappings r_tx "stix21"
           eq_refl SampleFacts.sample_values_ok rank SampleFacts.sample_ranked 2
           [[("f", file1); ("n", Attribute selector)]; [("r", ext1)]]
           Sample2Facts.rank_below_two).
Defined.

Lemma validate_get_relns_unlisted_witness :
  owner_filtered (authorised_mappings "stix21") (type_name uses1) = false /\
  (type_name uses1 = "granular-marking" \/ type_name uses1 = "hashes" ->
   validate_get_relns authorised_mappings (details 1) uses1 r_tx "windows-pebinary-ext"
     "stix21"
   = details 1 uses1 r_tx "stix21") /\
  (type_name uses1 <> "granular-marking" -> type_name uses1 <> "hashes" ->
   validate_get_relns authorised_mappings (details 1) uses1 r_tx "windows-pebinary-ext"
     "stix21"
   = ([error_relation_name (type_name uses1)], Ok PNone)).
Proof.
  split; [reflexivity|].
  apply (validate_get_relns_unlisted local_utcoffset strftime_Y authorised_mappings r_tx
      "stix21" 1 uses1
           "windows-pebinary-ext" eq_refl).
Defined.

Lemma validate_get_relns_owner_filter_witness :
  owner_role_of (authorised_mappings "stix21") (type_name lo1) = Some "ntfs-ext" /\
  ((exists player p,
      In ("ntfs-ext", player) (get_players_by_role_type r_tx lo1) /\
      In p player /\ is_entity p = true /\ type_name p = "ntfs-ext") ->
   validate_get_relns authorised_mappings (details 1) lo1 r_tx "ntfs-ext" "stix21"
   = details 1 lo1 r_tx "stix21") /\
  ((forall player p,
      In ("ntfs-ext", player) (get_players_by_role_type r_tx lo1) ->
      In p player -> is_entity p = true -> type_name p <> "ntfs-ext") ->
   validate_get_relns authorised_mappings (details 1) lo1 r_tx "ntfs-ext" "stix21"
   = ret PNone).
Proof.
  split; [reflexivity|].
  apply (validate_get_relns_owner_filter local_utcoffset strftime_Y authorised_mappings
      r_tx "stix21" 1 lo1
           "ntfs-ext" "ntfs-ext" eq_refl).
Defined.

Lemma get_list_of_objects_key_error_witness :
  (exists lot, In lot (list_of_objects (auth_reln stix21_no_sub_objects)) /\
               lot_typeql lot = type_name lo1 /\
               dict_get (lot_object lot) (auth_sub_objects stix21_no_sub_objects) = None) /\
  exists lot,
    In lot (list_of_objects (auth_reln stix21_no_sub_objects)) /\
    lot_typeql lot = type_name lo1 /\
    dict_get (lot_object lot) (auth_sub_objects stix21_no_sub_objects) = None /\
    get_list_of_objects local_utcoffset strftime_Y (fun _ => stix21_no_sub_objects) lo1
        r_tx "stix21"
    = raise (KeyError (lot_object lot)).
Proof.
  assert (H : exists lot, In lot (list_of_objects (auth_reln stix21_no_sub_objects)) /\
                lot_typeql lot = type_name lo1 /\
                dict_get (lot_object lot) (auth_sub_objects stix21_no_sub_objects) = None).
  { eexists. split; [left; reflexivity|]. split; reflexivity. }
  split; [exact H|].
  apply (get_list_of_objects_key_error local_utcoffset strftime_Y (fun _ =>
      stix21_no_sub_objects) r_tx
           "stix21" lo1 H).
Defined.

Lemma get_relation_details_depth_witness :
  outcome (details 2 ext1 r_tx "stix21") <> Raise RecursionError /\
  details (2 + 3) ext1 r_tx "stix21" = details 2 ext1 r_tx "stix21".
Proof.
  assert (H : outcome (details 2 ext1 r_tx "stix21") <> Raise RecursionError)
    by (vm_compute; discriminate).
  split; [exact H|].
  apply (get_relation_details_depth local_utcoffset strftime_Y authorised_mappings 2 3 ext1
      r_tx "stix21" H).
Defined.

Lemma process_props_utc_unchanged_witness :
  a_value modified1 = VDatetime utc_noon /\
  PyDatetime.valid utc_noon = true /\
  PyDatetime.utcoffset local_utcoffset utc_noon = Ok 0 /\
  process_props local_utcoffset strftime_Y [modified1]
  = ret [PDict [("typeql", PStr (a_label modified1));
                ("value", PStr (PyDatetime.strftime strftime_Y utc_noon));
                ("datetime", PTrue)]] /\
  process_value local_utcoffset strftime_Y modified1
  = ret (PStr (PyDatetime.strftime strftime_Y utc_noon)).
Proof.
  split; [reflexivity|]. split; [reflexivity|]. split; [reflexivity|].
  apply (process_props_utc_unchanged local_utcoffset strftime_Y modified1 utc_noon
           eq_refl eq_refl eq_refl).
Defined.

Lemma get_relation_details_unbound_object_witness :
  resolve stix21_no_entry (type_name ext1) = Some extension /\
  ext_object_of stix21_no_entry (type_name ext1) = None /\
  (forall role player a,
     In (role, player) (get_players_by_role_type r_tx ext1) -> In (Attribute a) player ->
     representable local_utcoffset (a_value a) = true) /\
  ((exists role player p,
      In (role, player) (get_players_by_role_type r_tx ext1) /\ In p player /\
      is_entity p = true) ->
   outcome (get_relation_details local_utcoffset strftime_Y (fun _ => stix21_no_entry) 1
       ext1 r_tx "stix21")
   = Raise (UnboundLocalError "reln_object")) /\
  ((forall role player p,
      In (role, player) (get_players_by_role_type r_tx ext1) -> In p player ->
      is_entity p = false) ->
   exists roles,
     outcome (get_relation_details local_utcoffset strftime_Y (fun _ => stix21_no_entry) 1 ext1 r_tx
                "stix21")
     = Ok (with_roles ext1 roles)).
Proof.
  split; [reflexivity|]. split; [reflexivity|].
  split; [apply (proj2 SampleFacts.sample_values_ok)|].
  apply (get_relation_details_unbound_object local_utcoffset strftime_Y (fun _ =>
      stix21_no_entry) r_tx
           "stix21" 0 ext1 eq_refl eq_refl (proj2 SampleFacts.sample_values_ok ext1)).
Defined.

End FurtherOnSample.
